(** * DbAction: the IndexedDB action executor of indexdb-helper-ts

    A shallow embedding of [src/DbAction.ts] (the TypeScript source) and of
    [dist/DbAction.js] (the published build), which differ in how the
    executors settle their promise, together with a small model of the
    native storage engine they drive.

    Conventions:
    - a JavaScript exception is a [Throw] in the [Result] type; a [throw]
      inside an [async] method rejects the promise the method returns;
    - the methods run in a state monad over a [World]: the heap of
      [DbAction] instances, the databases behind the handles, and the
      journal of native calls made so far;
    - after the synchronous part of an executor has issued its request, the
      engine delivers events to the handlers the executor installed; a
      promise settles once, later [resolve]/[reject] calls are ignored. *)

From Stdlib Require Import ZArith List Bool Ascii String Sorted.
From stdpp Require Import gmap strings list fin_maps.

Local Set Warnings "-register-all".

(** ** JavaScript data *)

(** Documents are built from [undefined], [null], booleans, numbers,
    strings and plain objects (property lists in insertion order). *)
Inductive JsValue : Type :=
| JUndefined
| JNull
| JBool (b : bool)
| JNum (n : Z)
| JStr (s : string)
| JObj (props : list (string * JsValue)).

(** An error object: its [name] ("TypeError", "Error", or the name of a
    DOMException) and its [message]. *)
Record JsError : Type := mkError { ename : string; emessage : string }.

Definition TypeError (msg : string) : JsError := mkError "TypeError" msg.
Definition Error (msg : string) : JsError := mkError "Error" msg.
Definition DOMException (name msg : string) : JsError := mkError name msg.

(** A word between double quotes, as error messages show it. *)
Definition quoted (s : string) : string :=
  String (ascii_of_nat 34) (s +:+ String (ascii_of_nat 34) EmptyString).

Inductive Result (A : Type) : Type :=
| Ok (a : A)
| Throw (e : JsError).
Arguments Ok {A} a.
Arguments Throw {A} e.

(** [o[k]]: the first binding of [k], [undefined] when there is none. *)
Fixpoint get_prop (props : list (string * JsValue)) (k : string) : JsValue :=
  match props with
  | [] => JUndefined
  | (k', v) :: rest => if String.eqb k' k then v else get_prop rest k
  end.

Fixpoint has_prop (props : list (string * JsValue)) (k : string) : bool :=
  match props with
  | [] => false
  | (k', _) :: rest => if String.eqb k' k then true else has_prop rest k
  end.

Definition is_undefined (v : JsValue) : bool :=
  match v with JUndefined => true | _ => false end.

(** The properties a plain object inherits from [Object.prototype]: its
    methods, the legacy accessors and [__proto__]. *)
Definition Object_prototype : list string :=
  [ "constructor"; "hasOwnProperty"; "isPrototypeOf"; "propertyIsEnumerable";
    "toLocaleString"; "toString"; "valueOf"; "__proto__";
    "__defineGetter__"; "__defineSetter__"; "__lookupGetter__"; "__lookupSetter__" ].

Definition inherited (k : string) : bool :=
  existsb (String.eqb k) Object_prototype.

(** [k in v]: a TypeError unless [v] is an object; on an object, whether
    [k] is a property of its own or one it inherits. *)
Definition js_in (k : string) (v : JsValue) : Result bool :=
  match v with
  | JObj props => Ok (has_prop props k || inherited k)
  | _ => Throw (TypeError "Cannot use 'in' operator to search for a key in a non-object")
  end.

(** [v[k] === undefined] on a value that passed [js_in]: an own property
    decides by its value; an inherited one is a function (or, for
    [__proto__], the prototype object), never [undefined]. *)
Definition is_undefined_at (v : JsValue) (k : string) : bool :=
  match v with
  | JObj props =>
      if has_prop props k then is_undefined (get_prop props k)
      else negb (inherited k)
  | _ => true
  end.

(** ** constants.ts *)

Definition READ : string := "READ".
Definition WRITE : string := "WRITE".
Definition UPDATE : string := "UPDATE".
Definition DELETE : string := "DELETE".
Definition CLEAR : string := "CLEAR".

(** The object [DB_ACTIONS], its properties in declaration order. *)
Definition DB_ACTIONS : list (string * string) :=
  [ ("READ", READ); ("WRITE", WRITE); ("UPDATE", UPDATE);
    ("DELETE", DELETE); ("CLEAR", CLEAR) ].

(** [Object.values(DB_ACTIONS)] *)
Definition Object_values (o : list (string * string)) : list string := map snd o.

(** ** The native storage engine *)

(** Modelled from the spec: the browser's transactional keyed-record engine
    (section 6 of the specification) is not part of the repository.  The
    model has databases with named object stores, each with an optional
    key path, named indexes and records kept in key order; transactions
    over one store with a mode and a durability hint; the requests
    fetch-all, insert-only-if-absent, upsert, delete-by-key-or-range and
    clear-all; request success/error events and transaction
    complete/error/abort events.  Key generators, unique and multi-entry
    indexes, and date, binary and array values are left out. *)
Module Engine.

Inductive Key : Type :=
| KNum (n : Z)
| KStr (s : string)
| KArr (ks : list Key).

(** Key order of the engine: numbers, then strings, then arrays. *)
Fixpoint key_compare (a b : Key) {struct a} : comparison :=
  match a, b with
  | KNum x, KNum y => Z.compare x y
  | KNum _, _ => Lt
  | KStr _, KNum _ => Gt
  | KStr x, KStr y => String.compare x y
  | KStr _, KArr _ => Lt
  | KArr xs, KArr ys =>
      (fix go (l : list Key) (r : list Key) {struct l} : comparison :=
         match l, r with
         | [], [] => Eq
         | [], _ :: _ => Lt
         | _ :: _, [] => Gt
         | x :: l', y :: r' =>
             match key_compare x y with
             | Eq => go l' r'
             | c => c
             end
         end) xs ys
  | KArr _, _ => Gt
  end.

Definition key_eqb (a b : Key) : bool :=
  match key_compare a b with Eq => true | _ => false end.
Definition key_ltb (a b : Key) : bool :=
  match key_compare a b with Lt => true | _ => false end.
Definition key_leb (a b : Key) : bool :=
  match key_compare a b with Gt => false | _ => true end.

Record KeyRange : Type := mkRange {
  lower : option Key;
  upper : option Key;
  lowerOpen : bool;
  upperOpen : bool
}.

Definition in_range (r : KeyRange) (k : Key) : bool :=
  match lower r with
  | None => true
  | Some lo => if lowerOpen r then key_ltb lo k else key_leb lo k
  end
  &&
  match upper r with
  | None => true
  | Some hi => if upperOpen r then key_ltb k hi else key_leb k hi
  end.

(** The argument of [delete]: [IDBValidKey | IDBKeyRange]. *)
Inductive KeyOrRange : Type :=
| AKey (k : Key)
| ARange (r : KeyRange).

Definition matches (q : KeyOrRange) (k : Key) : bool :=
  match q with
  | AKey k' => key_eqb k' k
  | ARange r => in_range r k
  end.

(** [IDBObjectStore.keyPath]: [null], a string, or an array of strings. *)
Inductive KeyPath : Type :=
| KPNull
| KPString (p : string)
| KPArray (ps : list string).

Record ObjectStore : Type := mkStore {
  keyPath : KeyPath;
  indexes : gmap string string;   (* index name to the index's key path *)
  records : list (Key * JsValue)  (* in key order *)
}.

Record Database : Type := mkDatabase {
  closed : bool;
  objectStores : gmap string ObjectStore
}.

Inductive TransactionMode : Type := readonly | readwrite.

(** [IDBTransactionDurability] *)
Inductive TransactionDurability : Type := default_durability | relaxed | strict.

(** What a request yields in [request.result]. *)
Inductive ReqResult : Type :=
| RUndefined
| RKey (k : Key)
| RArray (vs : list JsValue).

(** The identifiers of a dotted key path. *)
Fixpoint split_dots (s cur : string) : list string :=
  match s with
  | EmptyString => [cur]
  | String c s' =>
      if Ascii.eqb c "."%char then cur :: split_dots s' EmptyString
      else split_dots s' (cur +:+ String c EmptyString)
  end.

Fixpoint walk (ids : list string) (v : JsValue) : option JsValue :=
  match ids with
  | [] => Some v
  | i :: ids' =>
      match v with
      | JObj props => if has_prop props i then walk ids' (get_prop props i) else None
      | _ => None
      end
  end.

Definition eval_path (p : string) (v : JsValue) : option JsValue :=
  match p with
  | EmptyString => Some v
  | _ => walk (split_dots p EmptyString) v
  end.

Definition to_key (v : JsValue) : option Key :=
  match v with
  | JNum n => Some (KNum n)
  | JStr s => Some (KStr s)
  | _ => None
  end.

Definition key_at (p : string) (v : JsValue) : option Key :=
  match eval_path p v with
  | Some x => to_key x
  | None => None
  end.

Fixpoint keys_at (ps : list string) (v : JsValue) : option (list Key) :=
  match ps with
  | [] => Some []
  | p :: ps' =>
      match key_at p v, keys_at ps' v with
      | Some k, Some ks => Some (k :: ks)
      | _, _ => None
      end
  end.

(** The key a store extracts from a value it is asked to store without
    an explicit key. *)
Definition extract_key (kp : KeyPath) (v : JsValue) : option Key :=
  match kp with
  | KPNull => None
  | KPString p => key_at p v
  | KPArray ps => option_map KArr (keys_at ps v)
  end.

Fixpoint lookup_key (k : Key) (rs : list (Key * JsValue)) : option JsValue :=
  match rs with
  | [] => None
  | (k', v) :: rs' => if key_eqb k' k then Some v else lookup_key k rs'
  end.

(** Insert or replace, keeping the records in key order. *)
Fixpoint upsert (k : Key) (v : JsValue) (rs : list (Key * JsValue))
  : list (Key * JsValue) :=
  match rs with
  | [] => [(k, v)]
  | (k', v') :: rs' =>
      match key_compare k k' with
      | Lt => (k, v) :: (k', v') :: rs'
      | Eq => (k, v) :: rs'
      | Gt => (k', v') :: upsert k v rs'
      end
  end.

Definition remove (q : KeyOrRange) (rs : list (Key * JsValue))
  : list (Key * JsValue) :=
  List.filter (fun kv => negb (matches q (fst kv))) rs.

(** The records seen through an index: those with a valid key at the
    index's key path, ordered by that key, then by primary key: the
    records come in primary-key order and each is put before the records
    after it that have the same index key. *)
Fixpoint index_insert (ik : Key) (v : JsValue) (acc : list (Key * JsValue))
  : list (Key * JsValue) :=
  match acc with
  | [] => [(ik, v)]
  | (ik', v') :: acc' =>
      match key_compare ik ik' with
      | Gt => (ik', v') :: index_insert ik v acc'
      | _ => (ik, v) :: (ik', v') :: acc'
      end
  end.

Fixpoint index_view (p : string) (rs : list (Key * JsValue))
  : list (Key * JsValue) :=
  match rs with
  | [] => []
  | (_, v) :: rs' =>
      match key_at p v with
      | Some ik => index_insert ik v (index_view p rs')
      | None => index_view p rs'
      end
  end.

(** *** Transactions, sources and requests *)

Record Transaction : Type := mkTransaction {
  txDatabase : nat;               (* the handle it was opened on *)
  txStoreNames : list string;
  txMode : TransactionMode;
  txDurability : TransactionDurability
}.

(** The checks of [db.transaction(storeNames, mode, options)]. *)
Definition vet_transaction (db : Database) (tx : Transaction) : Result unit :=
  if closed db
  then Throw (DOMException "InvalidStateError" "The database connection is closing.")
  else if forallb (fun n => bool_decide (is_Some (objectStores db !! n))) (txStoreNames tx)
  then match txStoreNames tx with
       | [] => Throw (DOMException "InvalidAccessError" "The storeNames parameter was empty.")
       | _ :: _ => Ok tt
       end
  else Throw (DOMException "NotFoundError" "One of the specified object stores was not found.").

(** What [resolveStoreOrIndex] hands to an executor. *)
Inductive Source : Type :=
| IDBObjectStore (tx : Transaction) (name : string)
| IDBIndex (tx : Transaction) (store : string) (name : string).

Definition source_transaction (s : Source) : Transaction :=
  match s with
  | IDBObjectStore tx _ => tx
  | IDBIndex tx _ _ => tx
  end.

Definition source_store (s : Source) : string :=
  match s with
  | IDBObjectStore _ n => n
  | IDBIndex _ n _ => n
  end.

Inductive Operation : Type :=
| OpGetAll
| OpAdd (doc : JsValue)
| OpPut (doc : JsValue)
| OpDelete (q : KeyOrRange)
| OpClear.

Record Request : Type := mkRequest {
  reqSource : Source;
  reqOp : Operation
}.

Definition is_write (op : Operation) : bool :=
  match op with OpGetAll => false | _ => true end.

(** The checks a request method makes before it returns the request. *)
Definition vet_request (db : Database) (r : Request) : Result unit :=
  let src := reqSource r in
  if is_write (reqOp r) && match txMode (source_transaction src) with
                           | readonly => true | readwrite => false end
  then Throw (DOMException "ReadOnlyError" "The transaction is read-only.")
  else
    match objectStores db !! source_store src with
    | None => Throw (DOMException "InvalidStateError" "The object store has been deleted.")
    | Some st =>
        match reqOp r with
        | OpAdd doc | OpPut doc =>
            match extract_key (keyPath st) doc with
            | Some _ => Ok tt
            | None => Throw (DOMException "DataError" "The object store has no valid key for the value.")
            end
        | _ => Ok tt
        end
    end.

(** The effect of an accepted request on the store, and its result. *)
Definition perform_on (st : ObjectStore) (r : Request)
  : Result (ReqResult * ObjectStore) :=
  let with_records rs := mkStore (keyPath st) (indexes st) rs in
  match reqOp r with
  | OpGetAll =>
      match reqSource r with
      | IDBObjectStore _ _ => Ok (RArray (map snd (records st)), st)
      | IDBIndex _ _ i =>
          match indexes st !! i with
          | Some p => Ok (RArray (map snd (index_view p (records st))), st)
          | None => Throw (DOMException "InvalidStateError" "The index has been deleted.")
          end
      end
  | OpAdd doc =>
      match extract_key (keyPath st) doc with
      | None => Throw (DOMException "DataError" "The object store has no valid key for the value.")
      | Some k =>
          match lookup_key k (records st) with
          | Some _ => Throw (DOMException "ConstraintError" "Key already exists in the object store.")
          | None => Ok (RKey k, with_records (upsert k doc (records st)))
          end
      end
  | OpPut doc =>
      match extract_key (keyPath st) doc with
      | None => Throw (DOMException "DataError" "The object store has no valid key for the value.")
      | Some k => Ok (RKey k, with_records (upsert k doc (records st)))
      end
  | OpDelete q => Ok (RUndefined, with_records (remove q (records st)))
  | OpClear => Ok (RUndefined, with_records [])
  end.

Definition perform (db : Database) (r : Request) : Result (ReqResult * Database) :=
  let name := source_store (reqSource r) in
  match objectStores db !! name with
  | None => Throw (DOMException "InvalidStateError" "The object store has been deleted.")
  | Some st =>
      match perform_on st r with
      | Ok (res, st') => Ok (res, mkDatabase (closed db) (<[name := st']> (objectStores db)))
      | Throw e => Throw e
      end
  end.

(** *** Events *)

(** The events a request and its transaction deliver; an error event
    carries what [request.error] / [transaction.error] holds when the
    handler runs ([None] is [null]). *)
Inductive Event : Type :=
| EvSuccess (result : ReqResult)           (* request "success" *)
| EvError (error : option JsError)         (* request "error" *)
| EvComplete                               (* transaction "complete" *)
| EvTxError (error : option JsError)       (* transaction "error" *)
| EvAbort (error : option JsError).        (* transaction "abort" *)

(** Whether the commit of a transaction whose request succeeded goes
    through; the engine decides, not the caller. *)
Inductive Fate : Type :=
| CommitOk
| CommitFails (e : JsError).

(** One request in one transaction: the events delivered and the
    database afterwards.  A failed request aborts the transaction: its
    error event bubbles to the transaction (whose [error] is still
    [null] then) and the abort event follows. *)
Definition run (db : Database) (r : Request) (f : Fate) : list Event * Database :=
  match perform db r with
  | Ok (res, db') =>
      match f with
      | CommitOk => ([EvSuccess res; EvComplete], db')
      | CommitFails e => ([EvSuccess res; EvAbort (Some e)], db)
      end
  | Throw e => ([EvError (Some e); EvTxError None; EvAbort (Some e)], db)
  end.

End Engine.

(** ** The class and its world *)

(** The fields of a [DbAction] instance.  [action] is the runtime string
    tag; [hintIndex] and [deleteDoc] are [None] while [undefined]. *)
Record DbAction : Type := mkDbAction {
  action : string;
  databaseInstance : nat;
  storeName : string;
  hintIndex : option string;
  durability : Engine.TransactionDurability;
  updateDoc : JsValue;
  deleteDoc : option Engine.KeyOrRange
}.

Inductive NativeCall : Type :=
| CallTransaction (tx : Engine.Transaction)
| CallRequest (r : Engine.Request).

Record World : Type := mkWorld {
  heap : gmap nat DbAction;               (* the instances, by reference *)
  databases : gmap nat Engine.Database;   (* the databases, by handle *)
  journal : list NativeCall               (* native calls, oldest first *)
}.

(** Synchronous code: state that survives an exception. *)
Definition M (A : Type) : Type := World -> Result A * World.

Definition ret {A} (a : A) : M A := fun w => (Ok a, w).
Definition throw {A} (e : JsError) : M A := fun w => (Throw e, w).
Definition bind {A B} (m : M A) (k : A -> M B) : M B :=
  fun w =>
    match m w with
    | (Ok a, w') => k a w'
    | (Throw e, w') => (Throw e, w')
    end.

Notation "'let*' x ':=' m 'in' k" := (bind m (fun x => k))
  (at level 10, x name, m at level 100, k at level 200).

Definition lift {A} (r : Result A) : M A := fun w => (r, w).

Definition log (c : NativeCall) : M unit :=
  fun w => (Ok tt, mkWorld (heap w) (databases w) (journal w ++ [c])).

Definition read_this (this : nat) : M DbAction :=
  fun w =>
    match heap w !! this with
    | Some a => (Ok a, w)
    | None => (Throw (TypeError "Cannot read properties of undefined"), w)
    end.

Definition write_this (this : nat) (f : DbAction -> DbAction) : M unit :=
  fun w =>
    match heap w !! this with
    | Some a => (Ok tt, mkWorld (<[this := f a]> (heap w)) (databases w) (journal w))
    | None => (Throw (TypeError "Cannot set properties of undefined"), w)
    end.

Definition alloc (a : DbAction) : M nat :=
  fun w =>
    let l := fresh (dom (heap w)) in
    (Ok l, mkWorld (<[l := a]> (heap w)) (databases w) (journal w)).

Definition database_of (h : nat) : M Engine.Database :=
  fun w =>
    match databases w !! h with
    | Some db => (Ok db, w)
    | None => (Throw (DOMException "InvalidStateError" "The database connection is closing."), w)
    end.

(** *** Native methods, as the class calls them *)

Import Engine.

(** [db.transaction(storeNames, mode, { durability })] *)
Definition db_transaction (h : nat) (storeNames : list string)
    (mode : TransactionMode) (dur : TransactionDurability) : M Transaction :=
  let tx := mkTransaction h storeNames mode dur in
  let* _ := log (CallTransaction tx) in
  let* db := database_of h in
  let* _ := lift (vet_transaction db tx) in
  ret tx.

Definition store_of (tx : Transaction) (name : string) : M ObjectStore :=
  let* db := database_of (txDatabase tx) in
  match objectStores db !! name with
  | Some st => ret st
  | None => throw (DOMException "NotFoundError" "The specified object store was not found.")
  end.

(** [transaction.objectStore(name)] *)
Definition transaction_objectStore (tx : Transaction) (name : string) : M Source :=
  if bool_decide (name ∈ txStoreNames tx)
  then let* _ := store_of tx name in ret (IDBObjectStore tx name)
  else throw (DOMException "NotFoundError" "The specified object store was not found.").

(** [objectStore.indexNames.contains(name)] *)
Definition indexNames_contains (src : Source) (name : string) : M bool :=
  let* st := store_of (source_transaction src) (source_store src) in
  ret (bool_decide (is_Some (indexes st !! name))).

(** [objectStore.index(name)] *)
Definition objectStore_index (src : Source) (name : string) : M Source :=
  let* st := store_of (source_transaction src) (source_store src) in
  match indexes st !! name with
  | Some _ => ret (IDBIndex (source_transaction src) (source_store src) name)
  | None => throw (DOMException "NotFoundError" "The specified index was not found.")
  end.

(** [store.keyPath] *)
Definition store_keyPath (src : Source) : M KeyPath :=
  let* st := store_of (source_transaction src) (source_store src) in
  ret (keyPath st).

(** A request method: the call is journalled, then accepted or refused. *)
Definition issue (src : Source) (op : Operation) : M Request :=
  let r := mkRequest src op in
  let* _ := log (CallRequest r) in
  let* db := database_of (txDatabase (source_transaction src)) in
  let* _ := lift (vet_request db r) in
  ret r.

(** [getAll] exists on stores and on indexes; the writing methods only on
    stores, so calling one on an index is a TypeError of the language. *)
Definition source_getAll (src : Source) : M Request := issue src OpGetAll.

Definition on_store (method : string) (src : Source) (op : Operation) : M Request :=
  match src with
  | IDBObjectStore _ _ => issue src op
  | IDBIndex _ _ _ => throw (TypeError ("store." +:+ method +:+ " is not a function"))
  end.

Definition store_add (src : Source) (doc : JsValue) : M Request := on_store "add" src (OpAdd doc).
Definition store_put (src : Source) (doc : JsValue) : M Request := on_store "put" src (OpPut doc).
Definition store_delete (src : Source) (q : KeyOrRange) : M Request := on_store "delete" src (OpDelete q).
Definition store_clear (src : Source) : M Request := on_store "clear" src OpClear.

Definition instanceof_IDBObjectStore (src : Source) : bool :=
  match src with IDBObjectStore _ _ => true | IDBIndex _ _ _ => false end.

Definition instanceof_IDBIndex (src : Source) : bool :=
  match src with IDBObjectStore _ _ => false | IDBIndex _ _ _ => true end.

(** *** Constructor and setters (the same in source and build) *)

(** What a caller may pass as [databaseInstance]. *)
Inductive HandleArg : Type :=
| AnIDBDatabase (h : nat)
| NotADatabase (v : JsValue).

Definition instanceof_IDBDatabase (x : HandleArg) : bool :=
  match x with AnIDBDatabase _ => true | NotADatabase _ => false end.

(** [typeof v !== "string" || v.length === 0], negated: the string when
    the test passes. *)
Definition nonempty_string (v : JsValue) : option string :=
  match v with
  | JStr s => if Nat.eqb (String.length s) 0 then None else Some s
  | _ => None
  end.

(** The constructor, src/DbAction.ts lines 114-131. *)
Definition new_DbAction (action : string) (databaseInstance : HandleArg)
    (storeName : JsValue) : M nat :=
  match databaseInstance with
  | NotADatabase _ =>
      throw (TypeError "databaseInstance must be a valid IDBDatabase instance")
  | AnIDBDatabase h =>
      match nonempty_string storeName with
      | None => throw (TypeError "storeName must be a non-empty string")
      | Some name =>
          alloc {| action := action; databaseInstance := h; storeName := name;
                   hintIndex := None; durability := relaxed;
                   updateDoc := JUndefined; deleteDoc := None |}
      end
  end.

Definition set_hintIndex (v : option string) (a : DbAction) : DbAction :=
  mkDbAction (action a) (databaseInstance a) (storeName a) v
             (durability a) (updateDoc a) (deleteDoc a).
Definition set_durability (v : TransactionDurability) (a : DbAction) : DbAction :=
  mkDbAction (action a) (databaseInstance a) (storeName a) (hintIndex a)
             v (updateDoc a) (deleteDoc a).
Definition set_updateDoc (v : JsValue) (a : DbAction) : DbAction :=
  mkDbAction (action a) (databaseInstance a) (storeName a) (hintIndex a)
             (durability a) v (deleteDoc a).
Definition set_deleteDoc (v : option KeyOrRange) (a : DbAction) : DbAction :=
  mkDbAction (action a) (databaseInstance a) (storeName a) (hintIndex a)
             (durability a) (updateDoc a) v.

(** [configureIndexHint], lines 149-155. *)
Definition configureIndexHint (this : nat) (indexName : JsValue) : M nat :=
  match nonempty_string indexName with
  | None => throw (TypeError "indexName must be a non-empty string")
  | Some name =>
      let* _ := write_this this (set_hintIndex (Some name)) in
      ret this
  end.

(** [durability !== "strict" && durability !== "relaxed"] throws. *)
Definition accepted_durability (v : JsValue) : option TransactionDurability :=
  match v with
  | JStr s =>
      if String.eqb s "strict" then Some strict
      else if String.eqb s "relaxed" then Some relaxed
      else None
  | _ => None
  end.

(** [configureDurability], lines 173-179. *)
Definition configureDurability (this : nat) (d : JsValue) : M nat :=
  match accepted_durability d with
  | None =>
      throw (TypeError ("durability must be either " +:+ quoted "strict"
                        +:+ " or " +:+ quoted "relaxed"))
  | Some v =>
      let* _ := write_this this (set_durability v) in
      ret this
  end.

(** [setDocumentData], lines 194-197. *)
Definition setDocumentData (this : nat) (doc : JsValue) : M nat :=
  let* _ := write_this this (set_updateDoc doc) in
  ret this.

(** [setDeleteKey], lines 208-211.  The key type excludes [undefined];
    [None] models an untyped caller passing it. *)
Definition setDeleteKey (this : nat) (deleteKey : option KeyOrRange) : M nat :=
  let* _ := write_this this (set_deleteDoc deleteKey) in
  ret this.

(** ** Promises and event handlers *)

Inductive PromiseState : Type :=
| Pending
| Fulfilled (v : ReqResult)
| Rejected (reason : option JsError).

(** What the handlers of one executor share: the promise they settle and
    the local variable [result] of the build's [executeRead]. *)
Record Closure : Type := mkClosure {
  promise : PromiseState;
  result : ReqResult
}.

Definition fresh_closure : Closure := mkClosure Pending RUndefined.

(** [resolve(v)] and [reject(e)]: only the first call settles. *)
Definition resolve (v : ReqResult) (c : Closure) : Closure :=
  match promise c with
  | Pending => mkClosure (Fulfilled v) (result c)
  | _ => c
  end.

Definition reject (e : option JsError) (c : Closure) : Closure :=
  match promise c with
  | Pending => mkClosure (Rejected e) (result c)
  | _ => c
  end.

(** [error || new Error(msg)] *)
Definition or_error (e : option JsError) (msg : string) : option JsError :=
  match e with
  | Some x => Some x
  | None => Some (Error msg)
  end.

(** The handlers an executor installs; [None] where it installs none. *)
Record Handlers : Type := mkHandlers {
  request_onsuccess : option (ReqResult -> Closure -> Closure);
  request_onerror : option (option JsError -> Closure -> Closure);
  transaction_oncomplete : option (Closure -> Closure);
  transaction_onerror : option (option JsError -> Closure -> Closure);
  transaction_onabort : option (option JsError -> Closure -> Closure)
}.

Definition dispatch (h : Handlers) (c : Closure) (ev : Event) : Closure :=
  match ev with
  | EvSuccess r => match request_onsuccess h with Some f => f r c | None => c end
  | EvError e => match request_onerror h with Some f => f e c | None => c end
  | EvComplete => match transaction_oncomplete h with Some f => f c | None => c end
  | EvTxError e => match transaction_onerror h with Some f => f e c | None => c end
  | EvAbort e => match transaction_onabort h with Some f => f e c | None => c end
  end.

Definition deliver (h : Handlers) (evs : list Event) (c : Closure) : Closure :=
  fold_left (dispatch h) evs c.

(** The promise after the events [evs], in this order, have been delivered. *)
Definition settle (h : Handlers) (evs : list Event) : PromiseState :=
  promise (deliver h evs fresh_closure).

(** What the synchronous part of an executor leaves behind: the request it
    issued and the handlers of the promise it returned. *)
Record Started : Type := mkStarted {
  request : Request;
  handlers : Handlers
}.

(** An [async] method call: a [throw] rejects the promise; otherwise the
    engine runs the request and delivers its events. *)
Definition async_call (body : M Started) (f : Fate) (w : World) : PromiseState * World :=
  match body w with
  | (Throw e, w') => (Rejected (Some e), w')
  | (Ok s, w') =>
      let h := txDatabase (source_transaction (reqSource (request s))) in
      match databases w' !! h with
      | None => (Pending, w')
      | Some db =>
          let (evs, db') := Engine.run db (request s) f in
          (settle (handlers s) evs,
           mkWorld (heap w') (<[h := db']> (databases w')) (journal w'))
      end
  end.

(** The hint when [this.hintIndex] is truthy. *)
Definition truthy_hint (h : option string) : option string :=
  match h with
  | Some EmptyString => None
  | Some s => Some s
  | None => None
  end.

(** The message of the dispatch error. *)
Definition unrecognized_action (a : string) : JsError :=
  Error ("Unrecognized database action: " +:+ a +:+ ". " +:+
         "Must be one of: " +:+ String.concat ", " (Object_values DB_ACTIONS)).

(** The message of the missing-key error of [executeUpdate]. *)
Definition missing_primary_key (kp : string) : JsError :=
  Error ("Update document must contain the primary key '" +:+ kp +:+ "'. " +:+
         "The key is required to identify the record to update.").

(** ** src/DbAction.ts *)

Module Src.

(** [resolveStoreOrIndex], src/DbAction.ts lines 234-256. *)
Definition resolveStoreOrIndex (this : nat) (transactionMode : TransactionMode)
    (allowIndex : bool) : M Source :=
  let* a := read_this this in
  let* transaction :=
    db_transaction (databaseInstance a) [storeName a] transactionMode (durability a) in
  let* objectStore := transaction_objectStore transaction (storeName a) in
  match (if allowIndex then truthy_hint (hintIndex a) else None) with
  | Some hint =>
      let* found := indexNames_contains objectStore hint in
      if found then objectStore_index objectStore hint else ret objectStore
  | None => ret objectStore
  end.

(** The handlers of every executor of the source: the request's own
    events settle the promise; nothing listens to the transaction. *)
Definition on_request (resolved : ReqResult -> ReqResult) (msg : string) : Handlers :=
  {| request_onsuccess := Some (fun r => resolve (resolved r));
     request_onerror := Some (fun e => reject (or_error e msg));
     transaction_oncomplete := None;
     transaction_onerror := None;
     transaction_onabort := None |}.

(** [executeRead], lines 270-285. *)
Definition executeRead (this : nat) : M Started :=
  let* source := resolveStoreOrIndex this readonly true in
  let* request := source_getAll source in
  ret (mkStarted request
         (on_request (fun r => r) "Read operation failed with unknown error")).

(** [executeWrite], lines 302-325: the transaction is opened before the
    payload is looked at. *)
Definition executeWrite (this : nat) : M Started :=
  let* store := resolveStoreOrIndex this readwrite false in
  let* a := read_this this in
  if is_undefined (updateDoc a)
  then throw (Error "Document data is required for write operations")
  else
    let* request := store_add store (updateDoc a) in
    ret (mkStarted request
           (on_request (fun _ => RUndefined) "Write operation failed with unknown error")).

(** [executeUpdate], lines 351-395. *)
Definition executeUpdate (this : nat) : M Started :=
  let* a := read_this this in
  if is_undefined (updateDoc a)
  then throw (Error "Document data is required for update operations")
  else
    let* store := resolveStoreOrIndex this readwrite false in
    let* keyPath := store_keyPath store in
    match keyPath with
    | KPNull =>
        throw (Error "Update operations require a keyPath. Object store must have an inline key.")
    | KPArray _ =>
        throw (Error "Update operations require a string keyPath. Array-based keyPaths are not supported.")
    | KPString keyPath =>
        let* present := lift (js_in keyPath (updateDoc a)) in
        if negb present || is_undefined_at (updateDoc a) keyPath
        then throw (missing_primary_key keyPath)
        else
          let* request := store_put store (updateDoc a) in
          ret (mkStarted request
                 (on_request (fun _ => RUndefined) "Update operation failed with unknown error"))
    end.

(** [executeDelete], lines 413-438. *)
Definition executeDelete (this : nat) : M Started :=
  let* a := read_this this in
  match deleteDoc a with
  | None => throw (Error "Delete key or key range is required for delete operations")
  | Some key =>
      let* store := resolveStoreOrIndex this readwrite false in
      let* request := store_delete store key in
      ret (mkStarted request
             (on_request (fun _ => RUndefined) "Delete operation failed with unknown error"))
  end.

(** [executeClear], lines 458-477. *)
Definition executeClear (this : nat) : M Started :=
  let* store := resolveStoreOrIndex this readwrite false in
  let* request := store_clear store in
  ret (mkStarted request
         (on_request (fun _ => RUndefined) "Clear operation failed with unknown error")).

(** The body of [execute], lines 551-569: the switch on [this.action]. *)
Definition execute_body (this : nat) : M Started :=
  let* a := read_this this in
  if String.eqb (action a) READ then executeRead this
  else if String.eqb (action a) WRITE then executeWrite this
  else if String.eqb (action a) UPDATE then executeUpdate this
  else if String.eqb (action a) DELETE then executeDelete this
  else if String.eqb (action a) CLEAR then executeClear this
  else throw (unrecognized_action (action a)).

(** [execute], an [async] method. *)
Definition execute (this : nat) (f : Fate) (w : World) : PromiseState * World :=
  async_call (execute_body this) f w.

End Src.

(** ** dist/DbAction.js *)

Module Dist.

(** [resolveStoreOrIndex], dist/DbAction.js lines 197-208: the source and
    the transaction it belongs to. *)
Definition resolveStoreOrIndex (this : nat) (transactionMode : TransactionMode)
    (allowIndex : bool) : M (Source * Transaction) :=
  let* a := read_this this in
  let* transaction :=
    db_transaction (databaseInstance a) [storeName a] transactionMode (durability a) in
  let* objectStore := transaction_objectStore transaction (storeName a) in
  match (if allowIndex then truthy_hint (hintIndex a) else None) with
  | Some hint =>
      let* found := indexNames_contains objectStore hint in
      if found
      then let* index := objectStore_index objectStore hint in ret (index, transaction)
      else ret (objectStore, transaction)
  | None => ret (objectStore, transaction)
  end.

(** The handlers of [executeRead], lines 224-242. *)
Definition read_handlers : Handlers :=
  {| request_onsuccess := Some (fun r c => mkClosure (promise c) r);
     request_onerror :=
       Some (fun e => reject (or_error e "Read operation failed with unknown error"));
     transaction_oncomplete :=
       Some (fun c =>
               match result c with
               | RUndefined =>
                   reject (Some (Error "Read operation completed without result")) c
               | r => resolve r c
               end);
     transaction_onerror := Some (fun e => reject e);
     transaction_onabort := Some (fun e => reject e) |}.

(** The handlers of the four writing executors of the build: only the
    transaction's completion resolves. *)
Definition on_transaction (msg : string) : Handlers :=
  {| request_onsuccess := None;
     request_onerror := Some (fun e => reject (or_error e msg));
     transaction_oncomplete := Some (resolve RUndefined);
     transaction_onerror := Some (fun e => reject e);
     transaction_onabort := Some (fun e => reject e) |}.

(** [executeRead], lines 221-243. *)
Definition executeRead (this : nat) : M Started :=
  let* st := resolveStoreOrIndex this readonly true in
  let store := fst st in
  let* request := source_getAll store in
  ret (mkStarted request read_handlers).

(** [executeWrite], lines 259-274. *)
Definition executeWrite (this : nat) : M Started :=
  let* a := read_this this in
  if is_undefined (updateDoc a)
  then throw (Error "Document data is required for write operations")
  else
    let* st := resolveStoreOrIndex this readwrite false in
    let store := fst st in
    if negb (instanceof_IDBObjectStore store)
    then throw (Error "Write operations require an IDBObjectStore, not an IDBIndex")
    else
      let* request := store_add store (updateDoc a) in
      ret (mkStarted request (on_transaction "Write operation failed")).

(** [executeUpdate], lines 299-329. *)
Definition executeUpdate (this : nat) : M Started :=
  let* a := read_this this in
  if is_undefined (updateDoc a)
  then throw (Error "Document data is required for update operations")
  else
    let* st := resolveStoreOrIndex this readwrite false in
    let store := fst st in
    if instanceof_IDBIndex store
    then throw (Error "Update operations require an IDBObjectStore, not an IDBIndex")
    else
      let* keyPath := store_keyPath store in
      match keyPath with
      | KPNull =>
          throw (Error "Update operations require a keyPath. Object store must have an inline key.")
      | KPArray _ =>
          throw (Error "Update operations require a string keyPath. Array-based keyPaths are not supported.")
      | KPString keyPath =>
          let* present := lift (js_in keyPath (updateDoc a)) in
          if negb present || is_undefined_at (updateDoc a) keyPath
          then throw (missing_primary_key keyPath)
          else
            let* request := store_put store (updateDoc a) in
            ret (mkStarted request
                   (on_transaction "Update operation failed with unknown error"))
      end.

(** [executeDelete], lines 346-361. *)
Definition executeDelete (this : nat) : M Started :=
  let* a := read_this this in
  match deleteDoc a with
  | None => throw (Error "Delete key or key range is required for delete operations")
  | Some key =>
      let* st := resolveStoreOrIndex this readwrite false in
      let store := fst st in
      if negb (instanceof_IDBObjectStore store)
      then throw (Error "Delete operations require an IDBObjectStore, not an IDBIndex")
      else
        let* request := store_delete store key in
        ret (mkStarted request (on_transaction "Delete operation failed"))
  end.

(** [executeClear], lines 380-395. *)
Definition executeClear (this : nat) : M Started :=
  let* st := resolveStoreOrIndex this readwrite false in
  let store := fst st in
  if negb (instanceof_IDBObjectStore store)
  then throw (Error "Clear operations require an IDBObjectStore, not an IDBIndex")
  else
    let* request := store_clear store in
    ret (mkStarted request (on_transaction "Clear operation failed with unknown error")).

(** The body of [execute], lines 468-484. *)
Definition execute_body (this : nat) : M Started :=
  let* a := read_this this in
  if String.eqb (action a) READ then executeRead this
  else if String.eqb (action a) WRITE then executeWrite this
  else if String.eqb (action a) UPDATE then executeUpdate this
  else if String.eqb (action a) DELETE then executeDelete this
  else if String.eqb (action a) CLEAR then executeClear this
  else throw (unrecognized_action (action a)).

(** [execute], an [async] method. *)
Definition execute (this : nat) (f : Fate) (w : World) : PromiseState * World :=
  async_call (execute_body this) f w.

End Dist.

(** ** Vocabulary of the statements *)

(** The transaction an instance opens. *)
Definition opened (a : DbAction) (mode : TransactionMode) : Transaction :=
  mkTransaction (databaseInstance a) [storeName a] mode (durability a).

Definition after_open (a : DbAction) (mode : TransactionMode) (w : World) : World :=
  mkWorld (heap w) (databases w) (journal w ++ [CallTransaction (opened a mode)]).

(** The index the resolver hands out, if any. *)
Definition usable_hint (a : DbAction) (allowIndex : bool) (st : ObjectStore)
  : option string :=
  match (if allowIndex then truthy_hint (hintIndex a) else None) with
  | Some hint => if bool_decide (is_Some (indexes st !! hint)) then Some hint else None
  | None => None
  end.

Definition chosen_source (a : DbAction) (mode : TransactionMode) (allowIndex : bool)
    (st : ObjectStore) : Source :=
  match usable_hint a allowIndex st with
  | Some hint => IDBIndex (opened a mode) (storeName a) hint
  | None => IDBObjectStore (opened a mode) (storeName a)
  end.

Definition resolved (a : DbAction) (mode : TransactionMode) (allowIndex : bool)
    (w : World) : Result Source :=
  match databases w !! databaseInstance a with
  | None => Throw (DOMException "InvalidStateError" "The database connection is closing.")
  | Some db =>
      match vet_transaction db (opened a mode) with
      | Throw e => Throw e
      | Ok _ =>
          match objectStores db !! storeName a with
          | None => Throw (DOMException "NotFoundError" "The specified object store was not found.")
          | Some st => Ok (chosen_source a mode allowIndex st)
          end
      end
  end.

(** The requests among the native calls of a journal. *)
Definition requests (j : list NativeCall) : list Request :=
  omap (fun c => match c with CallRequest r => Some r | CallTransaction _ => None end) j.

(** The transactions opened in a journal. *)
Definition transactions (j : list NativeCall) : list Transaction :=
  omap (fun c => match c with CallTransaction t => Some t | CallRequest _ => None end) j.

(** [s] contains [x]. *)
Definition mentions (x s : string) : Prop :=
  exists pre post, s = pre +:+ x +:+ post.

(** The instance [this] replaced by [a']. *)
Definition updated (this : nat) (a' : DbAction) (w : World) : World :=
  mkWorld (<[this := a']> (heap w)) (databases w) (journal w).

(** A computation that leaves instances and databases alone. *)
Definition stable {A} (m : M A) : Prop :=
  forall w, heap (snd (m w)) = heap w /\ databases (snd (m w)) = databases w.

(** A computation that moreover issues no request. *)
Definition silent {A} (m : M A) : Prop :=
  forall w, heap (snd (m w)) = heap w /\ databases (snd (m w)) = databases w /\
            requests (journal (snd (m w))) = requests (journal w).

(** A handle is live when it is a database connection that is not closed. *)
Definition live (w : World) (d : HandleArg) : Prop :=
  exists h db, d = AnIDBDatabase h /\ databases w !! h = Some db /\ closed db = false.

Definition nonempty_name (v : JsValue) : Prop :=
  exists s, v = JStr s /\ s <> EmptyString.

(** ** A test database *)

(** The store of the test suite: [users] with key path [id], empty. *)
Module Sample.

Definition users : ObjectStore := mkStore (KPString "id") ∅ [].
Definition db : Database := mkDatabase false {[ "users" := users ]}.
Definition alice : JsValue := JObj [("id", JStr "1"); ("name", JStr "Alice")].
Definition quota : JsError :=
  DOMException "QuotaExceededError" "The quota has been exceeded.".

(** One instance at reference 0 on handle 0. *)
Definition instance (act : string) (doc : JsValue) : DbAction :=
  {| action := act; databaseInstance := 0; storeName := "users";
     hintIndex := None; durability := relaxed;
     updateDoc := doc; deleteDoc := None |}.

Definition world (act : string) (doc : JsValue) : World :=
  mkWorld {[ 0 := instance act doc ]} {[ 0 := db ]} [].

(** The same store with an index [by_name] on the field [name], and an
    instance that hints at it. *)
Definition db_indexed : Database :=
  mkDatabase false
    {[ "users" := mkStore (KPString "id") {[ "by_name" := "name" ]} [] ]}.

Definition hinting (act : string) (doc : JsValue) : World :=
  mkWorld {[ 0 := set_hintIndex (Some "by_name") (instance act doc) ]}
          {[ 0 := db_indexed ]} [].

(** [new DbAction(act, db, "users")], configured, then executed with a
    commit that goes through. *)
Definition one_shot (execute : nat -> Fate -> World -> PromiseState * World)
    (act : string) (configure : nat -> M nat) (w : World) : PromiseState * World :=
  match new_DbAction act (AnIDBDatabase 0) (JStr "users") w with
  | (Throw e, w1) => (Rejected (Some e), w1)
  | (Ok this, w1) =>
      match configure this w1 with
      | (Throw e, w2) => (Rejected (Some e), w2)
      | (Ok _, w2) => execute this CommitOk w2
      end
  end.

Definition alice_updated : JsValue :=
  JObj [("id", JStr "1"); ("name", JStr "Alice Updated")].
Definition bob : JsValue := JObj [("id", JStr "2"); ("name", JStr "Bob")].
Definition charlie : JsValue := JObj [("id", JStr "3"); ("name", JStr "Charlie")].

(** The scenario of section 8 of the specification (and of the test
    suite): the promises of the ten [execute] calls, in order. *)
Definition scenario (execute : nat -> Fate -> World -> PromiseState * World)
  : list PromiseState :=
  let w0 := mkWorld ∅ {[ 0 := db ]} [] in
  let r1 := one_shot execute WRITE (fun l => setDocumentData l alice) w0 in
  let r2 := one_shot execute READ ret (snd r1) in
  let r3 := one_shot execute UPDATE (fun l => setDocumentData l alice_updated) (snd r2) in
  let r4 := one_shot execute READ ret (snd r3) in
  let r5 := one_shot execute DELETE
              (fun l => setDeleteKey l (Some (AKey (KStr "1")))) (snd r4) in
  let r6 := one_shot execute READ ret (snd r5) in
  let r7 := one_shot execute WRITE (fun l => setDocumentData l bob) (snd r6) in
  let r8 := one_shot execute WRITE (fun l => setDocumentData l charlie) (snd r7) in
  let r9 := one_shot execute CLEAR ret (snd r8) in
  let r10 := one_shot execute READ ret (snd r9) in
  map fst [r1; r2; r3; r4; r5; r6; r7; r8; r9; r10].

End Sample.

(** The world after the native calls [cs]. *)
Definition after_calls (cs : list NativeCall) (w : World) : World :=
  mkWorld (heap w) (databases w) (journal w ++ cs).

(** Opening the transaction, resolving the source and calling the request
    method for [op]: what comes back and the native calls made. *)
Definition attempt (a : DbAction) (mode : TransactionMode) (allowIndex : bool)
    (op : Operation) (w : World) : Result Request * list NativeCall :=
  match resolved a mode allowIndex w with
  | Throw e => (Throw e, [CallTransaction (opened a mode)])
  | Ok src =>
      let r := mkRequest src op in
      (match databases w !! databaseInstance a with
       | Some db =>
           match vet_request db r with
           | Ok _ => Ok r
           | Throw e => Throw e
           end
       | None => Throw (DOMException "InvalidStateError" "The database connection is closing.")
       end,
       [CallTransaction (opened a mode); CallRequest r])
  end.

(** The executor's outcome once the request method has returned. *)
Definition finish (h : Handlers) (x : Result Request * list NativeCall) (w : World)
  : Result Started * World :=
  (match fst x with
   | Ok r => Ok (mkStarted r h)
   | Throw e => Throw e
   end, after_calls (snd x) w).

(** The payload has the field [kp], and it is set.  As in JavaScript, an
    object has the properties of its own and those it inherits; of its own
    it can hold one as [undefined]. *)
Definition has_key_field (kp : string) (doc : JsValue) : bool :=
  match doc with
  | JObj props =>
      if has_prop props kp then negb (is_undefined (get_prop props kp))
      else inherited kp
  | _ => false
  end.

(** The four reasons for which UPDATE refuses to go to the engine. *)
Definition update_refused (a : DbAction) (st : ObjectStore) : Prop :=
  updateDoc a = JUndefined \/
  keyPath st = KPNull \/
  (exists ps, keyPath st = KPArray ps) \/
  (exists p, keyPath st = KPString p /\ has_key_field p (updateDoc a) = false).

(** An instance whose action lacks what it needs. *)
Definition missing_precondition (a : DbAction) (w : World) : Prop :=
  (action a = WRITE /\ updateDoc a = JUndefined) \/
  (action a = UPDATE /\ updateDoc a = JUndefined) \/
  (action a = DELETE /\ deleteDoc a = None) \/
  (action a = UPDATE /\
   exists db st,
     databases w !! databaseInstance a = Some db /\
     objectStores db !! storeName a = Some st /\
     (keyPath st = KPNull \/
      (exists ps, keyPath st = KPArray ps) \/
      (exists p, keyPath st = KPString p /\ has_key_field p (updateDoc a) = false))).

(** The store an instance targets, if its database has it. *)
Definition target_store (a : DbAction) (w : World) : option ObjectStore :=
  match databases w !! databaseInstance a with
  | Some db => objectStores db !! storeName a
  | None => None
  end.

(** [executeUpdate] as one expression; the source and the build differ in
    the handlers [h] only. *)
Definition update_outcome (h : Handlers) (a : DbAction) (w : World)
  : Result Started * World :=
  if is_undefined (updateDoc a)
  then (Throw (Error "Document data is required for update operations"), w)
  else
    match resolved a readwrite false w with
    | Throw e => (Throw e, after_open a readwrite w)
    | Ok _ =>
        match target_store a w with
        | None =>
            (Throw (DOMException "NotFoundError" "The specified object store was not found."),
             after_open a readwrite w)
        | Some st =>
            match keyPath st with
            | KPNull =>
                (Throw (Error "Update operations require a keyPath. Object store must have an inline key."),
                 after_open a readwrite w)
            | KPArray _ =>
                (Throw (Error "Update operations require a string keyPath. Array-based keyPaths are not supported."),
                 after_open a readwrite w)
            | KPString p =>
                match js_in p (updateDoc a) with
                | Throw e => (Throw e, after_open a readwrite w)
                | Ok present =>
                    if negb present || is_undefined_at (updateDoc a) p
                    then (Throw (missing_primary_key p), after_open a readwrite w)
                    else finish h (attempt a readwrite false (OpPut (updateDoc a)) w) w
                end
            end
        end
    end.


(** The index hint [i] of a READ names an index of the store. *)
Definition reads_index (a : DbAction) (st : ObjectStore) (i : string) : Prop :=
  action a = READ /\ hintIndex a = Some i /\ is_Some (indexes st !! i).

(** ** The same call under another durability *)

Definition transaction_with (d : TransactionDurability) (tx : Transaction) : Transaction :=
  mkTransaction (txDatabase tx) (txStoreNames tx) (txMode tx) d.

Definition source_with (d : TransactionDurability) (src : Source) : Source :=
  match src with
  | IDBObjectStore tx n => IDBObjectStore (transaction_with d tx) n
  | IDBIndex tx s n => IDBIndex (transaction_with d tx) s n
  end.

Definition request_with (d : TransactionDurability) (r : Request) : Request :=
  mkRequest (source_with d (reqSource r)) (reqOp r).

Definition call_with (d : TransactionDurability) (c : NativeCall) : NativeCall :=
  match c with
  | CallTransaction tx => CallTransaction (transaction_with d tx)
  | CallRequest r => CallRequest (request_with d r)
  end.

Definition started_with (d : TransactionDurability) (s : Started) : Started :=
  mkStarted (request_with d (request s)) (handlers s).

Definition map_result {A B} (g : A -> B) (r : Result A) : Result B :=
  match r with
  | Ok a => Ok (g a)
  | Throw e => Throw e
  end.

(** Two outcomes of a synchronous part, from [w] and from [w'], that
    differ in the durability of the calls made and in nothing else. *)
Definition same_but_durability (d : TransactionDurability) (w w' : World)
    (o o' : Result Started * World) : Prop :=
  fst o' = map_result (started_with d) (fst o) /\
  exists added,
    snd o = after_calls added w /\
    snd o' = after_calls (map (call_with d) added) w'.

(** Two instances on the test store: a WRITE of [doc] at reference 0 and a
    READ at reference 1. *)
Definition writer_and_reader (doc : JsValue) : World :=
  mkWorld (<[1 := Sample.instance READ JUndefined]> {[ 0 := Sample.instance WRITE doc ]})
          {[ 0 := Sample.db ]} [].

(** ** Vocabulary of the further properties *)

(** The first event of the request itself among [evs]. *)
Fixpoint first_request_event (evs : list Event) : option Event :=
  match evs with
  | [] => None
  | EvSuccess r :: _ => Some (EvSuccess r)
  | EvError e :: _ => Some (EvError e)
  | _ :: rest => first_request_event rest
  end.

(** The first event other than the request's success. *)
Fixpoint first_deciding_event (evs : list Event) : option Event :=
  match evs with
  | [] => None
  | EvSuccess _ :: rest => first_deciding_event rest
  | ev :: _ => Some ev
  end.

(** The message each executor of the source puts in place of a missing
    [request.error]. *)
Definition src_fallback (act : string) : string :=
  if String.eqb act READ then "Read operation failed with unknown error"
  else if String.eqb act WRITE then "Write operation failed with unknown error"
  else if String.eqb act UPDATE then "Update operation failed with unknown error"
  else if String.eqb act DELETE then "Delete operation failed with unknown error"
  else "Clear operation failed with unknown error".

(** The same for the build. *)
Definition dist_fallback (act : string) : string :=
  if String.eqb act READ then "Read operation failed with unknown error"
  else if String.eqb act WRITE then "Write operation failed"
  else if String.eqb act UPDATE then "Update operation failed with unknown error"
  else if String.eqb act DELETE then "Delete operation failed"
  else "Clear operation failed with unknown error".

(** What the build's READ promise becomes: [last] is the result of the
    latest success seen so far. *)
Fixpoint read_outcome (last : ReqResult) (evs : list Event) : PromiseState :=
  match evs with
  | [] => Pending
  | EvSuccess r :: rest => read_outcome r rest
  | EvError e :: _ => Rejected (or_error e "Read operation failed with unknown error")
  | EvComplete :: _ =>
      match last with
      | RUndefined => Rejected (Some (Error "Read operation completed without result"))
      | r => Fulfilled r
      end
  | EvTxError e :: _ | EvAbort e :: _ => Rejected e
  end.

(** A call of one of the four setters, with its argument. *)
Inductive SetterCall : Type :=
| IndexHint (indexName : JsValue)
| Durability (durability : JsValue)
| DocumentData (updateDoc : JsValue)
| DeleteKey (deleteKey : option KeyOrRange).

Definition call_setter (c : SetterCall) (this : nat) : M nat :=
  match c with
  | IndexHint v => configureIndexHint this v
  | Durability v => configureDurability this v
  | DocumentData doc => setDocumentData this doc
  | DeleteKey key => setDeleteKey this key
  end.

(** [this.c1(..).c2(..)...]: each setter is called on what the one before
    returned; a setter that throws ends the chain. *)
Fixpoint chain (cs : list SetterCall) (this : nat) : M nat :=
  match cs with
  | [] => ret this
  | c :: rest => let* next := call_setter c this in chain rest next
  end.

(** The setter does not throw on its argument. *)
Definition accepted (c : SetterCall) : Prop :=
  match c with
  | IndexHint v => nonempty_name v
  | Durability v => v = JStr "strict" \/ v = JStr "relaxed"
  | DocumentData _ | DeleteKey _ => True
  end.

Definition same_setter (c1 c2 : SetterCall) : bool :=
  match c1, c2 with
  | IndexHint _, IndexHint _ | Durability _, Durability _
  | DocumentData _, DocumentData _ | DeleteKey _, DeleteKey _ => true
  | _, _ => false
  end.

(** What holds of every instance the constructor and the setters can
    produce from the arguments [act], [h] and [name]. *)
Definition well_formed (act : string) (h : nat) (name : string) (a : DbAction) : Prop :=
  action a = act /\ databaseInstance a = h /\ storeName a = name /\
  name <> EmptyString /\
  hintIndex a <> Some EmptyString /\
  durability a <> default_durability.

(** What a setter does to the instance it accepts its argument for. *)
Definition setter_effect (c : SetterCall) (a : DbAction) : option DbAction :=
  match c with
  | IndexHint v => option_map (fun n => set_hintIndex (Some n) a) (nonempty_string v)
  | Durability v => option_map (fun d => set_durability d a) (accepted_durability v)
  | DocumentData doc => Some (set_updateDoc doc a)
  | DeleteKey key => Some (set_deleteDoc key a)
  end.

(** The one request an instance can make, by its action. *)
Definition operation_of (a : DbAction) : option Operation :=
  if String.eqb (action a) READ then Some OpGetAll
  else if String.eqb (action a) WRITE then Some (OpAdd (updateDoc a))
  else if String.eqb (action a) UPDATE then Some (OpPut (updateDoc a))
  else if String.eqb (action a) DELETE then option_map OpDelete (deleteDoc a)
  else if String.eqb (action a) CLEAR then Some OpClear
  else None.

(** The transaction an instance opens for its action. *)
Definition transaction_of (a : DbAction) : Transaction :=
  opened a (if String.eqb (action a) READ then readonly else readwrite).

(** From [w] to [w1] nothing was called, or one transaction was opened,
    or one transaction was opened and the action's request made in it. *)
Definition at_most_one_request (a : DbAction) (w w1 : World) : Prop :=
  journal w1 = journal w \/
  journal w1 = journal w ++ [CallTransaction (transaction_of a)] \/
  exists src op,
    source_transaction src = transaction_of a /\
    source_store src = storeName a /\
    operation_of a = Some op /\
    journal w1 =
      journal w ++ [CallTransaction (transaction_of a); CallRequest (mkRequest src op)].

(** The errors of the build's four guards against an index where an
    object store is needed. *)
Definition index_guard_errors : list JsError :=
  [ Error "Write operations require an IDBObjectStore, not an IDBIndex";
    Error "Update operations require an IDBObjectStore, not an IDBIndex";
    Error "Delete operations require an IDBObjectStore, not an IDBIndex";
    Error "Clear operations require an IDBObjectStore, not an IDBIndex" ].

(** A WRITE instance without payload on a connection that was closed. *)
Definition closed_world : World :=
  mkWorld {[ 0 := Sample.instance WRITE JUndefined ]}
          {[ 0 := mkDatabase true {[ "users" := Sample.users ]} ]} [].

(** The test store with the index [by_name] and two records whose names
    come in the reverse order of their ids. *)
Definition zoe : JsValue := JObj [("id", JStr "1"); ("name", JStr "Zoe")].

Definition populated : ObjectStore :=
  mkStore (KPString "id") {[ "by_name" := "name" ]}
          [(KStr "1", zoe); (KStr "2", Sample.bob)].

(** One instance at reference 0 on that store. *)
Definition populated_world (a : DbAction) : World :=
  mkWorld {[ 0 := a ]} {[ 0 := mkDatabase false {[ "users" := populated ]} ]} [].


Definition duplicate_writer : World :=
  populated_world (Sample.instance WRITE Sample.bob).

(** Two outcomes, one from [w] and one from [w'], with the same result,
    the same databases and the same native calls added. *)
Definition alike {A : Type} (w w' : World) (o o' : A * World) : Prop :=
  fst o = fst o' /\
  databases (snd o) = databases (snd o') /\
  exists added,
    journal (snd o) = journal w ++ added /\
    journal (snd o') = journal w' ++ added.

(** The store [st] holding the records [rs] instead of its own. *)
Definition with_records (st : ObjectStore) (rs : list (Key * JsValue)) : ObjectStore :=
  mkStore (keyPath st) (indexes st) rs.

(** The databases of [w] once the store of the instance [a], in its open
    database [db], has become [st']. *)
Definition store_replaced (a : DbAction) (db : Database) (st' : ObjectStore)
    (w : World) : gmap nat Database :=
  <[databaseInstance a := mkDatabase false (<[storeName a := st']> (objectStores db))]>
    (databases w).

(** Two instances on the populated store: a modifier at reference 0 and a
    READ at reference 1. *)
Definition modifier_and_reader (a : DbAction) : World :=
  mkWorld (<[1 := Sample.instance READ JUndefined]> {[ 0 := a ]})
          {[ 0 := mkDatabase false {[ "users" := populated ]} ]} [].

(** A payload holding [null] where the test store has its key. *)
Definition null_key : JsValue := JObj [("id", JNull); ("name", JStr "Nobody")].

(** A record without a name, and two instances on the indexed test store:
    a WRITE of [doc] at reference 0 and a READ hinted at [by_name] at
    reference 1. *)
Definition nameless : JsValue := JObj [("id", JStr "1")].

Definition writer_and_hinted_reader (doc : JsValue) : World :=
  mkWorld (<[1 := set_hintIndex (Some "by_name") (Sample.instance READ JUndefined)]>
             {[ 0 := Sample.instance WRITE doc ]})
          {[ 0 := Sample.db_indexed ]} [].

(** Records in strict key order, as a store keeps them; and the order of
    an index, where several records can have the same key. *)
Definition key_before (x y : Key * JsValue) : Prop :=
  key_compare (fst x) (fst y) = Lt.

Definition in_key_order (rs : list (Key * JsValue)) : Prop :=
  StronglySorted key_before rs.


(** * Properties *)

(** ** The monad *)

Lemma bind_ok {A B} (m : M A) (k : A -> M B) w a w1 :
  m w = (Ok a, w1) -> bind m k w = k a w1.
Proof. intros H. unfold bind. rewrite H. reflexivity. Qed.

Lemma read_this_ok this a w :
  heap w !! this = Some a -> read_this this w = (Ok a, w).
Proof. intros H. unfold read_this. rewrite H. reflexivity. Qed.

Ltac run_natives :=
  cbv beta iota zeta delta
    [db_transaction transaction_objectStore indexNames_contains
     objectStore_index store_keyPath store_of database_of source_getAll
     store_add store_put store_delete store_clear on_store issue
     bind log lift ret throw];
  cbn [heap databases journal fst snd source_transaction source_store
       txDatabase txStoreNames txMode txDurability reqSource reqOp].

(** ** resolveStoreOrIndex in closed form *)

Lemma src_resolve_eq this a mode allowIndex w :
  heap w !! this = Some a ->
  Src.resolveStoreOrIndex this mode allowIndex w =
  (resolved a mode allowIndex w, after_open a mode w).
Proof.
  intros Hthis. unfold Src.resolveStoreOrIndex.
  rewrite (bind_ok _ _ _ _ _ (read_this_ok _ _ _ Hthis)).
  unfold resolved, chosen_source, usable_hint, opened, after_open.
  run_natives.
  destruct (databases w !! databaseInstance a) as [db|] eqn:Hdb; [|reflexivity].
  destruct (vet_transaction db _) as [[]|e]; [|reflexivity].
  rewrite bool_decide_true by (apply list_elem_of_singleton; reflexivity).
  run_natives. rewrite Hdb.
  destruct (objectStores db !! storeName a) as [st|] eqn:Hst; [|reflexivity].
  destruct (if allowIndex then truthy_hint (hintIndex a) else None) as [hint|];
    [|reflexivity].
  run_natives. rewrite Hdb, Hst.
  destruct (indexes st !! hint) as [p|] eqn:Hix.
  - rewrite bool_decide_true by eauto. run_natives.
    rewrite Hdb, Hst, Hix. reflexivity.
  - rewrite bool_decide_false by (intros [? ?]; discriminate). reflexivity.
Qed.

Lemma dist_resolve_eq this a mode allowIndex w :
  heap w !! this = Some a ->
  Dist.resolveStoreOrIndex this mode allowIndex w =
  (match resolved a mode allowIndex w with
   | Ok src => Ok (src, opened a mode)
   | Throw e => Throw e
   end, after_open a mode w).
Proof.
  intros Hthis. unfold Dist.resolveStoreOrIndex.
  rewrite (bind_ok _ _ _ _ _ (read_this_ok _ _ _ Hthis)).
  unfold resolved, chosen_source, usable_hint, opened, after_open.
  run_natives.
  destruct (databases w !! databaseInstance a) as [db|] eqn:Hdb; [|reflexivity].
  destruct (vet_transaction db _) as [[]|e]; [|reflexivity].
  rewrite bool_decide_true by (apply list_elem_of_singleton; reflexivity).
  run_natives. rewrite Hdb.
  destruct (objectStores db !! storeName a) as [st|] eqn:Hst; [|reflexivity].
  destruct (if allowIndex then truthy_hint (hintIndex a) else None) as [hint|];
    [|reflexivity].
  run_natives. rewrite Hdb, Hst.
  destruct (indexes st !! hint) as [p|] eqn:Hix.
  - rewrite bool_decide_true by eauto. run_natives.
    rewrite Hdb, Hst, Hix. reflexivity.
  - rewrite bool_decide_false by (intros [? ?]; discriminate). reflexivity.
Qed.

(** ** What the synchronous code leaves alone *)

Section Stability.

Context {A B : Type}.

Lemma silent_stable (m : M A) : silent m -> stable m.
Proof. intros H w. destruct (H w) as (? & ? & ?). split; assumption. Qed.

Lemma silent_ret (a : A) : silent (ret a).
Proof. intros w. repeat split. Qed.

Lemma silent_throw e : silent (@throw A e).
Proof. intros w. repeat split. Qed.

Lemma silent_lift (r : Result A) : silent (lift r).
Proof. intros w. repeat split. Qed.

Lemma silent_bind (m : M A) (k : A -> M B) :
  silent m -> (forall a, silent (k a)) -> silent (bind m k).
Proof.
  intros Hm Hk w. unfold bind. specialize (Hm w).
  destruct (m w) as [[a|e] w1]; cbn [snd] in *; [|exact Hm].
  destruct Hm as (Hh & Hd & Hr). destruct (Hk a w1) as (Hh' & Hd' & Hr').
  rewrite Hh', Hd', Hr'. repeat split; assumption.
Qed.

Lemma stable_bind (m : M A) (k : A -> M B) :
  stable m -> (forall a, stable (k a)) -> stable (bind m k).
Proof.
  intros Hm Hk w. unfold bind. specialize (Hm w).
  destruct (m w) as [[a|e] w1]; cbn [snd] in *; [|exact Hm].
  destruct Hm as (Hh & Hd). destruct (Hk a w1) as (Hh' & Hd').
  rewrite Hh', Hd'. split; assumption.
Qed.

End Stability.

Lemma silent_read_this this : silent (read_this this).
Proof. intros w. unfold read_this. destruct (heap w !! this); repeat split. Qed.

Lemma silent_database_of h : silent (database_of h).
Proof. intros w. unfold database_of. destruct (databases w !! h); repeat split. Qed.

Lemma requests_app j1 j2 : requests (j1 ++ j2) = requests j1 ++ requests j2.
Proof. unfold requests. apply omap_app. Qed.

Lemma silent_log_transaction tx : silent (log (CallTransaction tx)).
Proof.
  intros w. unfold log. cbn [snd heap databases journal].
  rewrite requests_app. cbn. rewrite app_nil_r. repeat split.
Qed.

Lemma stable_log c : stable (log c).
Proof. intros w. split; reflexivity. Qed.

Create HintDb quiet.

#[local] Hint Resolve silent_ret silent_throw silent_lift silent_read_this
  silent_database_of silent_log_transaction : quiet.

Ltac quiet_bind :=
  repeat first
    [ apply silent_bind; [|intros ?]
    | match goal with
      | |- silent (if ?b then _ else _) => destruct b
      | |- silent (match ?x with _ => _ end) => destruct x
      end
    | solve [auto with quiet] ].

Lemma silent_store_of tx name : silent (store_of tx name).
Proof. unfold store_of. quiet_bind. Qed.

#[local] Hint Resolve silent_store_of : quiet.

Lemma silent_db_transaction h names mode dur :
  silent (db_transaction h names mode dur).
Proof. unfold db_transaction. quiet_bind. Qed.

Lemma silent_transaction_objectStore tx name :
  silent (transaction_objectStore tx name).
Proof. unfold transaction_objectStore. quiet_bind. Qed.

Lemma silent_indexNames_contains src name : silent (indexNames_contains src name).
Proof. unfold indexNames_contains. quiet_bind. Qed.

Lemma silent_objectStore_index src name : silent (objectStore_index src name).
Proof. unfold objectStore_index. quiet_bind. Qed.

Lemma silent_store_keyPath src : silent (store_keyPath src).
Proof. unfold store_keyPath. quiet_bind. Qed.

#[local] Hint Resolve silent_db_transaction silent_transaction_objectStore
  silent_indexNames_contains silent_objectStore_index silent_store_keyPath : quiet.

Lemma silent_src_resolve this mode allowIndex :
  silent (Src.resolveStoreOrIndex this mode allowIndex).
Proof. unfold Src.resolveStoreOrIndex. quiet_bind. Qed.

Lemma silent_dist_resolve this mode allowIndex :
  silent (Dist.resolveStoreOrIndex this mode allowIndex).
Proof. unfold Dist.resolveStoreOrIndex. quiet_bind. Qed.

#[local] Hint Resolve silent_src_resolve silent_dist_resolve : quiet.

(** A request method changes the journal only. *)
Lemma stable_issue src op : stable (issue src op).
Proof.
  unfold issue.
  repeat first [ apply stable_bind; [|intros ?]
               | apply stable_log
               | apply silent_stable; solve [auto with quiet] ].
Qed.

Lemma stable_on_store method src op : stable (on_store method src op).
Proof.
  unfold on_store. destruct src; [apply stable_issue|].
  apply silent_stable. auto with quiet.
Qed.

Ltac stable_bind :=
  repeat first
    [ apply stable_issue
    | apply stable_on_store
    | apply stable_log
    | apply silent_stable; solve [auto with quiet]
    | apply stable_bind; [|intros ?]
    | match goal with
      | |- stable (if ?b then _ else _) => destruct b
      | |- stable (match ?x with _ => _ end) => destruct x
      end ].

Lemma stable_src_execute_body this : stable (Src.execute_body this).
Proof.
  unfold Src.execute_body, Src.executeRead, Src.executeWrite, Src.executeUpdate,
    Src.executeDelete, Src.executeClear, source_getAll, store_add, store_put,
    store_delete, store_clear.
  stable_bind.
Qed.

Lemma stable_dist_execute_body this : stable (Dist.execute_body this).
Proof.
  unfold Dist.execute_body, Dist.executeRead, Dist.executeWrite, Dist.executeUpdate,
    Dist.executeDelete, Dist.executeClear, source_getAll, store_add, store_put,
    store_delete, store_clear.
  cbv zeta. stable_bind.
Qed.

Lemma async_call_heap body f w :
  heap (snd (async_call body f w)) = heap (snd (body w)).
Proof.
  unfold async_call. destruct (body w) as [[s|e] w1]; [|reflexivity].
  destruct (databases w1 !! _); [|reflexivity].
  destruct (Engine.run _ _ _). reflexivity.
Qed.

(** ** Construction *)

Lemma nonempty_string_spec v s :
  nonempty_string v = Some s <-> v = JStr s /\ s <> EmptyString.
Proof.
  destruct v; cbn; try (split; [discriminate | intros [? _]; discriminate]).
  destruct s0; cbn; split.
  - discriminate.
  - intros [E Hne]. inversion E. subst. contradiction.
  - intros E. inversion E. split; [reflexivity | discriminate].
  - intros [E _]. inversion E. reflexivity.
Qed.

Lemma nonempty_string_none v :
  nonempty_string v = None <-> ~ nonempty_name v.
Proof.
  split.
  - intros E [s Hs]. apply nonempty_string_spec in Hs. congruence.
  - intros H. destruct (nonempty_string v) as [s|] eqn:E; [|reflexivity].
    exfalso. apply H. exists s. apply nonempty_string_spec. exact E.
Qed.

(** C7. With a live database handle and a non-empty string as collection
    name the constructor returns a new instance (action, handle and name
    as given, durability relaxed, nothing else set).  With a handle that is
    not a database, or a name that is empty or not a string, the
    constructor itself throws a TypeError and creates nothing: the failure
    is not left to [execute]. *)
Theorem C7_constructor_validates act d name w :
  (live w d -> nonempty_name name ->
   exists this h s w',
     d = AnIDBDatabase h /\ name = JStr s /\
     new_DbAction act d name w = (Ok this, w') /\
     heap w !! this = None /\
     heap w' !! this =
       Some {| action := act; databaseInstance := h; storeName := s;
               hintIndex := None; durability := relaxed;
               updateDoc := JUndefined; deleteDoc := None |}) /\
  (instanceof_IDBDatabase d = false \/ ~ nonempty_name name ->
   exists msg, new_DbAction act d name w = (Throw (TypeError msg), w)).
Proof.
  split.
  - intros (h & db & -> & _ & _) (s & -> & Hs).
    assert (Hn : nonempty_string (JStr s) = Some s)
      by (apply nonempty_string_spec; split; [reflexivity | exact Hs]).
    exists (fresh (dom (heap w))), h, s. eexists.
    split; [reflexivity|]. split; [reflexivity|].
    unfold new_DbAction. rewrite Hn. unfold alloc.
    split; [reflexivity|]. cbn [heap]. split.
    + apply not_elem_of_dom. apply is_fresh.
    + apply lookup_insert_eq.
  - intros [Hd | Hn].
    + destruct d; [discriminate|]. eexists. reflexivity.
    + apply nonempty_string_none in Hn. unfold new_DbAction. rewrite Hn.
      destruct d; eexists; reflexivity.
Qed.

Lemma C7_constructor_validates_witness :
  (exists this h s w',
     AnIDBDatabase 0 = AnIDBDatabase h /\ JStr "users" = JStr s /\
     new_DbAction READ (AnIDBDatabase 0) (JStr "users")
       (mkWorld ∅ {[ 0 := Sample.db ]} []) = (Ok this, w') /\
     heap (mkWorld ∅ {[ 0 := Sample.db ]} []) !! this = None /\
     heap w' !! this =
       Some {| action := READ; databaseInstance := h; storeName := s;
               hintIndex := None; durability := relaxed;
               updateDoc := JUndefined; deleteDoc := None |}) /\
  (exists msg,
     new_DbAction READ (AnIDBDatabase 0) (JStr EmptyString)
       (mkWorld ∅ {[ 0 := Sample.db ]} []) =
     (Throw (TypeError msg), mkWorld ∅ {[ 0 := Sample.db ]} [])).
Proof.
  split.
  - apply (proj1 (C7_constructor_validates READ (AnIDBDatabase 0) (JStr "users")
                    (mkWorld ∅ {[ 0 := Sample.db ]} []))).
    + exists 0, Sample.db. repeat split; reflexivity.
    + exists "users". split; [reflexivity | discriminate].
  - apply (proj2 (C7_constructor_validates READ (AnIDBDatabase 0) (JStr EmptyString)
                    (mkWorld ∅ {[ 0 := Sample.db ]} []))).
    right. intros (s & E & Hs). inversion E. subst. apply Hs. reflexivity.
Defined.

(** A closed connection is still an [IDBDatabase]: the constructor accepts
    it, and the failure comes from the engine at [execute]. *)
Lemma constructor_accepts_closed_handle act h s w :
  s <> EmptyString ->
  exists this w', new_DbAction act (AnIDBDatabase h) (JStr s) w = (Ok this, w').
Proof.
  intros Hs. unfold new_DbAction.
  assert (Hn : nonempty_string (JStr s) = Some s)
    by (apply nonempty_string_spec; split; [reflexivity | exact Hs]).
  rewrite Hn. eexists. eexists. reflexivity.
Qed.

(** ** Dispatch *)

Lemma append_assoc (s1 s2 s3 : string) : (s1 +:+ s2) +:+ s3 = s1 +:+ s2 +:+ s3.
Proof.
  induction s1 as [|c s1 IH]; [reflexivity|].
  change (String c (s1 +:+ s2) +:+ s3 = String c (s1 +:+ s2 +:+ s3)).
  change (String c ((s1 +:+ s2) +:+ s3) = String c (s1 +:+ s2 +:+ s3)).
  rewrite IH. reflexivity.
Qed.

Lemma mentions_here x post : mentions x (x +:+ post).
Proof. exists EmptyString, post. reflexivity. Qed.

Lemma mentions_later x p q : mentions x q -> mentions x (p +:+ q).
Proof.
  intros (pre & post & ->). exists (p +:+ pre), post.
  rewrite append_assoc. reflexivity.
Qed.

Lemma unrecognized_lists_kinds a k :
  k ∈ Object_values DB_ACTIONS -> mentions k (emessage (unrecognized_action a)).
Proof.
  intros Hk. unfold unrecognized_action, Error. cbn [emessage].
  do 4 apply mentions_later.
  unfold Object_values, DB_ACTIONS in *. cbn [map snd] in Hk.
  repeat (apply elem_of_cons in Hk as [-> | Hk]);
    [ exists EmptyString, ", WRITE, UPDATE, DELETE, CLEAR"
    | exists "READ, ", ", UPDATE, DELETE, CLEAR"
    | exists "READ, WRITE, ", ", DELETE, CLEAR"
    | exists "READ, WRITE, UPDATE, ", ", CLEAR"
    | exists "READ, WRITE, UPDATE, DELETE, ", EmptyString
    | apply elem_of_nil in Hk; contradiction ];
    reflexivity.
Qed.

Lemma not_a_kind a :
  a ∉ Object_values DB_ACTIONS ->
  String.eqb a READ = false /\ String.eqb a WRITE = false /\
  String.eqb a UPDATE = false /\ String.eqb a DELETE = false /\
  String.eqb a CLEAR = false.
Proof.
  intros H. repeat split; apply String.eqb_neq; intros ->; apply H;
    unfold Object_values, DB_ACTIONS; cbn [map snd]; set_solver.
Qed.

(** C8. When the action of an instance is none of the five kinds,
    [execute] rejects at once with an Error whose message is
    "Unrecognized database action: <action>. Must be one of: READ, WRITE,
    UPDATE, DELETE, CLEAR"; the world is as before, so no transaction was
    opened and no request issued.  The source and the build agree. *)
Theorem C8_unrecognized_action_rejected this a w f :
  heap w !! this = Some a ->
  action a ∉ Object_values DB_ACTIONS ->
  Src.execute this f w = (Rejected (Some (unrecognized_action (action a))), w) /\
  Dist.execute this f w = (Rejected (Some (unrecognized_action (action a))), w) /\
  transactions (journal (snd (Src.execute this f w))) = transactions (journal w) /\
  transactions (journal (snd (Dist.execute this f w))) = transactions (journal w) /\
  ename (unrecognized_action (action a)) = "Error" /\
  mentions (action a) (emessage (unrecognized_action (action a))) /\
  (forall k, k ∈ Object_values DB_ACTIONS ->
             mentions k (emessage (unrecognized_action (action a)))).
Proof.
  intros Hthis Hact.
  destruct (not_a_kind _ Hact) as (Hr & Hw & Hu & Hd & Hc).
  assert (Hsrc : Src.execute this f w =
                 (Rejected (Some (unrecognized_action (action a))), w)).
  { unfold Src.execute, async_call, Src.execute_body.
    rewrite (bind_ok _ _ _ _ _ (read_this_ok _ _ _ Hthis)).
    rewrite Hr, Hw, Hu, Hd, Hc. reflexivity. }
  assert (Hdist : Dist.execute this f w =
                  (Rejected (Some (unrecognized_action (action a))), w)).
  { unfold Dist.execute, async_call, Dist.execute_body.
    rewrite (bind_ok _ _ _ _ _ (read_this_ok _ _ _ Hthis)).
    rewrite Hr, Hw, Hu, Hd, Hc. reflexivity. }
  repeat split.
  - exact Hsrc.
  - exact Hdist.
  - rewrite Hsrc. reflexivity.
  - rewrite Hdist. reflexivity.
  - unfold unrecognized_action, Error. cbn [emessage].
    apply mentions_later. apply mentions_here.
  - apply unrecognized_lists_kinds.
Qed.

Lemma C8_unrecognized_action_rejected_witness :
  Src.execute 0 CommitOk (Sample.world "PURGE" JUndefined) =
    (Rejected (Some (unrecognized_action "PURGE")), Sample.world "PURGE" JUndefined) /\
  Dist.execute 0 CommitOk (Sample.world "PURGE" JUndefined) =
    (Rejected (Some (unrecognized_action "PURGE")), Sample.world "PURGE" JUndefined) /\
  transactions (journal (snd (Src.execute 0 CommitOk (Sample.world "PURGE" JUndefined)))) =
    transactions (journal (Sample.world "PURGE" JUndefined)) /\
  transactions (journal (snd (Dist.execute 0 CommitOk (Sample.world "PURGE" JUndefined)))) =
    transactions (journal (Sample.world "PURGE" JUndefined)) /\
  ename (unrecognized_action "PURGE") = "Error" /\
  mentions "PURGE" (emessage (unrecognized_action "PURGE")) /\
  (forall k, k ∈ Object_values DB_ACTIONS ->
             mentions k (emessage (unrecognized_action "PURGE"))).
Proof.
  apply (C8_unrecognized_action_rejected 0 (Sample.instance "PURGE" JUndefined)
           (Sample.world "PURGE" JUndefined) CommitOk).
  - reflexivity.
  - intros H. unfold Object_values, DB_ACTIONS in H. cbn [map snd] in H.
    repeat (apply elem_of_cons in H as [H | H]; [discriminate H|]).
    apply elem_of_nil in H. exact H.
Defined.

(** The message, spelled out. *)
Example unrecognized_action_message :
  emessage (unrecognized_action "PURGE") =
  "Unrecognized database action: PURGE. Must be one of: READ, WRITE, UPDATE, DELETE, CLEAR".
Proof. reflexivity. Qed.

(** ** Configuration *)

Lemma write_this_ok this a g w :
  heap w !! this = Some a -> write_this this g w = (Ok tt, updated this (g a) w).
Proof. intros H. unfold write_this. rewrite H. reflexivity. Qed.

Lemma updated_this this a' w : heap (updated this a' w) !! this = Some a'.
Proof. apply lookup_insert_eq. Qed.

Lemma src_execute_heap this f w : heap (snd (Src.execute this f w)) = heap w.
Proof.
  unfold Src.execute. rewrite async_call_heap.
  apply (stable_src_execute_body this w).
Qed.

Lemma dist_execute_heap this f w : heap (snd (Dist.execute this f w)) = heap w.
Proof.
  unfold Dist.execute. rewrite async_call_heap.
  apply (stable_dist_execute_body this w).
Qed.

(** C10. Each setter, when it accepts its argument, returns the reference
    it was called on and leaves the world as it was except for one field
    of that instance: the index hint, the durability, the payload or the
    delete key; action, database handle and collection name are as
    constructed.  A setter that refuses its argument changes nothing.
    [execute], in the source and in the build, changes no instance. *)
Theorem C10_setters_touch_one_field this a w :
  heap w !! this = Some a ->
  (forall v,
     match nonempty_string v with
     | Some name =>
         configureIndexHint this v w =
         (Ok this,
          updated this
            {| action := action a; databaseInstance := databaseInstance a;
               storeName := storeName a; hintIndex := Some name;
               durability := durability a; updateDoc := updateDoc a;
               deleteDoc := deleteDoc a |} w)
     | None => exists msg, configureIndexHint this v w = (Throw (TypeError msg), w)
     end) /\
  (forall v,
     match accepted_durability v with
     | Some d =>
         configureDurability this v w =
         (Ok this,
          updated this
            {| action := action a; databaseInstance := databaseInstance a;
               storeName := storeName a; hintIndex := hintIndex a;
               durability := d; updateDoc := updateDoc a;
               deleteDoc := deleteDoc a |} w)
     | None => exists msg, configureDurability this v w = (Throw (TypeError msg), w)
     end) /\
  (forall doc,
     setDocumentData this doc w =
     (Ok this,
      updated this
        {| action := action a; databaseInstance := databaseInstance a;
           storeName := storeName a; hintIndex := hintIndex a;
           durability := durability a; updateDoc := doc;
           deleteDoc := deleteDoc a |} w)) /\
  (forall key,
     setDeleteKey this key w =
     (Ok this,
      updated this
        {| action := action a; databaseInstance := databaseInstance a;
           storeName := storeName a; hintIndex := hintIndex a;
           durability := durability a; updateDoc := updateDoc a;
           deleteDoc := key |} w)) /\
  (forall f, heap (snd (Src.execute this f w)) = heap w) /\
  (forall f, heap (snd (Dist.execute this f w)) = heap w).
Proof.
  intros Hthis. repeat split.
  - intros v. unfold configureIndexHint.
    destruct (nonempty_string v) as [name|]; [|eexists; reflexivity].
    rewrite (bind_ok _ _ _ _ _ (write_this_ok _ _ _ _ Hthis)). reflexivity.
  - intros v. unfold configureDurability.
    destruct (accepted_durability v) as [d|]; [|eexists; reflexivity].
    rewrite (bind_ok _ _ _ _ _ (write_this_ok _ _ _ _ Hthis)). reflexivity.
  - intros doc. unfold setDocumentData.
    rewrite (bind_ok _ _ _ _ _ (write_this_ok _ _ _ _ Hthis)). reflexivity.
  - intros key. unfold setDeleteKey.
    rewrite (bind_ok _ _ _ _ _ (write_this_ok _ _ _ _ Hthis)). reflexivity.
  - intros f. apply src_execute_heap.
  - intros f. apply dist_execute_heap.
Qed.

Lemma C10_setters_touch_one_field_witness :
  setDocumentData 0 Sample.alice (Sample.world WRITE JUndefined) =
  (Ok 0, updated 0 (Sample.instance WRITE Sample.alice) (Sample.world WRITE JUndefined)).
Proof.
  apply (C10_setters_touch_one_field 0 (Sample.instance WRITE JUndefined)
           (Sample.world WRITE JUndefined)).
  reflexivity.
Defined.

(** What the setters accept. *)
Lemma accepted_durability_spec v d :
  accepted_durability v = Some d <->
  (v = JStr "strict" /\ d = strict) \/ (v = JStr "relaxed" /\ d = relaxed).
Proof.
  split.
  - destruct v; cbn; try discriminate.
    destruct (String.eqb_spec s "strict") as [->|_].
    + intros E. inversion E. left. split; reflexivity.
    + destruct (String.eqb_spec s "relaxed") as [->|_]; [|discriminate].
      intros E. inversion E. right. split; reflexivity.
  - intros [[-> ->] | [-> ->]]; reflexivity.
Qed.

(** A hint that was configured is never the empty string. *)
Lemma configured_hint_nonempty this v w l w' a' :
  configureIndexHint this v w = (Ok l, w') ->
  heap w' !! this = Some a' ->
  exists name, hintIndex a' = Some name /\ name <> EmptyString.
Proof.
  unfold configureIndexHint.
  destruct (nonempty_string v) as [name|] eqn:Hn; [|discriminate].
  apply nonempty_string_spec in Hn as [-> Hne].
  unfold bind, write_this. destruct (heap w !! this) as [a|]; [|discriminate].
  unfold ret. intros E. inversion E. subst. cbn [heap].
  rewrite lookup_insert_eq. intros E'. inversion E'. subst.
  exists name. split; [reflexivity | exact Hne].
Qed.

(** ** Settling the promise *)

Lemma bind_inv_ok {A B} (m : M A) (k : A -> M B) w b w' :
  bind m k w = (Ok b, w') ->
  exists a w1, m w = (Ok a, w1) /\ k a w1 = (Ok b, w').
Proof.
  unfold bind. destruct (m w) as [[a|e] w1]; [|discriminate].
  intros H. exists a, w1. split; [reflexivity | exact H].
Qed.

Lemma deliver_cons h ev evs c :
  deliver h (ev :: evs) c = deliver h evs (dispatch h c ev).
Proof. reflexivity. Qed.

Lemma resolve_promise v c :
  promise (resolve v c) =
  match promise c with Pending => Fulfilled v | p => p end.
Proof. destruct c as [[| |] r]; reflexivity. Qed.

Lemma reject_promise e c :
  promise (reject e c) =
  match promise c with Pending => Rejected e | p => p end.
Proof. destruct c as [[| |] r]; reflexivity. Qed.

(** The build's writing executors: the promise after one more event. *)
Lemma dist_on_transaction_step msg c ev :
  promise (dispatch (Dist.on_transaction msg) c ev) =
  match promise c with
  | Pending =>
      match ev with
      | EvSuccess _ => Pending
      | EvError e => Rejected (or_error e msg)
      | EvComplete => Fulfilled RUndefined
      | EvTxError e | EvAbort e => Rejected e
      end
  | p => p
  end.
Proof.
  destruct ev; cbn [dispatch Dist.on_transaction request_onsuccess request_onerror
                    transaction_oncomplete transaction_onerror transaction_onabort];
    rewrite ?resolve_promise, ?reject_promise; destruct (promise c); reflexivity.
Qed.

Lemma dist_on_transaction_fulfilled msg evs c v :
  promise (deliver (Dist.on_transaction msg) evs c) = Fulfilled v ->
  promise c = Fulfilled v \/ (promise c = Pending /\ v = RUndefined /\ EvComplete ∈ evs).
Proof.
  revert c. induction evs as [|ev evs IH]; intros c H; cbn in H.
  - left. exact H.
  - apply IH in H. rewrite dist_on_transaction_step in H.
    destruct (promise c) eqn:Hc.
    + right. split; [reflexivity|].
      destruct H as [H | (H & -> & Hin)].
      * destruct ev; try discriminate. inversion H. split; [reflexivity|].
        apply list_elem_of_here.
      * split; [reflexivity|]. apply list_elem_of_further. exact Hin.
    + left. destruct H as [H | (H & _)]; [exact H | discriminate].
    + destruct H as [H | (H & _)]; discriminate.
Qed.

(** The source's executors: the promise after one more event. *)
Lemma src_on_request_step g msg c ev :
  promise (dispatch (Src.on_request g msg) c ev) =
  match promise c with
  | Pending =>
      match ev with
      | EvSuccess r => Fulfilled (g r)
      | EvError e => Rejected (or_error e msg)
      | EvComplete | EvTxError _ | EvAbort _ => Pending
      end
  | p => p
  end.
Proof.
  destruct ev; cbn [dispatch Src.on_request request_onsuccess request_onerror
                    transaction_oncomplete transaction_onerror transaction_onabort];
    rewrite ?resolve_promise, ?reject_promise; destruct (promise c); reflexivity.
Qed.

(** A settled promise stays as it is, whatever is delivered later. *)
Lemma src_settled_stays g msg evs c :
  promise c <> Pending ->
  promise (deliver (Src.on_request g msg) evs c) = promise c.
Proof.
  revert c. induction evs as [|ev evs IH]; intros c Hc; [reflexivity|].
  rewrite deliver_cons.
  rewrite IH; rewrite src_on_request_step; destruct (promise c); congruence.
Qed.

Lemma dist_settled_stays msg evs c :
  promise c <> Pending ->
  promise (deliver (Dist.on_transaction msg) evs c) = promise c.
Proof.
  revert c. induction evs as [|ev evs IH]; intros c Hc; [reflexivity|].
  rewrite deliver_cons.
  rewrite IH; rewrite dist_on_transaction_step; destruct (promise c); congruence.
Qed.

(** The handlers each executor installs. *)
Lemma dist_executeWrite_handlers this w s w' :
  Dist.executeWrite this w = (Ok s, w') ->
  handlers s = Dist.on_transaction "Write operation failed".
Proof.
  unfold Dist.executeWrite. intros H.
  apply bind_inv_ok in H as (a & w1 & _ & H).
  destruct (is_undefined (updateDoc a)); [discriminate|].
  apply bind_inv_ok in H as (st & w2 & _ & H). cbv zeta in H.
  destruct (negb _); [discriminate|].
  apply bind_inv_ok in H as (r & w3 & _ & H).
  inversion H. reflexivity.
Qed.

Lemma src_executeWrite_handlers this w s w' :
  Src.executeWrite this w = (Ok s, w') ->
  handlers s =
  Src.on_request (fun _ => RUndefined) "Write operation failed with unknown error".
Proof.
  unfold Src.executeWrite. intros H.
  apply bind_inv_ok in H as (st & w1 & _ & H).
  apply bind_inv_ok in H as (a & w2 & _ & H).
  destruct (is_undefined (updateDoc a)); [discriminate|].
  apply bind_inv_ok in H as (r & w3 & _ & H).
  inversion H. reflexivity.
Qed.

(** In the source, the insert request's success is enough, whatever the
    transaction does afterwards. *)
Lemma src_write_fulfilled_on_success this w s w' :
  Src.executeWrite this w = (Ok s, w') ->
  forall r rest, settle (handlers s) (EvSuccess r :: rest) = Fulfilled RUndefined.
Proof.
  intros H r rest. rewrite (src_executeWrite_handlers _ _ _ _ H).
  unfold settle. rewrite deliver_cons, src_settled_stays;
    rewrite src_on_request_step; cbn [promise fresh_closure]; congruence.
Qed.

(** In the build, a WRITE is reported as succeeded only after its
    transaction completed: whatever events were delivered, a fulfilled
    promise means "complete" was among them, and the request's own
    success leaves the promise pending. *)
Lemma dist_write_fulfilled_only_on_complete this w s w' :
  Dist.executeWrite this w = (Ok s, w') ->
  (forall evs v, settle (handlers s) evs = Fulfilled v -> EvComplete ∈ evs) /\
  (forall r, settle (handlers s) [EvSuccess r] = Pending) /\
  (forall r, settle (handlers s) [EvSuccess r; EvComplete] = Fulfilled RUndefined).
Proof.
  intros H. rewrite (dist_executeWrite_handlers _ _ _ _ H). repeat split.
  - intros evs v Hs. unfold settle in Hs.
    apply dist_on_transaction_fulfilled in Hs as [Hs | (_ & _ & Hin)];
      [discriminate | exact Hin].
Qed.

(** C1. The TypeScript source reports a WRITE as succeeded before its
    transaction has completed: on the test store, with the payload set,
    the promise of [executeWrite] is already fulfilled when only the insert
    request's success has been delivered; and when the commit then fails,
    [execute] still yields a fulfilled promise although the store holds no
    record.  The build rejects with the transaction's error there. *)
Theorem C1_src_write_fulfilled_before_completion :
  let w := Sample.world WRITE Sample.alice in
  (exists s w1,
     Src.executeWrite 0 w = (Ok s, w1) /\
     settle (handlers s) [EvSuccess (RKey (KStr "1"))] = Fulfilled RUndefined) /\
  fst (Src.execute 0 (CommitFails Sample.quota) w) = Fulfilled RUndefined /\
  databases (snd (Src.execute 0 (CommitFails Sample.quota) w)) !! 0 = Some Sample.db /\
  fst (Dist.execute 0 (CommitFails Sample.quota) w) = Rejected (Some Sample.quota).
Proof.
  cbv zeta. split; [|split; [|split]].
  - eexists. eexists. split; [vm_compute; reflexivity|]. reflexivity.
  - vm_compute. reflexivity.
  - vm_compute. reflexivity.
  - vm_compute. reflexivity.
Qed.

Lemma deliver_app h evs1 evs2 c :
  deliver h (evs1 ++ evs2) c = deliver h evs2 (deliver h evs1 c).
Proof. unfold deliver. apply fold_left_app. Qed.

(** The build's [executeRead]: promise and [result] after one more event. *)
Lemma dist_read_step c ev :
  dispatch Dist.read_handlers c ev =
  match ev with
  | EvSuccess r => mkClosure (promise c) r
  | EvError e => reject (or_error e "Read operation failed with unknown error") c
  | EvComplete =>
      match result c with
      | RUndefined => reject (Some (Error "Read operation completed without result")) c
      | r => resolve r c
      end
  | EvTxError e | EvAbort e => reject e c
  end.
Proof. destruct ev; reflexivity. Qed.

Lemma dist_read_step_settled c ev :
  promise c <> Pending ->
  promise (dispatch Dist.read_handlers c ev) = promise c.
Proof.
  intros Hc. rewrite dist_read_step.
  destruct ev; try destruct (result c);
    rewrite ?resolve_promise, ?reject_promise; cbn [promise];
    destruct (promise c); congruence.
Qed.

Lemma dist_read_settled_stays evs c :
  promise c <> Pending ->
  promise (deliver Dist.read_handlers evs c) = promise c.
Proof.
  revert c. induction evs as [|ev evs IH]; intros c Hc; [reflexivity|].
  rewrite deliver_cons.
  rewrite IH by (rewrite dist_read_step_settled; assumption).
  apply dist_read_step_settled. exact Hc.
Qed.

Lemma dist_read_successes_keep_pending rs c :
  promise (deliver Dist.read_handlers (map EvSuccess rs) c) = promise c.
Proof.
  revert c. induction rs as [|r rs IH]; intros c; [reflexivity|].
  cbn [map]. rewrite deliver_cons, IH. reflexivity.
Qed.

Lemma dist_read_fulfilled evs c v :
  promise (deliver Dist.read_handlers evs c) = Fulfilled v ->
  promise c = Fulfilled v \/
  (promise c = Pending /\
   exists pre post, evs = pre ++ EvComplete :: post /\
                    (EvSuccess v ∈ pre \/ (result c = v /\ v <> RUndefined))).
Proof.
  revert c. induction evs as [|ev evs IH]; intros c H.
  - left. exact H.
  - rewrite deliver_cons in H. apply IH in H.
    destruct (promise c) eqn:Hc.
    + right. split; [reflexivity|]. rewrite dist_read_step in H. destruct ev.
      * cbn [promise result] in H. destruct H as [H | (_ & pre & post & -> & Hv)];
          [congruence|].
        exists (EvSuccess result0 :: pre), post. split; [reflexivity|]. left.
        destruct Hv as [Hv | [-> _]];
          [apply list_elem_of_further; exact Hv | apply list_elem_of_here].
      * rewrite reject_promise, Hc in H.
        destruct H as [H | (H & _)]; discriminate.
      * destruct (result c) eqn:Hr; rewrite ?resolve_promise, ?reject_promise, Hc in H;
          destruct H as [H | (H & _)]; try discriminate; inversion H; subst;
          exists [], evs; (split; [reflexivity|]); right; (split; [reflexivity|]);
          discriminate.
      * rewrite reject_promise, Hc in H.
        destruct H as [H | (H & _)]; discriminate.
      * rewrite reject_promise, Hc in H.
        destruct H as [H | (H & _)]; discriminate.
    + left. rewrite dist_read_step_settled, Hc in H by congruence.
      destruct H as [H | (H & _)]; [exact H | discriminate].
    + exfalso. rewrite dist_read_step_settled, Hc in H by congruence.
      destruct H as [H | (H & _)]; discriminate.
Qed.

Lemma dist_executeRead_handlers this w s w' :
  Dist.executeRead this w = (Ok s, w') -> handlers s = Dist.read_handlers.
Proof.
  unfold Dist.executeRead. intros H.
  apply bind_inv_ok in H as (st & w1 & _ & H). cbv zeta in H.
  apply bind_inv_ok in H as (r & w2 & _ & H).
  inversion H. reflexivity.
Qed.

(** In the build, a READ delivers its result set only once the retrieval
    has succeeded and the transaction has then completed; and a
    transaction error or abort that arrives while only successes were
    signalled rejects with the transaction's error. *)
Lemma dist_read_waits_for_completion this w s w' :
  Dist.executeRead this w = (Ok s, w') ->
  (forall evs v, settle (handlers s) evs = Fulfilled v ->
     exists pre post, evs = pre ++ EvComplete :: post /\ EvSuccess v ∈ pre) /\
  (forall vs, settle (handlers s) [EvSuccess (RArray vs); EvComplete] =
              Fulfilled (RArray vs)) /\
  (forall rs e rest,
     settle (handlers s) (map EvSuccess rs ++ EvAbort e :: rest) = Rejected e /\
     settle (handlers s) (map EvSuccess rs ++ EvTxError e :: rest) = Rejected e).
Proof.
  intros H. rewrite (dist_executeRead_handlers _ _ _ _ H). split; [|split].
  - intros evs v Hs. unfold settle in Hs.
    apply dist_read_fulfilled in Hs as [Hs | (_ & pre & post & -> & Hv)];
      [discriminate|].
    exists pre, post. split; [reflexivity|].
    destruct Hv as [Hv | [Hr Hne]]; [exact Hv|].
    cbn in Hr. subst. contradiction.
  - reflexivity.
  - intros rs e rest. unfold settle.
    split; rewrite deliver_app, deliver_cons, dist_read_settled_stays;
      rewrite dist_read_step, reject_promise, dist_read_successes_keep_pending;
      cbn [promise fresh_closure]; congruence.
Qed.

(** C2. The TypeScript source resolves a READ on the retrieval's success
    alone: on the test store the promise of [executeRead] is fulfilled with
    the result set before the transaction has completed, an abort that
    follows does not reject it, and [execute] yields a fulfilled promise
    for a transaction that aborted.  The build rejects with the
    transaction's error there. *)
Theorem C2_src_read_fulfilled_before_completion :
  let w := Sample.world READ JUndefined in
  let aborted := DOMException "AbortError" "The transaction was aborted." in
  (exists s w1,
     Src.executeRead 0 w = (Ok s, w1) /\
     settle (handlers s) [EvSuccess (RArray [])] = Fulfilled (RArray []) /\
     settle (handlers s) [EvSuccess (RArray []); EvAbort (Some aborted)] =
       Fulfilled (RArray [])) /\
  fst (Src.execute 0 (CommitFails aborted) w) = Fulfilled (RArray []) /\
  fst (Dist.execute 0 (CommitFails aborted) w) = Rejected (Some aborted).
Proof.
  cbv zeta. split; [|split].
  - eexists. eexists. split; [vm_compute; reflexivity|].
    split; reflexivity.
  - vm_compute. reflexivity.
  - vm_compute. reflexivity.
Qed.

(** ** The executors, step by step *)

Lemma async_call_throw body f w e w1 :
  body w = (Throw e, w1) -> async_call body f w = (Rejected (Some e), w1).
Proof. intros H. unfold async_call. rewrite H. reflexivity. Qed.

Lemma vet_transaction_ok db a mode :
  vet_transaction db (opened a mode) = Ok tt <->
  closed db = false /\ is_Some (objectStores db !! storeName a).
Proof.
  unfold vet_transaction, opened. cbn [txStoreNames forallb].
  destruct (closed db); [split; [discriminate | intros [? _]; discriminate]|].
  rewrite andb_true_r.
  destruct (objectStores db !! storeName a) as [st|] eqn:Hst.
  - rewrite bool_decide_true by eauto. split; [intros _; split; eauto | reflexivity].
  - rewrite bool_decide_false by (intros [? ?]; discriminate).
    split; [discriminate | intros [_ [? ?]]; discriminate].
Qed.

Lemma resolved_ok a mode allowIndex w db st :
  databases w !! databaseInstance a = Some db ->
  closed db = false ->
  objectStores db !! storeName a = Some st ->
  resolved a mode allowIndex w = Ok (chosen_source a mode allowIndex st).
Proof.
  intros Hdb Hopen Hst. unfold resolved. rewrite Hdb.
  assert (Hadm : vet_transaction db (opened a mode) = Ok tt)
    by (apply vet_transaction_ok; split; [exact Hopen | eauto]).
  rewrite Hadm, Hst. reflexivity.
Qed.

Lemma resolved_inv a mode allowIndex w src :
  resolved a mode allowIndex w = Ok src ->
  exists db st,
    databases w !! databaseInstance a = Some db /\ closed db = false /\
    objectStores db !! storeName a = Some st /\
    src = chosen_source a mode allowIndex st.
Proof.
  unfold resolved.
  destruct (databases w !! databaseInstance a) as [db|]; [|discriminate].
  destruct (vet_transaction db (opened a mode)) as [[]|e] eqn:Hadm; [|discriminate].
  apply vet_transaction_ok in Hadm as [Hopen _].
  destruct (objectStores db !! storeName a) as [st|] eqn:Hst; [|discriminate].
  intros E. inversion E. exists db, st. repeat split; assumption.
Qed.

Lemma chosen_source_primary a mode st :
  chosen_source a mode false st = IDBObjectStore (opened a mode) (storeName a).
Proof. reflexivity. Qed.

Lemma chosen_source_database a mode allowIndex st :
  txDatabase (source_transaction (chosen_source a mode allowIndex st)) =
  databaseInstance a /\
  source_store (chosen_source a mode allowIndex st) = storeName a.
Proof. unfold chosen_source. destruct (usable_hint a allowIndex st); split; reflexivity. Qed.

Lemma after_open_calls a mode w :
  after_open a mode w = after_calls [CallTransaction (opened a mode)] w.
Proof. reflexivity. Qed.

(** A request method called right after the resolver. *)
Lemma issue_after_resolve a mode allowIndex op w src :
  resolved a mode allowIndex w = Ok src ->
  issue src op (after_open a mode w) =
  (fst (attempt a mode allowIndex op w), after_calls (snd (attempt a mode allowIndex op w)) w).
Proof.
  intros Hres. unfold attempt. rewrite Hres. cbn [fst snd].
  destruct (resolved_inv _ _ _ _ _ Hres) as (db & st & Hdb & _ & _ & ->).
  destruct (chosen_source_database a mode allowIndex st) as [Hh _].
  unfold issue, after_open. run_natives. rewrite Hh, Hdb.
  unfold after_calls. rewrite <- app_assoc. cbn [app].
  destruct (vet_request db _) as [[]|e]; reflexivity.
Qed.

Lemma attempt_resolve_throw a mode allowIndex op w e :
  resolved a mode allowIndex w = Throw e ->
  attempt a mode allowIndex op w = (Throw e, [CallTransaction (opened a mode)]).
Proof. intros H. unfold attempt. rewrite H. reflexivity. Qed.

Lemma src_executeRead_eq this a w :
  heap w !! this = Some a ->
  Src.executeRead this w =
  finish (Src.on_request (fun r => r) "Read operation failed with unknown error")
         (attempt a readonly true OpGetAll w) w.
Proof.
  intros Hthis. unfold Src.executeRead, finish.
  unfold bind at 1. rewrite (src_resolve_eq _ _ _ _ _ Hthis).
  destruct (resolved a readonly true w) as [src|e] eqn:Hres.
  - unfold source_getAll, bind. rewrite (issue_after_resolve _ _ _ _ _ _ Hres).
    destruct (fst (attempt a readonly true OpGetAll w)); reflexivity.
  - rewrite (attempt_resolve_throw _ _ _ _ _ _ Hres). reflexivity.
Qed.

Lemma on_store_after_resolve a mode m op w src :
  resolved a mode false w = Ok src ->
  on_store m src op (after_open a mode w) =
  (fst (attempt a mode false op w), after_calls (snd (attempt a mode false op w)) w).
Proof.
  intros Hres. destruct (resolved_inv _ _ _ _ _ Hres) as (db & st & _ & _ & _ & E).
  rewrite chosen_source_primary in E. subst src. cbn [on_store].
  apply issue_after_resolve. exact Hres.
Qed.

Lemma finish_resolve_throw h a mode allowIndex op w e :
  resolved a mode allowIndex w = Throw e ->
  finish h (attempt a mode allowIndex op w) w = (Throw e, after_open a mode w).
Proof. intros H. unfold finish. rewrite (attempt_resolve_throw _ _ _ _ _ _ H). reflexivity. Qed.

Lemma finish_after_request h (x : Result Request * World) cs w :
  x = (fst (cs), after_calls (snd cs) w) ->
  (let (r, w') := x in
   match r with
   | Ok a => (Ok (mkStarted a h), w')
   | Throw e => (Throw e, w')
   end) = finish h cs w.
Proof. intros ->. unfold finish. destruct (fst cs); reflexivity. Qed.

Lemma src_open_and_store this a m op h w :
  heap w !! this = Some a ->
  (let* store := Src.resolveStoreOrIndex this readwrite false in
   let* request := on_store m store op in
   ret (mkStarted request h)) w =
  finish h (attempt a readwrite false op w) w.
Proof.
  intros Hthis. unfold bind at 1. rewrite (src_resolve_eq _ _ _ _ _ Hthis).
  destruct (resolved a readwrite false w) as [src|e] eqn:Hres.
  - unfold bind, ret. apply finish_after_request.
    apply on_store_after_resolve. exact Hres.
  - symmetry. apply finish_resolve_throw. exact Hres.
Qed.

Lemma dist_open_and_store this a m op h msg w :
  heap w !! this = Some a ->
  (let* st := Dist.resolveStoreOrIndex this readwrite false in
   let store := fst st in
   if negb (instanceof_IDBObjectStore store)
   then throw (Error msg)
   else
     let* request := on_store m store op in
     ret (mkStarted request h)) w =
  finish h (attempt a readwrite false op w) w.
Proof.
  intros Hthis. unfold bind at 1. rewrite (dist_resolve_eq _ _ _ _ _ Hthis).
  destruct (resolved a readwrite false w) as [src|e] eqn:Hres.
  - cbv zeta. cbn [fst].
    destruct (resolved_inv _ _ _ _ _ Hres) as (db & st & _ & _ & _ & E).
    rewrite chosen_source_primary in E.
    assert (Hsrc : instanceof_IDBObjectStore src = true) by (subst src; reflexivity).
    rewrite Hsrc. cbn [negb]. unfold bind, ret. apply finish_after_request.
    apply on_store_after_resolve. exact Hres.
  - symmetry. apply finish_resolve_throw. exact Hres.
Qed.

Lemma dist_executeRead_eq this a w :
  heap w !! this = Some a ->
  Dist.executeRead this w =
  finish Dist.read_handlers (attempt a readonly true OpGetAll w) w.
Proof.
  intros Hthis. unfold Dist.executeRead.
  unfold bind at 1. rewrite (dist_resolve_eq _ _ _ _ _ Hthis).
  destruct (resolved a readonly true w) as [src|e] eqn:Hres.
  - cbv zeta. cbn [fst]. unfold source_getAll, bind, ret.
    apply finish_after_request. apply issue_after_resolve. exact Hres.
  - symmetry. apply finish_resolve_throw. exact Hres.
Qed.

Lemma read_this_after_calls this a cs w :
  heap w !! this = Some a ->
  read_this this (after_calls cs w) = (Ok a, after_calls cs w).
Proof. intros H. apply read_this_ok. exact H. Qed.

Lemma src_executeWrite_eq this a w :
  heap w !! this = Some a ->
  Src.executeWrite this w =
  match resolved a readwrite false w with
  | Throw e => (Throw e, after_open a readwrite w)
  | Ok _ =>
      if is_undefined (updateDoc a)
      then (Throw (Error "Document data is required for write operations"),
            after_open a readwrite w)
      else finish (Src.on_request (fun _ => RUndefined)
                     "Write operation failed with unknown error")
                  (attempt a readwrite false (OpAdd (updateDoc a)) w) w
  end.
Proof.
  intros Hthis. unfold Src.executeWrite.
  unfold bind at 1. rewrite (src_resolve_eq _ _ _ _ _ Hthis).
  destruct (resolved a readwrite false w) as [src|e] eqn:Hres; [|reflexivity].
  unfold bind at 1. rewrite after_open_calls, (read_this_after_calls _ _ _ _ Hthis).
  destruct (is_undefined (updateDoc a)); [reflexivity|].
  unfold store_add, bind, ret. apply finish_after_request.
  rewrite <- after_open_calls. apply on_store_after_resolve. exact Hres.
Qed.

Lemma dist_executeWrite_eq this a w :
  heap w !! this = Some a ->
  Dist.executeWrite this w =
  if is_undefined (updateDoc a)
  then (Throw (Error "Document data is required for write operations"), w)
  else finish (Dist.on_transaction "Write operation failed")
              (attempt a readwrite false (OpAdd (updateDoc a)) w) w.
Proof.
  intros Hthis. unfold Dist.executeWrite.
  rewrite (bind_ok _ _ _ _ _ (read_this_ok _ _ _ Hthis)).
  destruct (is_undefined (updateDoc a)); [reflexivity|].
  apply (dist_open_and_store _ _ "add"). exact Hthis.
Qed.

Lemma src_executeDelete_eq this a w :
  heap w !! this = Some a ->
  Src.executeDelete this w =
  match deleteDoc a with
  | None => (Throw (Error "Delete key or key range is required for delete operations"), w)
  | Some key =>
      finish (Src.on_request (fun _ => RUndefined)
                "Delete operation failed with unknown error")
             (attempt a readwrite false (OpDelete key) w) w
  end.
Proof.
  intros Hthis. unfold Src.executeDelete.
  rewrite (bind_ok _ _ _ _ _ (read_this_ok _ _ _ Hthis)).
  destruct (deleteDoc a) as [key|]; [|reflexivity].
  apply (src_open_and_store _ _ "delete"). exact Hthis.
Qed.

Lemma dist_executeDelete_eq this a w :
  heap w !! this = Some a ->
  Dist.executeDelete this w =
  match deleteDoc a with
  | None => (Throw (Error "Delete key or key range is required for delete operations"), w)
  | Some key =>
      finish (Dist.on_transaction "Delete operation failed")
             (attempt a readwrite false (OpDelete key) w) w
  end.
Proof.
  intros Hthis. unfold Dist.executeDelete.
  rewrite (bind_ok _ _ _ _ _ (read_this_ok _ _ _ Hthis)).
  destruct (deleteDoc a) as [key|]; [|reflexivity].
  apply (dist_open_and_store _ _ "delete"). exact Hthis.
Qed.

Lemma src_executeClear_eq this a w :
  heap w !! this = Some a ->
  Src.executeClear this w =
  finish (Src.on_request (fun _ => RUndefined)
            "Clear operation failed with unknown error")
         (attempt a readwrite false OpClear w) w.
Proof. intros Hthis. apply (src_open_and_store _ _ "clear"). exact Hthis. Qed.

Lemma dist_executeClear_eq this a w :
  heap w !! this = Some a ->
  Dist.executeClear this w =
  finish (Dist.on_transaction "Clear operation failed with unknown error")
         (attempt a readwrite false OpClear w) w.
Proof. intros Hthis. apply (dist_open_and_store _ _ "clear"). exact Hthis. Qed.

Lemma store_keyPath_after_resolve a mode w src :
  resolved a mode false w = Ok src ->
  store_keyPath src (after_open a mode w) =
  (match target_store a w with
   | Some st => Ok (keyPath st)
   | None => Throw (DOMException "NotFoundError" "The specified object store was not found.")
   end, after_open a mode w).
Proof.
  intros Hres. destruct (resolved_inv _ _ _ _ _ Hres) as (db & st & Hdb & _ & Hst & E).
  rewrite chosen_source_primary in E. subst src.
  unfold target_store, store_keyPath, after_open, opened. run_natives.
  rewrite Hdb. run_natives. rewrite Hst. reflexivity.
Qed.

Lemma src_executeUpdate_eq this a w :
  heap w !! this = Some a ->
  Src.executeUpdate this w =
  update_outcome (Src.on_request (fun _ => RUndefined)
                    "Update operation failed with unknown error") a w.
Proof.
  intros Hthis. unfold Src.executeUpdate, update_outcome.
  rewrite (bind_ok _ _ _ _ _ (read_this_ok _ _ _ Hthis)).
  destruct (is_undefined (updateDoc a)); [reflexivity|].
  unfold bind at 1. rewrite (src_resolve_eq _ _ _ _ _ Hthis).
  destruct (resolved a readwrite false w) as [src|e] eqn:Hres; [|reflexivity].
  unfold bind at 1. rewrite (store_keyPath_after_resolve _ _ _ _ Hres).
  destruct (target_store a w) as [st|]; [|reflexivity].
  destruct (keyPath st) as [|p|ps]; try reflexivity.
  unfold bind at 1, lift.
  destruct (js_in p (updateDoc a)) as [present|e]; [|reflexivity].
  destruct (negb present || is_undefined_at (updateDoc a) p); [reflexivity|].
  unfold store_put, bind, ret. apply finish_after_request.
  apply on_store_after_resolve. exact Hres.
Qed.

Lemma dist_executeUpdate_eq this a w :
  heap w !! this = Some a ->
  Dist.executeUpdate this w =
  update_outcome (Dist.on_transaction "Update operation failed with unknown error") a w.
Proof.
  intros Hthis. unfold Dist.executeUpdate, update_outcome.
  rewrite (bind_ok _ _ _ _ _ (read_this_ok _ _ _ Hthis)).
  destruct (is_undefined (updateDoc a)); [reflexivity|].
  unfold bind at 1. rewrite (dist_resolve_eq _ _ _ _ _ Hthis).
  destruct (resolved a readwrite false w) as [src|e] eqn:Hres; [|reflexivity].
  cbv zeta. cbn [fst].
  destruct (resolved_inv _ _ _ _ _ Hres) as (db & st0 & _ & _ & _ & E).
  rewrite chosen_source_primary in E.
  assert (Hsrc : instanceof_IDBIndex src = false) by (subst src; reflexivity).
  rewrite Hsrc. clear E Hsrc.
  unfold bind at 1. rewrite (store_keyPath_after_resolve _ _ _ _ Hres).
  destruct (target_store a w) as [st|]; [|reflexivity].
  destruct (keyPath st) as [|p|ps]; try reflexivity.
  unfold bind at 1, lift.
  destruct (js_in p (updateDoc a)) as [present|e]; [|reflexivity].
  destruct (negb present || is_undefined_at (updateDoc a) p); [reflexivity|].
  unfold store_put, bind, ret. apply finish_after_request.
  apply on_store_after_resolve. exact Hres.
Qed.

Lemma is_undefined_spec v : is_undefined v = true <-> v = JUndefined.
Proof. destruct v; cbn; split; congruence. Qed.

(** The test of [executeUpdate] on the payload, in the specification's words. *)
Lemma key_test_spec p doc :
  match js_in p doc with
  | Throw _ => has_key_field p doc = false
  | Ok present =>
      negb present || is_undefined_at doc p = negb (has_key_field p doc)
  end.
Proof.
  destruct doc; cbn [js_in is_undefined_at has_key_field]; try reflexivity.
  destruct (has_prop props p); cbn [orb negb].
  - rewrite negb_involutive. reflexivity.
  - destruct (inherited p); reflexivity.
Qed.

(** ** Preconditions *)

Lemma src_execute_body_eq this a w :
  heap w !! this = Some a ->
  Src.execute_body this w =
  (if String.eqb (action a) READ then Src.executeRead this
   else if String.eqb (action a) WRITE then Src.executeWrite this
   else if String.eqb (action a) UPDATE then Src.executeUpdate this
   else if String.eqb (action a) DELETE then Src.executeDelete this
   else if String.eqb (action a) CLEAR then Src.executeClear this
   else throw (unrecognized_action (action a))) w.
Proof.
  intros Hthis. unfold Src.execute_body.
  rewrite (bind_ok _ _ _ _ _ (read_this_ok _ _ _ Hthis)). reflexivity.
Qed.

Lemma dist_execute_body_eq this a w :
  heap w !! this = Some a ->
  Dist.execute_body this w =
  (if String.eqb (action a) READ then Dist.executeRead this
   else if String.eqb (action a) WRITE then Dist.executeWrite this
   else if String.eqb (action a) UPDATE then Dist.executeUpdate this
   else if String.eqb (action a) DELETE then Dist.executeDelete this
   else if String.eqb (action a) CLEAR then Dist.executeClear this
   else throw (unrecognized_action (action a))) w.
Proof.
  intros Hthis. unfold Dist.execute_body.
  rewrite (bind_ok _ _ _ _ _ (read_this_ok _ _ _ Hthis)). reflexivity.
Qed.

Lemma requests_after_open a mode w :
  requests (journal (after_open a mode w)) = requests (journal w).
Proof.
  unfold after_open. cbn [journal]. rewrite requests_app. cbn.
  apply app_nil_r.
Qed.

(** A body that throws without a request rejects without a request. *)
Lemma rejects_before_request body f w :
  (exists e w1, body w = (Throw e, w1) /\
                requests (journal w1) = requests (journal w)) ->
  (exists e, fst (async_call body f w) = Rejected (Some e)) /\
  requests (journal (snd (async_call body f w))) = requests (journal w).
Proof.
  intros (e & w1 & Hb & Hr). rewrite (async_call_throw _ _ _ _ _ Hb).
  split; [exists e; reflexivity | exact Hr].
Qed.

Ltac thrown :=
  do 2 eexists; split; [reflexivity | first [reflexivity | apply requests_after_open]].

Lemma update_refused_throws h a w st :
  target_store a w = Some st ->
  update_refused a st ->
  exists e w1, update_outcome h a w = (Throw e, w1) /\
               requests (journal w1) = requests (journal w).
Proof.
  intros Hst Href. unfold update_outcome.
  destruct (is_undefined (updateDoc a)) eqn:Hu; [thrown|].
  destruct (resolved a readwrite false w) as [src|e];
    [|thrown].
  rewrite Hst.
  destruct Href as [Hd | [Hk | [[ps Hk] | (p & Hk & Hf)]]].
  - apply is_undefined_spec in Hd. congruence.
  - rewrite Hk. thrown.
  - rewrite Hk. thrown.
  - rewrite Hk. pose proof (key_test_spec p (updateDoc a)) as Ht.
    destruct (js_in p (updateDoc a)) as [present|e];
      [|thrown].
    rewrite Ht, Hf. cbn [negb]. thrown.
Qed.

Lemma missing_precondition_src this a w :
  heap w !! this = Some a ->
  missing_precondition a w ->
  exists e w1, Src.execute_body this w = (Throw e, w1) /\
               requests (journal w1) = requests (journal w).
Proof.
  intros Hthis Hm. rewrite (src_execute_body_eq _ _ _ Hthis).
  destruct Hm as [[Ha Hd] | [[Ha Hd] | [[Ha Hd] | (Ha & db & st & Hdb & Hst & Hk)]]];
    rewrite Ha; cbn [String.eqb READ WRITE UPDATE DELETE CLEAR Ascii.eqb Bool.eqb].
  - rewrite (src_executeWrite_eq _ _ _ Hthis), Hd. cbn [is_undefined].
    destruct (resolved a readwrite false w); thrown.
  - rewrite (src_executeUpdate_eq _ _ _ Hthis). unfold update_outcome.
    rewrite Hd. cbn [is_undefined]. thrown.
  - rewrite (src_executeDelete_eq _ _ _ Hthis), Hd. thrown.
  - rewrite (src_executeUpdate_eq _ _ _ Hthis).
    apply (update_refused_throws _ _ _ st).
    + unfold target_store. rewrite Hdb. exact Hst.
    + right. exact Hk.
Qed.

Lemma missing_precondition_dist this a w :
  heap w !! this = Some a ->
  missing_precondition a w ->
  exists e w1, Dist.execute_body this w = (Throw e, w1) /\
               requests (journal w1) = requests (journal w).
Proof.
  intros Hthis Hm. rewrite (dist_execute_body_eq _ _ _ Hthis).
  destruct Hm as [[Ha Hd] | [[Ha Hd] | [[Ha Hd] | (Ha & db & st & Hdb & Hst & Hk)]]];
    rewrite Ha; cbn [String.eqb READ WRITE UPDATE DELETE CLEAR Ascii.eqb Bool.eqb].
  - rewrite (dist_executeWrite_eq _ _ _ Hthis), Hd. cbn [is_undefined]. thrown.
  - rewrite (dist_executeUpdate_eq _ _ _ Hthis). unfold update_outcome.
    rewrite Hd. cbn [is_undefined]. thrown.
  - rewrite (dist_executeDelete_eq _ _ _ Hthis), Hd. thrown.
  - rewrite (dist_executeUpdate_eq _ _ _ Hthis).
    apply (update_refused_throws _ _ _ st).
    + unfold target_store. rewrite Hdb. exact Hst.
    + right. exact Hk.
Qed.

(** C3. When the payload of a WRITE or an UPDATE is unset, the delete key
    of a DELETE is unset, or an UPDATE meets a store whose key path is
    null or an array, or a payload without the key-path field, [execute]
    rejects and no request method of the engine ([getAll], [add], [put],
    [delete], [clear]) has been called: the journal holds the requests it
    held before.  The source and the build agree. *)
Theorem C3_missing_precondition_rejects_before_request this a w f :
  heap w !! this = Some a ->
  missing_precondition a w ->
  ((exists e, fst (Src.execute this f w) = Rejected (Some e)) /\
   requests (journal (snd (Src.execute this f w))) = requests (journal w)) /\
  ((exists e, fst (Dist.execute this f w) = Rejected (Some e)) /\
   requests (journal (snd (Dist.execute this f w))) = requests (journal w)).
Proof.
  intros Hthis Hm. split.
  - apply rejects_before_request. apply (missing_precondition_src _ a); assumption.
  - apply rejects_before_request. apply (missing_precondition_dist _ a); assumption.
Qed.

Lemma C3_missing_precondition_rejects_before_request_witness :
  ((exists e, fst (Src.execute 0 CommitOk (Sample.world WRITE JUndefined)) =
              Rejected (Some e)) /\
   requests (journal (snd (Src.execute 0 CommitOk (Sample.world WRITE JUndefined)))) =
   requests (journal (Sample.world WRITE JUndefined))) /\
  ((exists e, fst (Dist.execute 0 CommitOk (Sample.world WRITE JUndefined)) =
              Rejected (Some e)) /\
   requests (journal (snd (Dist.execute 0 CommitOk (Sample.world WRITE JUndefined)))) =
   requests (journal (Sample.world WRITE JUndefined))).
Proof.
  apply (C3_missing_precondition_rejects_before_request 0
           (Sample.instance WRITE JUndefined) (Sample.world WRITE JUndefined) CommitOk).
  - reflexivity.
  - left. split; reflexivity.
Defined.

(** The source opens its transaction before it looks at the payload of a
    WRITE; the build looks first. *)
Example write_without_payload_journals :
  journal (snd (Src.execute 0 CommitOk (Sample.world WRITE JUndefined))) =
    [CallTransaction (opened (Sample.instance WRITE JUndefined) readwrite)] /\
  journal (snd (Dist.execute 0 CommitOk (Sample.world WRITE JUndefined))) = [].
Proof. split; vm_compute; reflexivity. Qed.

(** ** UPDATE *)

Lemma update_refused_iff a st :
  update_refused a st <->
  is_undefined (updateDoc a)
  || negb (match keyPath st with
           | KPString p => has_key_field p (updateDoc a)
           | _ => false
           end) = true.
Proof.
  unfold update_refused. split.
  - intros [Hd | [Hk | [[ps Hk] | (p & Hk & Hf)]]].
    + rewrite Hd. reflexivity.
    + rewrite Hk. apply orb_true_r.
    + rewrite Hk. apply orb_true_r.
    + rewrite Hk, Hf. apply orb_true_r.
  - intros H. apply orb_true_iff in H as [H | H].
    + left. apply is_undefined_spec. exact H.
    + destruct (keyPath st) as [|p|ps]; [right; left; reflexivity | | eauto 6].
      right. right. right. exists p. split; [reflexivity|].
      apply negb_true_iff. exact H.
Qed.

Lemma update_refused_dec a st : update_refused a st \/ ~ update_refused a st.
Proof.
  rewrite update_refused_iff.
  destruct (is_undefined (updateDoc a) || _); [left | right]; congruence.
Qed.

Lemma target_store_of a w db st :
  databases w !! databaseInstance a = Some db ->
  objectStores db !! storeName a = Some st ->
  target_store a w = Some st.
Proof. intros Hdb Hst. unfold target_store. rewrite Hdb. exact Hst. Qed.

Lemma attempt_primary a mode op w db st :
  databases w !! databaseInstance a = Some db ->
  closed db = false ->
  objectStores db !! storeName a = Some st ->
  attempt a mode false op w =
  (let r := mkRequest (IDBObjectStore (opened a mode) (storeName a)) op in
   (match vet_request db r with Ok _ => Ok r | Throw e => Throw e end,
    [CallTransaction (opened a mode); CallRequest r])).
Proof.
  intros Hdb Hopen Hst. unfold attempt.
  rewrite (resolved_ok _ _ _ _ _ _ Hdb Hopen Hst), chosen_source_primary, Hdb.
  reflexivity.
Qed.

Lemma update_accepted_outcome h a w db st :
  databases w !! databaseInstance a = Some db ->
  closed db = false ->
  objectStores db !! storeName a = Some st ->
  ~ update_refused a st ->
  update_outcome h a w =
  finish h (attempt a readwrite false (OpPut (updateDoc a)) w) w.
Proof.
  intros Hdb Hopen Hst Hacc. rewrite update_refused_iff in Hacc.
  apply not_true_is_false, orb_false_iff in Hacc as [Hu Hk].
  apply negb_false_iff in Hk.
  unfold update_outcome. rewrite Hu.
  rewrite (resolved_ok _ _ false _ _ _ Hdb Hopen Hst).
  rewrite (target_store_of _ _ _ _ Hdb Hst).
  destruct (keyPath st) as [|p|ps]; try discriminate.
  pose proof (key_test_spec p (updateDoc a)) as Ht.
  destruct (js_in p (updateDoc a)) as [present|e]; [|congruence].
  rewrite Ht, Hk. reflexivity.
Qed.

Lemma requests_grow w r cs :
  requests (journal w ++ cs ++ [CallRequest r]) <> requests (journal w).
Proof.
  rewrite !requests_app. cbn. intros H.
  apply (f_equal length) in H. rewrite !length_app in H. cbn in H. lia.
Qed.

Lemma update_outcome_spec h a w db st :
  databases w !! databaseInstance a = Some db ->
  closed db = false ->
  objectStores db !! storeName a = Some st ->
  let put := mkRequest (IDBObjectStore (opened a readwrite) (storeName a))
                       (OpPut (updateDoc a)) in
  (update_refused a st <->
   exists e w1, update_outcome h a w = (Throw e, w1) /\
                requests (journal w1) = requests (journal w)) /\
  (~ update_refused a st ->
   journal (snd (update_outcome h a w)) =
     journal w ++ [CallTransaction (opened a readwrite); CallRequest put] /\
   (is_Some (extract_key (keyPath st) (updateDoc a)) ->
    fst (update_outcome h a w) = Ok (mkStarted put h))).
Proof.
  intros Hdb Hopen Hst put.
  assert (Hacc : ~ update_refused a st ->
            update_outcome h a w =
            (match vet_request db put with
             | Ok _ => Ok (mkStarted put h)
             | Throw e => Throw e
             end,
             after_calls [CallTransaction (opened a readwrite); CallRequest put] w)).
  { intros Hn. rewrite (update_accepted_outcome _ _ _ _ _ Hdb Hopen Hst Hn).
    unfold finish. rewrite (attempt_primary _ _ _ _ _ _ Hdb Hopen Hst).
    cbv zeta. cbn [fst snd]. fold put. destruct (vet_request db put); reflexivity. }
  split; [split|].
  - apply update_refused_throws. eapply target_store_of; eassumption.
  - intros (e & w1 & Hout & Hreq).
    destruct (update_refused_dec a st) as [Hr | Hn]; [exact Hr | exfalso].
    rewrite (Hacc Hn) in Hout. inversion Hout as [[He Hw]]. subst w1.
    revert Hreq. unfold after_calls. cbn [journal].
    apply (requests_grow w put [CallTransaction (opened a readwrite)]).
  - intros Hn. rewrite (Hacc Hn). cbn [fst snd after_calls journal].
    split; [reflexivity|]. intros [k Hk].
    unfold vet_request, put. cbn [reqSource reqOp source_transaction source_store
                                    is_write opened txMode andb].
    rewrite Hst, Hk. reflexivity.
Qed.

Lemma update_without_key h a w db st :
  databases w !! databaseInstance a = Some db ->
  closed db = false ->
  objectStores db !! storeName a = Some st ->
  ~ update_refused a st ->
  extract_key (keyPath st) (updateDoc a) = None ->
  fst (update_outcome h a w) =
  Throw (DOMException "DataError" "The object store has no valid key for the value.").
Proof.
  intros Hdb Hopen Hst Hacc Hk.
  rewrite (update_accepted_outcome _ _ _ _ _ Hdb Hopen Hst Hacc). unfold finish.
  rewrite (attempt_primary _ _ _ _ _ _ Hdb Hopen Hst). cbv zeta. cbn [fst].
  unfold vet_request.
  cbn [reqSource reqOp source_transaction source_store is_write opened txMode andb].
  rewrite Hst, Hk. reflexivity.
Qed.

(** C4. On an open database that has the store, an UPDATE is refused
    before any request is made exactly when the payload is unset, the
    store's key path is null, the key path is an array, or the payload
    lacks the key-path field or has it unset (a field being one the payload
    has by JavaScript's [in], its own or inherited).  Otherwise the one
    request made is [put] of the whole payload on the object store itself
    (no read comes first); the engine accepts it when it finds a valid key
    in the payload and throws a DataError when it does not, so that an
    UPDATE also fails outside the four conditions.  The source and the
    build agree. *)
Theorem C4_update_refused_or_single_put this a w db st :
  heap w !! this = Some a ->
  action a = UPDATE ->
  databases w !! databaseInstance a = Some db ->
  closed db = false ->
  objectStores db !! storeName a = Some st ->
  let put := mkRequest (IDBObjectStore (opened a readwrite) (storeName a))
                       (OpPut (updateDoc a)) in
  ((update_refused a st <->
    exists e w1, Src.execute_body this w = (Throw e, w1) /\
                 requests (journal w1) = requests (journal w)) /\
   (~ update_refused a st ->
    journal (snd (Src.execute_body this w)) =
      journal w ++ [CallTransaction (opened a readwrite); CallRequest put] /\
    (is_Some (extract_key (keyPath st) (updateDoc a)) ->
     exists h, fst (Src.execute_body this w) = Ok (mkStarted put h)) /\
    (extract_key (keyPath st) (updateDoc a) = None ->
     fst (Src.execute_body this w) =
     Throw (DOMException "DataError"
              "The object store has no valid key for the value.")))) /\
  ((update_refused a st <->
    exists e w1, Dist.execute_body this w = (Throw e, w1) /\
                 requests (journal w1) = requests (journal w)) /\
   (~ update_refused a st ->
    journal (snd (Dist.execute_body this w)) =
      journal w ++ [CallTransaction (opened a readwrite); CallRequest put] /\
    (is_Some (extract_key (keyPath st) (updateDoc a)) ->
     exists h, fst (Dist.execute_body this w) = Ok (mkStarted put h)) /\
    (extract_key (keyPath st) (updateDoc a) = None ->
     fst (Dist.execute_body this w) =
     Throw (DOMException "DataError"
              "The object store has no valid key for the value.")))).
Proof.
  intros Hthis Ha Hdb Hopen Hst put. split.
  - rewrite (src_execute_body_eq _ _ _ Hthis), Ha.
    cbn [String.eqb READ WRITE UPDATE Ascii.eqb Bool.eqb].
    rewrite (src_executeUpdate_eq _ _ _ Hthis).
    destruct (update_outcome_spec
                (Src.on_request (fun _ => RUndefined)
                   "Update operation failed with unknown error")
                a w db st Hdb Hopen Hst) as [Hiff Hput].
    split; [exact Hiff|]. intros Hn. destruct (Hput Hn) as [Hj Hk].
    split; [exact Hj|]. split.
    + intros Hkey. eexists. apply Hk. exact Hkey.
    + apply (update_without_key _ _ _ _ _ Hdb Hopen Hst Hn).
  - rewrite (dist_execute_body_eq _ _ _ Hthis), Ha.
    cbn [String.eqb READ WRITE UPDATE Ascii.eqb Bool.eqb].
    rewrite (dist_executeUpdate_eq _ _ _ Hthis).
    destruct (update_outcome_spec
                (Dist.on_transaction "Update operation failed with unknown error")
                a w db st Hdb Hopen Hst) as [Hiff Hput].
    split; [exact Hiff|]. intros Hn. destruct (Hput Hn) as [Hj Hk].
    split; [exact Hj|]. split.
    + intros Hkey. eexists. apply Hk. exact Hkey.
    + apply (update_without_key _ _ _ _ _ Hdb Hopen Hst Hn).
Qed.

Lemma C4_update_refused_or_single_put_witness :
  journal (snd (Dist.execute_body 0 (Sample.world UPDATE Sample.alice))) =
  [CallTransaction (opened (Sample.instance UPDATE Sample.alice) readwrite);
   CallRequest
     (mkRequest (IDBObjectStore (opened (Sample.instance UPDATE Sample.alice) readwrite)
                                "users")
                (OpPut Sample.alice))].
Proof.
  destruct (C4_update_refused_or_single_put 0 (Sample.instance UPDATE Sample.alice)
              (Sample.world UPDATE Sample.alice) Sample.db Sample.users
              eq_refl eq_refl eq_refl eq_refl eq_refl) as [_ [_ Hput]].
  apply Hput. intros Href. apply update_refused_iff in Href. discriminate Href.
Defined.

(** An UPDATE whose payload holds [null] under the key path: none of the
    four conditions holds, the [put] is made, and the engine refuses it. *)
Lemma C4_update_fails_outside_the_four_conditions :
  ~ update_refused (Sample.instance UPDATE null_key) Sample.users /\
  requests (journal (snd (Src.execute 0 CommitOk (Sample.world UPDATE null_key)))) =
    [mkRequest (IDBObjectStore (opened (Sample.instance UPDATE null_key) readwrite) "users")
               (OpPut null_key)] /\
  fst (Src.execute 0 CommitOk (Sample.world UPDATE null_key)) =
    Rejected (Some (DOMException "DataError"
                      "The object store has no valid key for the value.")) /\
  fst (Dist.execute 0 CommitOk (Sample.world UPDATE null_key)) =
    Rejected (Some (DOMException "DataError"
                      "The object store has no valid key for the value.")).
Proof.
  split; [|split; [|split]]; try (vm_compute; reflexivity).
  intros Href. apply update_refused_iff in Href. discriminate Href.
Qed.

(** The key path can name a property every object inherits: the test of
    [executeUpdate] lets the payload through, the [put] is made and the
    engine, which looks at own properties only, finds no key. *)
Example update_with_inherited_key_field :
  let st := mkStore (KPString "toString") ∅ [] in
  let a := Sample.instance UPDATE (JObj [("name", JStr "x")]) in
  let w := mkWorld {[ 0 := a ]} {[ 0 := mkDatabase false {[ "users" := st ]} ]} [] in
  ~ update_refused a st /\
  requests (journal (snd (Src.execute_body 0 w))) =
    [mkRequest (IDBObjectStore (opened a readwrite) "users")
               (OpPut (JObj [("name", JStr "x")]))] /\
  fst (Dist.execute 0 CommitOk w) =
    Rejected (Some (DOMException "DataError"
                      "The object store has no valid key for the value.")).
Proof.
  cbv zeta. split; [|split]; try (vm_compute; reflexivity).
  intros Href. apply update_refused_iff in Href. discriminate Href.
Qed.

(** ** The source of a request *)







Lemma truthy_hint_spec h i :
  h <> Some EmptyString -> (truthy_hint h = Some i <-> h = Some i).
Proof.
  intros Hne. destruct h as [[|c s]|]; cbn; [contradiction| |]; reflexivity.
Qed.


Lemma read_is_issued h a w db st :
  databases w !! databaseInstance a = Some db ->
  closed db = false ->
  objectStores db !! storeName a = Some st ->
  fst (finish h (attempt a readonly true OpGetAll w) w) =
  Ok (mkStarted (mkRequest (chosen_source a readonly true st) OpGetAll) h).
Proof.
  intros Hdb Hopen Hst. unfold finish, attempt.
  rewrite (resolved_ok _ _ _ _ _ _ Hdb Hopen Hst), Hdb. cbv zeta. cbn [fst].
  destruct (chosen_source_database a readonly true st) as [_ Hs].
  unfold vet_request. cbn [reqSource reqOp is_write andb]. rewrite Hs, Hst.
  reflexivity.
Qed.




(** ** Durability *)

Section Durability.

Variables (this : nat) (a : DbAction) (d : TransactionDurability) (w : World).
Hypothesis Hthis : heap w !! this = Some a.

Let a' : DbAction := set_durability d a.
Let w' : World := updated this a' w.

Lemma durability_this : heap w' !! this = Some a'.
Proof. apply updated_this. Qed.

Lemma vet_transaction_durability db mode :
  vet_transaction db (opened a' mode) = vet_transaction db (opened a mode).
Proof. reflexivity. Qed.

Lemma chosen_source_durability mode allowIndex st :
  chosen_source a' mode allowIndex st =
  source_with d (chosen_source a mode allowIndex st).
Proof.
  unfold chosen_source, usable_hint. cbn [hintIndex a' set_durability].
  destruct (if allowIndex then truthy_hint (hintIndex a) else None) as [hint|];
    [|reflexivity].
  destruct (bool_decide _); reflexivity.
Qed.

Lemma resolved_durability mode allowIndex :
  resolved a' mode allowIndex w' =
  map_result (source_with d) (resolved a mode allowIndex w).
Proof.
  unfold resolved. cbn [databases w' updated databaseInstance storeName a' set_durability].
  destruct (databases w !! databaseInstance a) as [db|]; [|reflexivity].
  rewrite vet_transaction_durability.
  destruct (vet_transaction db (opened a mode)) as [[]|e]; [|reflexivity].
  destruct (objectStores db !! storeName a) as [st|]; [|reflexivity].
  cbn [map_result]. rewrite <- chosen_source_durability. reflexivity.
Qed.

Lemma vet_request_durability db r :
  vet_request db (request_with d r) = vet_request db r.
Proof. unfold vet_request, request_with. destruct r as [[tx n | tx s n] op]; reflexivity. Qed.

Lemma perform_durability db r :
  perform db (request_with d r) = perform db r.
Proof. destruct r as [[tx n | tx s n] op]; reflexivity. Qed.

Lemma run_durability db r f :
  Engine.run db (request_with d r) f = Engine.run db r f.
Proof. unfold Engine.run. rewrite perform_durability. reflexivity. Qed.

Lemma attempt_durability mode allowIndex op :
  attempt a' mode allowIndex op w' =
  (map_result (request_with d) (fst (attempt a mode allowIndex op w)),
   map (call_with d) (snd (attempt a mode allowIndex op w))).
Proof.
  unfold attempt. rewrite resolved_durability.
  destruct (resolved a mode allowIndex w) as [src|e]; [|reflexivity].
  cbn [map_result]. cbv zeta.
  cbn [databases w' updated databaseInstance a' set_durability fst snd map call_with].
  change (mkRequest (source_with d src) op) with (request_with d (mkRequest src op)).
  destruct (databases w !! databaseInstance a) as [db|]; [|reflexivity].
  rewrite vet_request_durability.
  destruct (vet_request db (mkRequest src op)); reflexivity.
Qed.

Lemma same_thrown e :
  same_but_durability d w w' (Throw e, w) (Throw e, w').
Proof.
  split; [reflexivity|]. exists []. split.
  - unfold after_calls. rewrite app_nil_r. destruct w; reflexivity.
  - unfold after_calls. cbn [map]. rewrite app_nil_r. reflexivity.
Qed.

Lemma same_thrown_after_open e mode :
  same_but_durability d w w'
    (Throw e, after_open a mode w) (Throw e, after_open a' mode w').
Proof.
  split; [reflexivity|]. exists [CallTransaction (opened a mode)].
  split; reflexivity.
Qed.

Lemma same_finish h mode allowIndex op :
  same_but_durability d w w'
    (finish h (attempt a mode allowIndex op w) w)
    (finish h (attempt a' mode allowIndex op w') w').
Proof.
  unfold finish. rewrite attempt_durability. cbn [fst snd]. split.
  - destruct (fst (attempt a mode allowIndex op w)); reflexivity.
  - eexists. split; reflexivity.
Qed.

Lemma target_store_durability : target_store a' w' = target_store a w.
Proof. reflexivity. Qed.

Lemma same_update h :
  same_but_durability d w w' (update_outcome h a w) (update_outcome h a' w').
Proof.
  unfold update_outcome. rewrite resolved_durability, target_store_durability.
  cbn [updateDoc a' set_durability].
  destruct (is_undefined (updateDoc a)); [apply same_thrown|].
  destruct (resolved a readwrite false w) as [src|e];
    [|apply same_thrown_after_open].
  cbn [map_result].
  destruct (target_store a w) as [st|]; [|apply same_thrown_after_open].
  destruct (keyPath st) as [|p|ps]; try apply same_thrown_after_open.
  destruct (js_in p (updateDoc a)) as [present|e];
    [|apply same_thrown_after_open].
  destruct (negb present || _); [apply same_thrown_after_open | apply same_finish].
Qed.

Lemma src_body_durability :
  same_but_durability d w w' (Src.execute_body this w) (Src.execute_body this w').
Proof.
  rewrite (src_execute_body_eq _ _ _ Hthis), (src_execute_body_eq _ _ _ durability_this).
  cbn [action a' set_durability].
  destruct (String.eqb (action a) READ).
  { rewrite (src_executeRead_eq _ _ _ Hthis), (src_executeRead_eq _ _ _ durability_this).
    apply same_finish. }
  destruct (String.eqb (action a) WRITE).
  { rewrite (src_executeWrite_eq _ _ _ Hthis), (src_executeWrite_eq _ _ _ durability_this).
    rewrite resolved_durability. cbn [updateDoc a' set_durability].
    destruct (resolved a readwrite false w) as [src|e];
      [|apply same_thrown_after_open].
    cbn [map_result].
    destruct (is_undefined (updateDoc a));
      [apply same_thrown_after_open | apply same_finish]. }
  destruct (String.eqb (action a) UPDATE).
  { rewrite (src_executeUpdate_eq _ _ _ Hthis), (src_executeUpdate_eq _ _ _ durability_this).
    apply same_update. }
  destruct (String.eqb (action a) DELETE).
  { rewrite (src_executeDelete_eq _ _ _ Hthis), (src_executeDelete_eq _ _ _ durability_this).
    cbn [deleteDoc a' set_durability].
    destruct (deleteDoc a); [apply same_finish | apply same_thrown]. }
  destruct (String.eqb (action a) CLEAR).
  { rewrite (src_executeClear_eq _ _ _ Hthis), (src_executeClear_eq _ _ _ durability_this).
    apply same_finish. }
  apply same_thrown.
Qed.

Lemma dist_body_durability :
  same_but_durability d w w' (Dist.execute_body this w) (Dist.execute_body this w').
Proof.
  rewrite (dist_execute_body_eq _ _ _ Hthis), (dist_execute_body_eq _ _ _ durability_this).
  cbn [action a' set_durability].
  destruct (String.eqb (action a) READ).
  { rewrite (dist_executeRead_eq _ _ _ Hthis), (dist_executeRead_eq _ _ _ durability_this).
    apply same_finish. }
  destruct (String.eqb (action a) WRITE).
  { rewrite (dist_executeWrite_eq _ _ _ Hthis), (dist_executeWrite_eq _ _ _ durability_this).
    cbn [updateDoc a' set_durability].
    destruct (is_undefined (updateDoc a)); [apply same_thrown | apply same_finish]. }
  destruct (String.eqb (action a) UPDATE).
  { rewrite (dist_executeUpdate_eq _ _ _ Hthis), (dist_executeUpdate_eq _ _ _ durability_this).
    apply same_update. }
  destruct (String.eqb (action a) DELETE).
  { rewrite (dist_executeDelete_eq _ _ _ Hthis), (dist_executeDelete_eq _ _ _ durability_this).
    cbn [deleteDoc a' set_durability].
    destruct (deleteDoc a); [apply same_finish | apply same_thrown]. }
  destruct (String.eqb (action a) CLEAR).
  { rewrite (dist_executeClear_eq _ _ _ Hthis), (dist_executeClear_eq _ _ _ durability_this).
    apply same_finish. }
  apply same_thrown.
Qed.

(** From the synchronous part to the settled promise. *)
Lemma async_call_durability body f :
  same_but_durability d w w' (body w) (body w') ->
  fst (async_call body f w') = fst (async_call body f w) /\
  databases (snd (async_call body f w')) = databases (snd (async_call body f w)) /\
  exists added,
    journal (snd (async_call body f w)) = journal w ++ added /\
    journal (snd (async_call body f w')) = journal w ++ map (call_with d) added.
Proof.
  intros (Hres & added & Hw & Hw'). unfold async_call.
  destruct (body w) as [[s|e] w1]; destruct (body w') as [[s'|e'] w1'];
    cbn [fst snd map_result] in *; try discriminate.
  - inversion Hres. subst s' w1 w1'.
    cbn [started_with request handlers request_with reqSource].
    assert (Hh : txDatabase (source_transaction (source_with d (reqSource (request s)))) =
                 txDatabase (source_transaction (reqSource (request s))))
      by (destruct (reqSource (request s)); reflexivity).
    rewrite Hh. cbn [after_calls databases w' updated].
    destruct (databases w !! _) as [db|].
    + change (mkRequest (source_with d (reqSource (request s))) (reqOp (request s)))
        with (request_with d (request s)).
      rewrite run_durability.
      destruct (Engine.run db (request s) f) as [evs db'].
      cbn [fst snd databases journal]. repeat split. exists added. split; reflexivity.
    + cbn [fst snd databases journal after_calls]. repeat split.
      exists added. split; reflexivity.
  - inversion Hres. subst e' w1 w1'. cbn [fst snd after_calls databases journal w' updated].
    repeat split. exists added. split; reflexivity.
Qed.

End Durability.

Lemma constructed_relaxed act d name w this w1 :
  new_DbAction act d name w = (Ok this, w1) ->
  exists a, heap w1 !! this = Some a /\ durability a = relaxed.
Proof.
  unfold new_DbAction. destruct d as [h|v]; [|discriminate].
  destruct (nonempty_string name) as [s|]; [|discriminate].
  unfold alloc. intros E. inversion E. subst. cbn [heap].
  eexists. split; [apply lookup_insert_eq | reflexivity].
Qed.

(** C9. A new instance has durability relaxed.  And whatever durability
    [d] is put in place of the configured one, [execute] settles its
    promise the same way, leaves the same databases, and makes the same
    native calls on the same store or index with the same arguments: the
    two journals differ in the durability carried by the transaction that
    was opened, and in nothing else.  The source and the build agree. *)
Theorem C9_durability_changes_only_the_transaction_option this a d w f :
  heap w !! this = Some a ->
  (forall act h name w0 l w1,
     new_DbAction act h name w0 = (Ok l, w1) ->
     exists a0, heap w1 !! l = Some a0 /\ durability a0 = relaxed) /\
  (fst (Src.execute this f (updated this (set_durability d a) w)) =
     fst (Src.execute this f w) /\
   databases (snd (Src.execute this f (updated this (set_durability d a) w))) =
     databases (snd (Src.execute this f w)) /\
   exists added,
     journal (snd (Src.execute this f w)) = journal w ++ added /\
     journal (snd (Src.execute this f (updated this (set_durability d a) w))) =
       journal w ++ map (call_with d) added) /\
  (fst (Dist.execute this f (updated this (set_durability d a) w)) =
     fst (Dist.execute this f w) /\
   databases (snd (Dist.execute this f (updated this (set_durability d a) w))) =
     databases (snd (Dist.execute this f w)) /\
   exists added,
     journal (snd (Dist.execute this f w)) = journal w ++ added /\
     journal (snd (Dist.execute this f (updated this (set_durability d a) w))) =
       journal w ++ map (call_with d) added).
Proof.
  intros Hthis. split; [|split].
  - intros act h name w0 l w1. apply constructed_relaxed.
  - apply (async_call_durability this a d w). apply src_body_durability. exact Hthis.
  - apply (async_call_durability this a d w). apply dist_body_durability. exact Hthis.
Qed.

Lemma C9_durability_changes_only_the_transaction_option_witness :
  fst (Dist.execute 0 CommitOk
         (updated 0 (set_durability strict (Sample.instance WRITE Sample.alice))
                  (Sample.world WRITE Sample.alice))) =
  fst (Dist.execute 0 CommitOk (Sample.world WRITE Sample.alice)).
Proof.
  apply (C9_durability_changes_only_the_transaction_option 0
           (Sample.instance WRITE Sample.alice) strict
           (Sample.world WRITE Sample.alice) CommitOk).
  reflexivity.
Defined.

(** The only trace of the durability is in the journal. *)
Example strict_write_journal :
  journal (snd (Dist.execute 0 CommitOk
                  (updated 0 (set_durability strict (Sample.instance WRITE Sample.alice))
                           (Sample.world WRITE Sample.alice)))) =
  map (call_with strict)
      (journal (snd (Dist.execute 0 CommitOk (Sample.world WRITE Sample.alice)))).
Proof. vm_compute. reflexivity. Qed.

(** ** WRITE, then READ *)

Lemma async_call_started body f w s w1 db :
  body w = (Ok s, w1) ->
  databases w1 !! txDatabase (source_transaction (reqSource (request s))) = Some db ->
  async_call body f w =
  (settle (handlers s) (fst (Engine.run db (request s) f)),
   mkWorld (heap w1)
           (<[txDatabase (source_transaction (reqSource (request s))) :=
                snd (Engine.run db (request s) f)]> (databases w1))
           (journal w1)).
Proof.
  intros Hb Hdb. unfold async_call. rewrite Hb, Hdb.
  destruct (Engine.run db (request s) f). reflexivity.
Qed.

Lemma add_into_empty db st tx name doc k :
  objectStores db !! name = Some st ->
  records st = [] ->
  extract_key (keyPath st) doc = Some k ->
  perform db (mkRequest (IDBObjectStore tx name) (OpAdd doc)) =
  Ok (RKey k,
      mkDatabase (closed db)
        (<[name := mkStore (keyPath st) (indexes st) [(k, doc)]]> (objectStores db))).
Proof.
  intros Hst Hempty Hk. unfold perform, perform_on.
  cbn [reqSource reqOp source_store]. rewrite Hst, Hk, Hempty. reflexivity.
Qed.

Lemma getAll_primary db st tx name :
  objectStores db !! name = Some st ->
  perform db (mkRequest (IDBObjectStore tx name) OpGetAll) =
  Ok (RArray (map snd (records st)),
      mkDatabase (closed db) (<[name := st]> (objectStores db))).
Proof.
  intros Hst. unfold perform, perform_on.
  cbn [reqSource reqOp source_store]. rewrite Hst. reflexivity.
Qed.

(** ** What a READ returns *)

Lemma database_eta db : mkDatabase (closed db) (objectStores db) = db.
Proof. destruct db. reflexivity. Qed.

Section ReadAll.

Variables (this : nat) (a : DbAction) (w : World) (db : Database) (st : ObjectStore).

Hypothesis Hthis : heap w !! this = Some a.
Hypothesis Hread : action a = READ.
Hypothesis Hdb : databases w !! databaseInstance a = Some db.
Hypothesis Hopen : closed db = false.
Hypothesis Hst : objectStores db !! storeName a = Some st.

(** The records a READ sees: through the usable hint, or all of them. *)
Let seen : list JsValue :=
  match usable_hint a true st with
  | Some i =>
      match indexes st !! i with
      | Some p => map snd (index_view p (records st))
      | None => []
      end
  | None => map snd (records st)
  end.

Lemma read_run f :
  Engine.run db (mkRequest (chosen_source a readonly true st) OpGetAll) f =
  (EvSuccess (RArray seen) ::
   match f with CommitOk => [EvComplete] | CommitFails e => [EvAbort (Some e)] end,
   db).
Proof.
  unfold Engine.run, perform, perform_on, seen, chosen_source.
  cbn [reqSource reqOp].
  destruct (usable_hint a true st) as [i|] eqn:Hu; cbn [source_store]; rewrite Hst.
  - assert (Hi : is_Some (indexes st !! i)).
    { unfold usable_hint in Hu. destruct (truthy_hint (hintIndex a)); [|discriminate].
      destruct (bool_decide (is_Some (indexes st !! s))) eqn:Hb; [|discriminate].
      inversion Hu. subst. apply bool_decide_eq_true in Hb. exact Hb. }
    destruct Hi as [p Hp]. rewrite Hp.
    rewrite insert_id by exact Hst. rewrite database_eta. destruct f; reflexivity.
  - rewrite insert_id by exact Hst. rewrite database_eta. destruct f; reflexivity.
Qed.

Lemma read_body h :
  finish h (attempt a readonly true OpGetAll w) w =
  (Ok (mkStarted (mkRequest (chosen_source a readonly true st) OpGetAll) h),
   after_calls [CallTransaction (opened a readonly);
                CallRequest (mkRequest (chosen_source a readonly true st) OpGetAll)] w).
Proof.
  pose proof (read_is_issued h a w db st Hdb Hopen Hst) as Hf.
  unfold finish in *. cbn [fst] in Hf. rewrite Hf. f_equal.
  unfold attempt. rewrite (resolved_ok _ _ _ _ _ _ Hdb Hopen Hst). reflexivity.
Qed.

Lemma src_read_all f :
  Src.execute this f w =
  (Fulfilled (RArray seen),
   after_calls [CallTransaction (opened a readonly);
                CallRequest (mkRequest (chosen_source a readonly true st) OpGetAll)] w).
Proof.
  unfold Src.execute.
  assert (Hb : Src.execute_body this w =
    (Ok (mkStarted (mkRequest (chosen_source a readonly true st) OpGetAll)
           (Src.on_request (fun r => r) "Read operation failed with unknown error")),
     after_calls [CallTransaction (opened a readonly);
                  CallRequest (mkRequest (chosen_source a readonly true st) OpGetAll)]
                 w)).
  { rewrite (src_execute_body_eq _ _ _ Hthis).
    apply String.eqb_eq in Hread as Hr. rewrite Hr.
    rewrite (src_executeRead_eq _ _ _ Hthis). apply read_body. }
  destruct (chosen_source_database a readonly true st) as [Hh _].
  rewrite (async_call_started _ f _ _ _ db Hb);
    cbn [request handlers reqSource after_calls databases heap journal];
    rewrite ?Hh; [|exact Hdb].
  rewrite read_run. cbn [fst snd].
  rewrite insert_id by exact Hdb. unfold after_calls.
  destruct f; reflexivity.
Qed.

Lemma dist_read_all :
  Dist.execute this CommitOk w =
  (Fulfilled (RArray seen),
   after_calls [CallTransaction (opened a readonly);
                CallRequest (mkRequest (chosen_source a readonly true st) OpGetAll)] w).
Proof.
  unfold Dist.execute.
  assert (Hb : Dist.execute_body this w =
    (Ok (mkStarted (mkRequest (chosen_source a readonly true st) OpGetAll)
           Dist.read_handlers),
     after_calls [CallTransaction (opened a readonly);
                  CallRequest (mkRequest (chosen_source a readonly true st) OpGetAll)]
                 w)).
  { rewrite (dist_execute_body_eq _ _ _ Hthis).
    apply String.eqb_eq in Hread as Hr. rewrite Hr.
    rewrite (dist_executeRead_eq _ _ _ Hthis). apply read_body. }
  destruct (chosen_source_database a readonly true st) as [Hh _].
  rewrite (async_call_started _ CommitOk _ _ _ db Hb);
    cbn [request handlers reqSource after_calls databases heap journal];
    rewrite ?Hh; [|exact Hdb].
  rewrite read_run. cbn [fst snd].
  rewrite insert_id by exact Hdb. reflexivity.
Qed.

Lemma seen_primary :
  hintIndex a <> Some EmptyString ->
  (forall i, ~ reads_index a st i) ->
  seen = map snd (records st).
Proof.
  intros Hne Hno. unfold seen.
  destruct (usable_hint a true st) as [i|] eqn:Hu; [exfalso | reflexivity].
  unfold usable_hint in Hu.
  destruct (truthy_hint (hintIndex a)) as [hint|] eqn:Ht; [|discriminate].
  destruct (bool_decide (is_Some (indexes st !! hint))) eqn:Hb; [|discriminate].
  apply (Hno hint). split; [exact Hread|]. split.
  - apply (truthy_hint_spec _ _ Hne). exact Ht.
  - apply bool_decide_eq_true in Hb. exact Hb.
Qed.


End ReadAll.

(** What a READ sees of a store that holds one record. *)
Lemma seen_of_one_record a st k doc :
  action a = READ ->
  (forall i p, reads_index a st i -> indexes st !! i = Some p ->
               is_Some (key_at p doc)) ->
  match usable_hint a true (mkStore (keyPath st) (indexes st) [(k, doc)]) with
  | Some i =>
      match indexes (mkStore (keyPath st) (indexes st) [(k, doc)]) !! i with
      | Some p =>
          map snd (index_view p (records (mkStore (keyPath st) (indexes st) [(k, doc)])))
      | None => []
      end
  | None => map snd (records (mkStore (keyPath st) (indexes st) [(k, doc)]))
  end = [doc].
Proof.
  intros Hread Hin. unfold usable_hint. cbn [indexes records].
  destruct (truthy_hint (hintIndex a)) as [hint|] eqn:Ht; [|reflexivity].
  destruct (bool_decide (is_Some (indexes st !! hint))) eqn:Hb; [|reflexivity].
  apply bool_decide_eq_true in Hb. destruct Hb as [p Hp]. rewrite Hp.
  assert (Hhint : hintIndex a = Some hint).
  { destruct (hintIndex a) as [[|c s]|]; cbn [truthy_hint] in Ht;
      inversion Ht; reflexivity. }
  destruct (Hin hint p) as [ik Hik]; [|exact Hp|].
  - split; [exact Hread|]. split; [exact Hhint | eauto].
  - cbn [index_view]. rewrite Hik. reflexivity.
Qed.

(** The same when the hinted index has no entry for the record. *)
Lemma seen_of_no_entry a st k doc i p :
  hintIndex a = Some i ->
  i <> EmptyString ->
  indexes st !! i = Some p ->
  key_at p doc = None ->
  match usable_hint a true (mkStore (keyPath st) (indexes st) [(k, doc)]) with
  | Some i =>
      match indexes (mkStore (keyPath st) (indexes st) [(k, doc)]) !! i with
      | Some p =>
          map snd (index_view p (records (mkStore (keyPath st) (indexes st) [(k, doc)])))
      | None => []
      end
  | None => map snd (records (mkStore (keyPath st) (indexes st) [(k, doc)]))
  end = [].
Proof.
  intros Hi Hne Hp Hk. unfold usable_hint. cbn [indexes records]. rewrite Hi.
  destruct i as [|c i']; [contradiction|]. cbn [truthy_hint].
  rewrite bool_decide_true by eauto. rewrite Hp. cbn [index_view]. rewrite Hk.
  reflexivity.
Qed.

Section WriteThenRead.

Variables (wr rd : nat) (aw ar : DbAction) (w : World).
Variables (db : Database) (st : ObjectStore).

Hypothesis Hwr : heap w !! wr = Some aw.
Hypothesis Hrd : heap w !! rd = Some ar.
Hypothesis Hwrite : action aw = WRITE.
Hypothesis Hread : action ar = READ.
Hypothesis Hsame_db : databaseInstance ar = databaseInstance aw.
Hypothesis Hsame_store : storeName ar = storeName aw.
Hypothesis Hdb : databases w !! databaseInstance aw = Some db.
Hypothesis Hopen : closed db = false.
Hypothesis Hst : objectStores db !! storeName aw = Some st.
Hypothesis Hempty : records st = [].

Let add : Request :=
  mkRequest (IDBObjectStore (opened aw readwrite) (storeName aw)) (OpAdd (updateDoc aw)).

(** The store and the database once the record is in. *)
Let holding (k : Key) : ObjectStore :=
  mkStore (keyPath st) (indexes st) [(k, updateDoc aw)].

Let written (k : Key) : Database :=
  mkDatabase (closed db) (<[storeName aw := holding k]> (objectStores db)).

(** A WRITE that starts: the payload is set and the engine finds a key. *)
Lemma write_attempt h :
  forall s w1,
    (if is_undefined (updateDoc aw)
     then (Throw (Error "Document data is required for write operations"), w)
     else finish h (attempt aw readwrite false (OpAdd (updateDoc aw)) w) w)
    = (Ok s, w1) ->
    s = mkStarted add h /\
    w1 = after_calls [CallTransaction (opened aw readwrite); CallRequest add] w /\
    exists k, extract_key (keyPath st) (updateDoc aw) = Some k.
Proof.
  intros s w1. destruct (is_undefined (updateDoc aw)); [discriminate|].
  unfold finish. rewrite (attempt_primary _ _ _ _ _ _ Hdb Hopen Hst).
  cbv zeta. cbn [fst snd]. fold add.
  destruct (vet_request db add) as [[]|e] eqn:Hadm; [|discriminate].
  intros E. inversion E. split; [reflexivity|]. split; [reflexivity|].
  unfold vet_request, add in Hadm.
  cbn [reqSource reqOp source_transaction source_store is_write opened txMode andb]
    in Hadm.
  rewrite Hst in Hadm.
  destruct (extract_key (keyPath st) (updateDoc aw)) as [k|]; [eauto | discriminate].
Qed.

(** And a WRITE starts when the payload is set and holds a key. *)
Lemma write_starts h k :
  is_undefined (updateDoc aw) = false ->
  extract_key (keyPath st) (updateDoc aw) = Some k ->
  finish h (attempt aw readwrite false (OpAdd (updateDoc aw)) w) w =
  (Ok (mkStarted add h),
   after_calls [CallTransaction (opened aw readwrite); CallRequest add] w).
Proof.
  intros Hdoc Hk. unfold finish.
  rewrite (attempt_primary _ _ _ _ _ _ Hdb Hopen Hst). cbv zeta. cbn [fst snd].
  fold add. unfold vet_request, add.
  cbn [reqSource reqOp source_transaction source_store is_write opened txMode andb].
  rewrite Hst, Hk. reflexivity.
Qed.

Lemma run_add f k :
  extract_key (keyPath st) (updateDoc aw) = Some k ->
  Engine.run db add f =
  match f with
  | CommitOk => ([EvSuccess (RKey k); EvComplete], written k)
  | CommitFails e => ([EvSuccess (RKey k); EvAbort (Some e)], db)
  end.
Proof.
  intros Hk. unfold Engine.run, add.
  rewrite (add_into_empty _ _ _ _ _ _ Hst Hempty Hk). reflexivity.
Qed.

(** The world a committed WRITE leaves. *)
Let committed (k : Key) : World :=
  mkWorld (heap w) (<[databaseInstance aw := written k]> (databases w))
          (journal w ++ [CallTransaction (opened aw readwrite); CallRequest add]).

Lemma dist_write_fulfilled f v w1 :
  Dist.execute wr f w = (Fulfilled v, w1) ->
  exists k, extract_key (keyPath st) (updateDoc aw) = Some k /\ w1 = committed k.
Proof.
  unfold Dist.execute. intros H.
  destruct (Dist.execute_body wr w) as [[s|e] w0] eqn:Hb;
    [|rewrite (async_call_throw _ _ _ _ _ Hb) in H; discriminate].
  pose proof Hb as Hb'.
  rewrite (dist_execute_body_eq _ _ _ Hwr), Hwrite in Hb'.
  cbn [String.eqb READ WRITE Ascii.eqb Bool.eqb] in Hb'.
  rewrite (dist_executeWrite_eq _ _ _ Hwr) in Hb'.
  apply write_attempt in Hb' as (-> & -> & k & Hk).
  rewrite (async_call_started _ f _ _ _ db Hb) in H by exact Hdb.
  cbn [request handlers reqSource source_transaction add opened txDatabase] in H.
  fold add in H. rewrite (run_add f k Hk) in H.
  destruct f as [|e]; [|discriminate].
  inversion H. exists k. split; [exact Hk | reflexivity].
Qed.

Lemma src_write_committed v w1 :
  Src.execute wr CommitOk w = (Fulfilled v, w1) ->
  exists k, extract_key (keyPath st) (updateDoc aw) = Some k /\ w1 = committed k.
Proof.
  unfold Src.execute. intros H.
  destruct (Src.execute_body wr w) as [[s|e] w0] eqn:Hb;
    [|rewrite (async_call_throw _ _ _ _ _ Hb) in H; discriminate].
  pose proof Hb as Hb'.
  rewrite (src_execute_body_eq _ _ _ Hwr), Hwrite in Hb'.
  cbn [String.eqb READ WRITE Ascii.eqb Bool.eqb] in Hb'.
  rewrite (src_executeWrite_eq _ _ _ Hwr) in Hb'.
  rewrite (resolved_ok _ _ false _ _ _ Hdb Hopen Hst) in Hb'.
  assert (Hb'' :
    (if is_undefined (updateDoc aw)
     then (Throw (Error "Document data is required for write operations"), w)
     else finish (Src.on_request (fun _ => RUndefined)
                    "Write operation failed with unknown error")
                 (attempt aw readwrite false (OpAdd (updateDoc aw)) w) w)
    = (Ok s, w0)).
  { destruct (is_undefined (updateDoc aw)); [discriminate | exact Hb']. }
  apply write_attempt in Hb'' as (-> & -> & k & Hk).
  rewrite (async_call_started _ CommitOk _ _ _ db Hb) in H by exact Hdb.
  cbn [request handlers reqSource source_transaction add opened txDatabase] in H.
  fold add in H. rewrite (run_add CommitOk k Hk) in H.
  inversion H. exists k. split; [exact Hk | reflexivity].
Qed.

(** A WRITE of a payload with a key succeeds when its commit goes through. *)
Lemma write_succeeds k :
  updateDoc aw <> JUndefined ->
  extract_key (keyPath st) (updateDoc aw) = Some k ->
  Dist.execute wr CommitOk w = (Fulfilled RUndefined, committed k) /\
  Src.execute wr CommitOk w = (Fulfilled RUndefined, committed k).
Proof.
  intros Hdoc Hk.
  assert (Hu : is_undefined (updateDoc aw) = false)
    by (destruct (updateDoc aw); try reflexivity; contradiction).
  split.
  - unfold Dist.execute.
    assert (Hb : Dist.execute_body wr w = _)
      by (rewrite (dist_execute_body_eq _ _ _ Hwr), Hwrite;
          cbn [String.eqb READ WRITE Ascii.eqb Bool.eqb];
          rewrite (dist_executeWrite_eq _ _ _ Hwr), Hu;
          apply (write_starts _ k Hu Hk)).
    rewrite (async_call_started _ CommitOk _ _ _ db Hb) by exact Hdb.
    cbn [request handlers reqSource source_transaction add opened txDatabase].
    fold add. rewrite (run_add CommitOk k Hk). reflexivity.
  - unfold Src.execute.
    assert (Hb : Src.execute_body wr w = _)
      by (rewrite (src_execute_body_eq _ _ _ Hwr), Hwrite;
          cbn [String.eqb READ WRITE Ascii.eqb Bool.eqb];
          rewrite (src_executeWrite_eq _ _ _ Hwr),
            (resolved_ok _ _ false _ _ _ Hdb Hopen Hst), Hu;
          apply (write_starts _ k Hu Hk)).
    rewrite (async_call_started _ CommitOk _ _ _ db Hb) by exact Hdb.
    cbn [request handlers reqSource source_transaction add opened txDatabase].
    fold add. rewrite (run_add CommitOk k Hk). reflexivity.
Qed.

(** The READ on the world the WRITE left: what the store shows through
    the source the READ takes. *)
Lemma read_after_commit k :
  let seen :=
    match usable_hint ar true (holding k) with
    | Some i =>
        match indexes (holding k) !! i with
        | Some p => map snd (index_view p (records (holding k)))
        | None => []
        end
    | None => map snd (records (holding k))
    end in
  fst (Src.execute rd CommitOk (committed k)) = Fulfilled (RArray seen) /\
  fst (Dist.execute rd CommitOk (committed k)) = Fulfilled (RArray seen).
Proof.
  cbv zeta.
  assert (Hdb' : databases (committed k) !! databaseInstance ar = Some (written k)).
  { rewrite Hsame_db. apply lookup_insert_eq. }
  assert (Hst' : objectStores (written k) !! storeName ar = Some (holding k)).
  { rewrite Hsame_store. apply lookup_insert_eq. }
  rewrite (src_read_all rd ar (committed k) _ _ Hrd Hread Hdb' Hopen Hst' CommitOk).
  rewrite (dist_read_all rd ar (committed k) _ _ Hrd Hread Hdb' Hopen Hst').
  split; reflexivity.
Qed.

End WriteThenRead.

(** C6. On an open database, take a WRITE of a payload into a store with
    no record, and a READ on the same store.  A WRITE whose payload is set
    and holds a valid key succeeds when its commit goes through.  When the
    WRITE succeeded, its transaction having completed, the READ that follows
    is fulfilled with the one-element array holding exactly the payload,
    provided the source the READ takes shows the record: the object store
    itself, or a hinted index at whose key path the payload holds a valid
    key.  Through a hinted index that has no entry for the payload the READ
    is fulfilled with the empty array.  In the build a fulfilled WRITE
    promise is such a success; in the source the commit is asked for
    explicitly, as its promise does not wait for it. *)
Theorem C6_write_then_read wr rd aw ar w db st f v w1 :
  heap w !! wr = Some aw ->
  heap w !! rd = Some ar ->
  action aw = WRITE ->
  action ar = READ ->
  databaseInstance ar = databaseInstance aw ->
  storeName ar = storeName aw ->
  databases w !! databaseInstance aw = Some db ->
  closed db = false ->
  objectStores db !! storeName aw = Some st ->
  records st = [] ->
  (updateDoc aw <> JUndefined ->
   is_Some (extract_key (keyPath st) (updateDoc aw)) ->
   fst (Dist.execute wr CommitOk w) = Fulfilled RUndefined /\
   fst (Src.execute wr CommitOk w) = Fulfilled RUndefined) /\
  ((forall i p, reads_index ar st i -> indexes st !! i = Some p ->
                is_Some (key_at p (updateDoc aw))) ->
   (Dist.execute wr f w = (Fulfilled v, w1) ->
    fst (Dist.execute rd CommitOk w1) = Fulfilled (RArray [updateDoc aw])) /\
   (Src.execute wr CommitOk w = (Fulfilled v, w1) ->
    fst (Src.execute rd CommitOk w1) = Fulfilled (RArray [updateDoc aw]))) /\
  (forall i p,
     hintIndex ar = Some i -> i <> EmptyString ->
     indexes st !! i = Some p -> key_at p (updateDoc aw) = None ->
     (Dist.execute wr f w = (Fulfilled v, w1) ->
      fst (Dist.execute rd CommitOk w1) = Fulfilled (RArray [])) /\
     (Src.execute wr CommitOk w = (Fulfilled v, w1) ->
      fst (Src.execute rd CommitOk w1) = Fulfilled (RArray []))).
Proof.
  intros Hwr Hrd Hwrite Hread Hsd Hss Hdb Hopen Hst Hempty.
  pose proof (read_after_commit rd aw ar w db st Hrd Hread Hsd Hss Hopen) as Hseen.
  cbv zeta in Hseen.
  split; [|split].
  - intros Hdoc [k Hk].
    destruct (write_succeeds wr aw w db st Hwr Hwrite Hdb Hopen Hst Hempty k Hdoc Hk)
      as [Hd Hs].
    rewrite Hd, Hs. split; reflexivity.
  - intros Hin. split; intros H.
    + destruct (dist_write_fulfilled wr aw w db st Hwr Hwrite Hdb Hopen Hst Hempty f v w1 H)
        as (k & _ & ->).
      destruct (Hseen k) as [_ Hr]. refine (eq_trans Hr _).
      rewrite (seen_of_one_record ar st k (updateDoc aw) Hread Hin). reflexivity.
    + destruct (src_write_committed wr aw w db st Hwr Hwrite Hdb Hopen Hst Hempty v w1 H)
        as (k & _ & ->).
      destruct (Hseen k) as [Hr _]. refine (eq_trans Hr _).
      rewrite (seen_of_one_record ar st k (updateDoc aw) Hread Hin). reflexivity.
  - intros i p Hi Hne Hp Hnone. split; intros H.
    + destruct (dist_write_fulfilled wr aw w db st Hwr Hwrite Hdb Hopen Hst Hempty f v w1 H)
        as (k & _ & ->).
      destruct (Hseen k) as [_ Hr]. refine (eq_trans Hr _).
      rewrite (seen_of_no_entry ar st k (updateDoc aw) i p Hi Hne Hp Hnone). reflexivity.
    + destruct (src_write_committed wr aw w db st Hwr Hwrite Hdb Hopen Hst Hempty v w1 H)
        as (k & _ & ->).
      destruct (Hseen k) as [Hr _]. refine (eq_trans Hr _).
      rewrite (seen_of_no_entry ar st k (updateDoc aw) i p Hi Hne Hp Hnone). reflexivity.
Qed.

Lemma C6_write_then_read_witness :
  fst (Dist.execute 1 CommitOk
         (snd (Dist.execute 0 CommitOk (writer_and_hinted_reader Sample.alice)))) =
    Fulfilled (RArray [Sample.alice]) /\
  fst (Src.execute 1 CommitOk
         (snd (Src.execute 0 CommitOk (writer_and_reader Sample.alice)))) =
    Fulfilled (RArray [Sample.alice]).
Proof.
  split.
  - destruct (C6_write_then_read 0 1
                (Sample.instance WRITE Sample.alice)
                (set_hintIndex (Some "by_name") (Sample.instance READ JUndefined))
                (writer_and_hinted_reader Sample.alice) Sample.db_indexed
                (mkStore (KPString "id") {[ "by_name" := "name" ]} [])
                CommitOk RUndefined
                (snd (Dist.execute 0 CommitOk (writer_and_hinted_reader Sample.alice)))
                eq_refl eq_refl eq_refl eq_refl eq_refl eq_refl eq_refl eq_refl
                eq_refl eq_refl) as (_ & Hshown & _).
    apply Hshown.
    + intros i p (_ & Hi & _) Hp. inversion Hi. subst i.
      vm_compute in Hp. inversion Hp. subst p. eexists. reflexivity.
    + vm_compute. reflexivity.
  - destruct (C6_write_then_read 0 1
                (Sample.instance WRITE Sample.alice)
                (Sample.instance READ JUndefined)
                (writer_and_reader Sample.alice) Sample.db Sample.users
                CommitOk RUndefined
                (snd (Src.execute 0 CommitOk (writer_and_reader Sample.alice)))
                eq_refl eq_refl eq_refl eq_refl eq_refl eq_refl eq_refl eq_refl
                eq_refl eq_refl) as (_ & Hshown & _).
    apply Hshown.
    + intros i p (_ & Hi & _). discriminate Hi.
    + vm_compute. reflexivity.
Defined.

(** A READ that goes through an index does not see a record without a key
    at the index's key path: the WRITE succeeds, the store holds the record,
    and the READ hinted at [by_name] returns nothing. *)
Lemma C6_hinted_read_misses_the_record :
  fst (Dist.execute 0 CommitOk (writer_and_hinted_reader nameless)) =
    Fulfilled RUndefined /\
  fst (Dist.execute 1 CommitOk
         (snd (Dist.execute 0 CommitOk (writer_and_hinted_reader nameless)))) =
    Fulfilled (RArray []) /\
  fst (Src.execute 0 CommitOk (writer_and_hinted_reader nameless)) =
    Fulfilled RUndefined /\
  fst (Src.execute 1 CommitOk
         (snd (Src.execute 0 CommitOk (writer_and_hinted_reader nameless)))) =
    Fulfilled (RArray []).
Proof. repeat split; vm_compute; reflexivity. Qed.


(** ** The scenario of the test suite *)

Example scenario_results :
  Sample.scenario Dist.execute =
    [ Fulfilled RUndefined; Fulfilled (RArray [Sample.alice]);
      Fulfilled RUndefined; Fulfilled (RArray [Sample.alice_updated]);
      Fulfilled RUndefined; Fulfilled (RArray []);
      Fulfilled RUndefined; Fulfilled RUndefined;
      Fulfilled RUndefined; Fulfilled (RArray []) ] /\
  Sample.scenario Src.execute = Sample.scenario Dist.execute.
Proof. split; vm_compute; reflexivity. Qed.

(** A second insert under the same key is refused by the engine and the
    first record stays. *)
Example write_twice :
  let w1 := snd (Sample.one_shot Dist.execute WRITE
                   (fun l => setDocumentData l Sample.alice)
                   (mkWorld ∅ {[ 0 := Sample.db ]} [])) in
  let r2 := Sample.one_shot Dist.execute WRITE
              (fun l => setDocumentData l Sample.alice_updated) w1 in
  fst r2 = Rejected (Some (DOMException "ConstraintError"
                             "Key already exists in the object store.")) /\
  fst (Sample.one_shot Dist.execute READ ret (snd r2)) =
    Fulfilled (RArray [Sample.alice]).
Proof. split; vm_compute; reflexivity. Qed.

(** With an index of the hinted name on the store, a READ goes through the
    index and a WRITE does not. *)
Example hinted_sources :
  requests (journal (snd (Dist.execute_body 0 (Sample.hinting READ JUndefined)))) =
    [mkRequest (IDBIndex (mkTransaction 0 ["users"] readonly relaxed) "users" "by_name")
               OpGetAll] /\
  requests (journal (snd (Src.execute_body 0 (Sample.hinting WRITE Sample.alice)))) =
    [mkRequest (IDBObjectStore (mkTransaction 0 ["users"] readwrite relaxed) "users")
               (OpAdd Sample.alice)].
Proof. split; vm_compute; reflexivity. Qed.

(** * Further properties *)

(** ** How each executor settles its promise *)

Lemma finish_handlers h x w s :
  fst (finish h x w) = Ok s -> handlers s = h.
Proof.
  unfold finish. cbn [fst]. destruct (fst x); [|discriminate].
  intros E. inversion E. reflexivity.
Qed.

Lemma update_outcome_handlers h a w s :
  fst (update_outcome h a w) = Ok s -> handlers s = h.
Proof.
  unfold update_outcome.
  destruct (is_undefined (updateDoc a)); [discriminate|].
  destruct (resolved a readwrite false w) as [src|e]; [|discriminate].
  destruct (target_store a w) as [st|]; [|discriminate].
  destruct (keyPath st) as [|p|ps]; try discriminate.
  destruct (js_in p (updateDoc a)) as [present|e]; [|discriminate].
  destruct (negb present || _); [discriminate|]. apply finish_handlers.
Qed.

(** The handlers the source installs, by action. *)
Lemma src_body_handlers this a w s w1 :
  heap w !! this = Some a ->
  Src.execute_body this w = (Ok s, w1) ->
  handlers s =
  Src.on_request (fun r => if String.eqb (action a) READ then r else RUndefined)
                 (src_fallback (action a)).
Proof.
  intros Hthis Hb. apply (f_equal fst) in Hb. cbn [fst] in Hb.
  rewrite (src_execute_body_eq _ _ _ Hthis) in Hb. unfold src_fallback.
  destruct (String.eqb (action a) READ).
  { rewrite (src_executeRead_eq _ _ _ Hthis) in Hb. apply finish_handlers in Hb.
    exact Hb. }
  destruct (String.eqb (action a) WRITE).
  { rewrite (src_executeWrite_eq _ _ _ Hthis) in Hb.
    destruct (resolved a readwrite false w); [|discriminate].
    destruct (is_undefined (updateDoc a)); [discriminate|].
    apply finish_handlers in Hb. exact Hb. }
  destruct (String.eqb (action a) UPDATE).
  { rewrite (src_executeUpdate_eq _ _ _ Hthis) in Hb.
    apply update_outcome_handlers in Hb. exact Hb. }
  destruct (String.eqb (action a) DELETE).
  { rewrite (src_executeDelete_eq _ _ _ Hthis) in Hb.
    destruct (deleteDoc a); [|discriminate]. apply finish_handlers in Hb. exact Hb. }
  destruct (String.eqb (action a) CLEAR).
  { rewrite (src_executeClear_eq _ _ _ Hthis) in Hb. apply finish_handlers in Hb.
    exact Hb. }
  discriminate.
Qed.

(** The handlers the build installs, by action. *)
Lemma dist_body_handlers this a w s w1 :
  heap w !! this = Some a ->
  Dist.execute_body this w = (Ok s, w1) ->
  handlers s =
  if String.eqb (action a) READ then Dist.read_handlers
  else Dist.on_transaction (dist_fallback (action a)).
Proof.
  intros Hthis Hb. apply (f_equal fst) in Hb. cbn [fst] in Hb.
  rewrite (dist_execute_body_eq _ _ _ Hthis) in Hb. unfold dist_fallback.
  destruct (String.eqb (action a) READ).
  { rewrite (dist_executeRead_eq _ _ _ Hthis) in Hb. apply finish_handlers in Hb.
    exact Hb. }
  destruct (String.eqb (action a) WRITE).
  { rewrite (dist_executeWrite_eq _ _ _ Hthis) in Hb.
    destruct (is_undefined (updateDoc a)); [discriminate|].
    apply finish_handlers in Hb. exact Hb. }
  destruct (String.eqb (action a) UPDATE).
  { rewrite (dist_executeUpdate_eq _ _ _ Hthis) in Hb.
    apply update_outcome_handlers in Hb. exact Hb. }
  destruct (String.eqb (action a) DELETE).
  { rewrite (dist_executeDelete_eq _ _ _ Hthis) in Hb.
    destruct (deleteDoc a); [|discriminate]. apply finish_handlers in Hb. exact Hb. }
  destruct (String.eqb (action a) CLEAR).
  { rewrite (dist_executeClear_eq _ _ _ Hthis) in Hb. apply finish_handlers in Hb.
    exact Hb. }
  discriminate.
Qed.

Lemma src_on_request_outcome g msg evs c :
  promise c = Pending ->
  promise (deliver (Src.on_request g msg) evs c) =
  match first_request_event evs with
  | Some (EvSuccess r) => Fulfilled (g r)
  | Some (EvError e) => Rejected (or_error e msg)
  | _ => Pending
  end.
Proof.
  revert c. induction evs as [|ev evs IH]; intros c Hc; [exact Hc|].
  rewrite deliver_cons.
  pose proof (src_on_request_step g msg c ev) as Hstep. rewrite Hc in Hstep.
  destruct ev; cbn [first_request_event];
    try (apply IH; exact Hstep);
    rewrite src_settled_stays; rewrite Hstep; congruence.
Qed.

Lemma dist_on_transaction_outcome msg evs c :
  promise c = Pending ->
  promise (deliver (Dist.on_transaction msg) evs c) =
  match first_deciding_event evs with
  | Some (EvError e) => Rejected (or_error e msg)
  | Some EvComplete => Fulfilled RUndefined
  | Some (EvTxError e) | Some (EvAbort e) => Rejected e
  | _ => Pending
  end.
Proof.
  revert c. induction evs as [|ev evs IH]; intros c Hc; [exact Hc|].
  rewrite deliver_cons.
  pose proof (dist_on_transaction_step msg c ev) as Hstep. rewrite Hc in Hstep.
  destruct ev; cbn [first_deciding_event];
    try (apply IH; exact Hstep);
    rewrite dist_settled_stays; rewrite Hstep; congruence.
Qed.

Lemma dist_read_outcome evs c :
  promise c = Pending ->
  promise (deliver Dist.read_handlers evs c) = read_outcome (result c) evs.
Proof.
  revert c. induction evs as [|ev evs IH]; intros c Hc; [exact Hc|].
  rewrite deliver_cons.
  destruct ev; cbn [read_outcome].
  - rewrite IH by exact Hc. reflexivity.
  - rewrite dist_read_settled_stays;
      rewrite dist_read_step, reject_promise, Hc; congruence.
  - rewrite dist_read_settled_stays; rewrite dist_read_step;
      destruct (result c); rewrite ?resolve_promise, ?reject_promise, Hc; congruence.
  - rewrite dist_read_settled_stays;
      rewrite dist_read_step, reject_promise, Hc; congruence.
  - rewrite dist_read_settled_stays;
      rewrite dist_read_step, reject_promise, Hc; congruence.
Qed.

(** X1. In the TypeScript source, whatever the action, the promise of a
    started request is decided by the first event of the request itself:
    its success fulfils (with the result set for READ, with nothing
    otherwise), its error rejects with [request.error] or, when that is
    null, with the executor's own "... failed with unknown error"; events
    of the transaction never matter, before or after. *)
Theorem X1_src_promise_follows_first_request_event this a w s w1 evs :
  heap w !! this = Some a ->
  Src.execute_body this w = (Ok s, w1) ->
  settle (handlers s) evs =
  match first_request_event evs with
  | Some (EvSuccess r) => Fulfilled (if String.eqb (action a) READ then r else RUndefined)
  | Some (EvError (Some e)) => Rejected (Some e)
  | Some (EvError None) => Rejected (Some (Error (src_fallback (action a))))
  | _ => Pending
  end.
Proof.
  intros Hthis Hb. rewrite (src_body_handlers _ _ _ _ _ Hthis Hb).
  unfold settle. rewrite src_on_request_outcome by reflexivity.
  destruct (first_request_event evs) as [[r|[e|]| | |]|]; reflexivity.
Qed.

Lemma X1_src_promise_follows_first_request_event_witness :
  exists s w1,
    Src.execute_body 0 (Sample.world CLEAR JUndefined) = (Ok s, w1) /\
    settle (handlers s) [EvTxError None; EvError None; EvComplete] =
    Rejected (Some (Error "Clear operation failed with unknown error")).
Proof.
  eexists. eexists. split; [vm_compute; reflexivity|].
  eapply (X1_src_promise_follows_first_request_event 0
           (Sample.instance CLEAR JUndefined) (Sample.world CLEAR JUndefined)).
  - reflexivity.
  - vm_compute. reflexivity.
Defined.

(** X2. In the build, the promise of a started WRITE, UPDATE, DELETE or
    CLEAR is decided by the first event that is not the request's success:
    the transaction's completion fulfils; the request's error rejects with
    [request.error] or the executor's own message; the transaction's error
    or abort rejects with [transaction.error], null included.  Successes
    of the request are ignored. *)
Theorem X2_dist_write_family_promise this a w s w1 evs :
  heap w !! this = Some a ->
  action a <> READ ->
  Dist.execute_body this w = (Ok s, w1) ->
  settle (handlers s) evs =
  match first_deciding_event evs with
  | Some EvComplete => Fulfilled RUndefined
  | Some (EvError (Some e)) => Rejected (Some e)
  | Some (EvError None) => Rejected (Some (Error (dist_fallback (action a))))
  | Some (EvTxError e) | Some (EvAbort e) => Rejected e
  | _ => Pending
  end.
Proof.
  intros Hthis Ha Hb. rewrite (dist_body_handlers _ _ _ _ _ Hthis Hb).
  apply String.eqb_neq in Ha. rewrite Ha.
  unfold settle. rewrite dist_on_transaction_outcome by reflexivity.
  destruct (first_deciding_event evs) as [[r|[e|]| | |]|]; reflexivity.
Qed.

Lemma X2_dist_write_family_promise_witness :
  exists s w1,
    Dist.execute_body 0 (Sample.world CLEAR JUndefined) = (Ok s, w1) /\
    settle (handlers s) [EvSuccess RUndefined; EvAbort None; EvComplete] =
    Rejected None.
Proof.
  eexists. eexists. split; [vm_compute; reflexivity|].
  eapply (X2_dist_write_family_promise 0
           (Sample.instance CLEAR JUndefined) (Sample.world CLEAR JUndefined)).
  - reflexivity.
  - discriminate.
  - vm_compute. reflexivity.
Defined.

(** X3. In the build, the promise of a started READ is [read_outcome]:
    successes only record the result; the first other event decides.  In
    particular a completion that no result preceded rejects with "Read
    operation completed without result", and the result delivered is that
    of the latest success before the completion. *)
Theorem X3_dist_read_promise this a w s w1 :
  heap w !! this = Some a ->
  action a = READ ->
  Dist.execute_body this w = (Ok s, w1) ->
  (forall evs, settle (handlers s) evs = read_outcome RUndefined evs) /\
  (forall rest,
     settle (handlers s) (EvComplete :: rest) =
     Rejected (Some (Error "Read operation completed without result"))) /\
  (forall r1 vs rest,
     settle (handlers s) (EvSuccess r1 :: EvSuccess (RArray vs) :: EvComplete :: rest) =
     Fulfilled (RArray vs)).
Proof.
  intros Hthis Ha Hb. rewrite (dist_body_handlers _ _ _ _ _ Hthis Hb).
  apply String.eqb_eq in Ha. rewrite Ha.
  assert (H : forall evs, settle Dist.read_handlers evs = read_outcome RUndefined evs).
  { intros evs. unfold settle. rewrite dist_read_outcome by reflexivity. reflexivity. }
  split; [exact H|]. split; intros; rewrite H; reflexivity.
Qed.

Lemma X3_dist_read_promise_witness :
  exists s w1,
    Dist.execute_body 0 (Sample.world READ JUndefined) = (Ok s, w1) /\
    settle (handlers s) [EvComplete] =
    Rejected (Some (Error "Read operation completed without result")).
Proof.
  eexists. eexists. split; [vm_compute; reflexivity|].
  eapply (X3_dist_read_promise 0
           (Sample.instance READ JUndefined) (Sample.world READ JUndefined)).
  - reflexivity.
  - reflexivity.
  - vm_compute. reflexivity.
Defined.

(** ** The setters, alone and in chains *)

Lemma call_setter_eq c this a w :
  heap w !! this = Some a ->
  match setter_effect c a with
  | Some a' => call_setter c this w = (Ok this, updated this a' w)
  | None => exists msg, call_setter c this w = (Throw (TypeError msg), w)
  end.
Proof.
  intros Hthis. destruct c as [v|v|doc|key]; cbn [setter_effect call_setter].
  - unfold configureIndexHint. destruct (nonempty_string v) as [n|]; cbn [option_map].
    + rewrite (bind_ok _ _ _ _ _ (write_this_ok _ _ _ _ Hthis)). reflexivity.
    + eexists. reflexivity.
  - unfold configureDurability. destruct (accepted_durability v) as [d|]; cbn [option_map].
    + rewrite (bind_ok _ _ _ _ _ (write_this_ok _ _ _ _ Hthis)). reflexivity.
    + eexists. reflexivity.
  - unfold setDocumentData.
    rewrite (bind_ok _ _ _ _ _ (write_this_ok _ _ _ _ Hthis)). reflexivity.
  - unfold setDeleteKey.
    rewrite (bind_ok _ _ _ _ _ (write_this_ok _ _ _ _ Hthis)). reflexivity.
Qed.

Lemma setter_effect_accepted c a :
  accepted c <-> is_Some (setter_effect c a).
Proof.
  destruct c as [v|v|doc|key]; cbn [accepted setter_effect].
  - destruct (nonempty_string v) as [n|] eqn:Hn; cbn [option_map].
    + split; [eauto|]. intros _. exists n. apply nonempty_string_spec. exact Hn.
    + split; [|intros [? ?]; discriminate].
      intros Hv. apply nonempty_string_none in Hn. contradiction.
  - destruct (accepted_durability v) as [d|] eqn:Hd; cbn [option_map].
    + split; [eauto|]. intros _.
      apply accepted_durability_spec in Hd as [[-> _] | [-> _]]; [left | right];
        reflexivity.
    + split; [|intros [? ?]; discriminate].
      intros [-> | ->]; discriminate Hd.
  - split; eauto.
  - split; eauto.
Qed.

(** X4. [configureIndexHint] goes through exactly for a non-empty string,
    and [configureDurability] exactly for the strings "strict" and
    "relaxed" ("default", any other string and any non-string are
    refused); the durability stored is the one named.  A refusal is a
    TypeError. *)
Theorem X4_setters_accept_exactly this a w v :
  heap w !! this = Some a ->
  ((exists l w', configureIndexHint this v w = (Ok l, w')) <-> nonempty_name v) /\
  ((exists l w', configureDurability this v w = (Ok l, w')) <->
   v = JStr "strict" \/ v = JStr "relaxed") /\
  (forall l w' a',
     configureDurability this v w = (Ok l, w') -> heap w' !! this = Some a' ->
     (v = JStr "strict" /\ durability a' = strict) \/
     (v = JStr "relaxed" /\ durability a' = relaxed)) /\
  (forall e w', configureIndexHint this v w = (Throw e, w') -> ename e = "TypeError") /\
  (forall e w', configureDurability this v w = (Throw e, w') -> ename e = "TypeError").
Proof.
  intros Hthis.
  pose proof (call_setter_eq (IndexHint v) this a w Hthis) as Hi.
  pose proof (call_setter_eq (Durability v) this a w Hthis) as Hd.
  pose proof (setter_effect_accepted (IndexHint v) a) as Ai.
  pose proof (setter_effect_accepted (Durability v) a) as Ad.
  cbn [call_setter accepted] in *.
  split; [|split; [|split; [|split]]].
  - rewrite Ai. destruct (setter_effect (IndexHint v) a) as [a'|].
    + rewrite Hi. split; eauto.
    + destruct Hi as [msg Hi]. rewrite Hi.
      split; [intros (? & ? & ?); discriminate | intros [? ?]; discriminate].
  - rewrite Ad. destruct (setter_effect (Durability v) a) as [a'|].
    + rewrite Hd. split; eauto.
    + destruct Hd as [msg Hd]. rewrite Hd.
      split; [intros (? & ? & ?); discriminate | intros [? ?]; discriminate].
  - intros l w' a' Hc Ha'. cbn [setter_effect] in Hd.
    destruct (accepted_durability v) as [d|] eqn:Hv; cbn [option_map] in Hd.
    + rewrite Hd in Hc. inversion Hc. subst l w'.
      rewrite updated_this in Ha'. inversion Ha'. subst a'.
      apply accepted_durability_spec in Hv as [[-> ->] | [-> ->]];
        [left | right]; split; reflexivity.
    + destruct Hd as [msg Hd]. rewrite Hd in Hc. discriminate.
  - intros e w' Hc. destruct (setter_effect (IndexHint v) a).
    + rewrite Hi in Hc. discriminate.
    + destruct Hi as [msg Hi]. rewrite Hi in Hc. inversion Hc. reflexivity.
  - intros e w' Hc. destruct (setter_effect (Durability v) a).
    + rewrite Hd in Hc. discriminate.
    + destruct Hd as [msg Hd]. rewrite Hd in Hc. inversion Hc. reflexivity.
Qed.

Lemma X4_setters_accept_exactly_witness :
  (exists l w',
     configureDurability 0 (JStr "default") (Sample.world WRITE JUndefined) = (Ok l, w')) <->
  JStr "default" = JStr "strict" \/ JStr "default" = JStr "relaxed".
Proof.
  apply (X4_setters_accept_exactly 0 (Sample.instance WRITE JUndefined)
           (Sample.world WRITE JUndefined) (JStr "default")).
  reflexivity.
Defined.

Lemma setter_effect_well_formed act h name c a a' :
  well_formed act h name a ->
  setter_effect c a = Some a' ->
  well_formed act h name a'.
Proof.
  intros (Ha & Hh & Hn & Hne & Hi & Hd) He.
  destruct c as [v|v|doc|key]; cbn [setter_effect] in He.
  - destruct (nonempty_string v) as [n|] eqn:Hv; [|discriminate].
    inversion He. subst a'. apply nonempty_string_spec in Hv as [_ Hv].
    repeat split; try assumption. cbn. congruence.
  - destruct (accepted_durability v) as [d|] eqn:Hv; [|discriminate].
    inversion He. subst a'.
    apply accepted_durability_spec in Hv as [[_ ->] | [_ ->]];
      repeat split; try assumption; discriminate.
  - inversion He. subst a'. repeat split; assumption.
  - inversion He. subst a'. repeat split; assumption.
Qed.

Lemma chain_well_formed act h name cs :
  forall this a w r w1,
    heap w !! this = Some a ->
    well_formed act h name a ->
    chain cs this w = (r, w1) ->
    (exists a1, heap w1 !! this = Some a1 /\ well_formed act h name a1) /\
    (forall l, r = Ok l -> l = this) /\
    databases w1 = databases w /\ journal w1 = journal w /\
    (forall other, other <> this -> heap w1 !! other = heap w !! other).
Proof.
  induction cs as [|c cs IH]; intros this a w r w1 Hthis Hwf Hc.
  - cbn in Hc. inversion Hc. subst. repeat split; eauto.
    intros l E. inversion E. reflexivity.
  - cbn [chain] in Hc. unfold bind in Hc.
    pose proof (call_setter_eq c this a w Hthis) as Hs.
    destruct (setter_effect c a) as [a'|] eqn:He.
    + rewrite Hs in Hc.
      destruct (IH this a' (updated this a' w) r w1 (updated_this _ _ _)
                  (setter_effect_well_formed _ _ _ _ _ _ Hwf He) Hc)
        as (Hex & Hl & Hdb & Hj & Ho).
      repeat split; try assumption.
      intros other Hne. rewrite (Ho other Hne). apply lookup_insert_ne. congruence.
    + destruct Hs as [msg Hs]. rewrite Hs in Hc. inversion Hc. subst.
      repeat split; eauto. intros l E. discriminate E.
Qed.

(** X5. Whatever chain of setter calls follows a construction, with
    accepted and refused arguments in any order, the instance keeps the
    action, handle and collection name it was constructed with, its name
    and its index hint are never the empty string, its durability is
    strict or relaxed, never "default"; every setter that returns, returns
    the instance itself; no other instance, no database and no native call
    is involved. *)
Theorem X5_configuration_keeps_instance_well_formed act d name w this w0 cs r w1 :
  new_DbAction act d name w = (Ok this, w0) ->
  chain cs this w0 = (r, w1) ->
  exists h s a,
    d = AnIDBDatabase h /\ name = JStr s /\
    heap w1 !! this = Some a /\ well_formed act h s a /\
    (forall l, r = Ok l -> l = this) /\
    databases w1 = databases w /\ journal w1 = journal w /\
    (forall other, other <> this -> heap w1 !! other = heap w !! other).
Proof.
  intros Hnew Hc. unfold new_DbAction in Hnew.
  destruct d as [h|v]; [|discriminate].
  destruct (nonempty_string name) as [s|] eqn:Hn; [|discriminate].
  apply nonempty_string_spec in Hn as [-> Hs].
  unfold alloc in Hnew. inversion Hnew. subst this w0. clear Hnew.
  set (this := fresh (dom (heap w))) in *.
  set (a0 := {| action := act; databaseInstance := h; storeName := s;
                hintIndex := None; durability := relaxed;
                updateDoc := JUndefined; deleteDoc := None |}) in *.
  assert (Hwf : well_formed act h s a0).
  { repeat split; try assumption; discriminate. }
  destruct (chain_well_formed act h s cs this a0 _ r w1 (updated_this this a0 w) Hwf Hc)
    as ((a1 & Ha1 & Hwf1) & Hl & Hdb & Hj & Ho).
  exists h, s, a1. repeat split; try assumption; try apply Hwf1.
  intros other Hne. rewrite (Ho other Hne). apply lookup_insert_ne. congruence.
Qed.

Lemma X5_configuration_keeps_instance_well_formed_witness :
  exists h s a,
    AnIDBDatabase 0 = AnIDBDatabase h /\ JStr "users" = JStr s /\
    heap (snd (chain [Durability (JStr "strict"); IndexHint (JStr EmptyString);
                      DocumentData Sample.alice] 0
                 (snd (new_DbAction WRITE (AnIDBDatabase 0) (JStr "users")
                         (mkWorld ∅ {[ 0 := Sample.db ]} []))))) !! 0 = Some a /\
    well_formed WRITE h s a.
Proof.
  destruct (X5_configuration_keeps_instance_well_formed
              WRITE (AnIDBDatabase 0) (JStr "users")
              (mkWorld ∅ {[ 0 := Sample.db ]} []) 0
              (snd (new_DbAction WRITE (AnIDBDatabase 0) (JStr "users")
                      (mkWorld ∅ {[ 0 := Sample.db ]} [])))
              [Durability (JStr "strict"); IndexHint (JStr EmptyString);
               DocumentData Sample.alice]
              (fst (chain [Durability (JStr "strict"); IndexHint (JStr EmptyString);
                           DocumentData Sample.alice] 0
                      (snd (new_DbAction WRITE (AnIDBDatabase 0) (JStr "users")
                              (mkWorld ∅ {[ 0 := Sample.db ]} [])))))
              (snd (chain [Durability (JStr "strict"); IndexHint (JStr EmptyString);
                           DocumentData Sample.alice] 0
                      (snd (new_DbAction WRITE (AnIDBDatabase 0) (JStr "users")
                              (mkWorld ∅ {[ 0 := Sample.db ]} []))))))
    as (h & s & a & Hd & Hn & Ha & Hwf & _).
  - vm_compute. reflexivity.
  - vm_compute. reflexivity.
  - exists h, s, a. repeat split; try assumption; apply Hwf.
Defined.

Lemma updated_twice this a1 a2 w :
  updated this a2 (updated this a1 w) = updated this a2 w.
Proof. unfold updated. cbn [heap databases journal]. rewrite insert_insert_eq. reflexivity. Qed.

Lemma setter_effects_commute c1 c2 a a1 a2 :
  same_setter c1 c2 = false ->
  setter_effect c1 a = Some a1 ->
  setter_effect c2 a = Some a2 ->
  exists a12,
    setter_effect c2 a1 = Some a12 /\ setter_effect c1 a2 = Some a12.
Proof.
  intros Hs H1 H2.
  destruct c1 as [v1|v1|d1|k1]; destruct c2 as [v2|v2|d2|k2]; try discriminate Hs;
    cbn [setter_effect] in *;
    repeat match goal with
           | H : option_map _ ?x = Some _ |- _ =>
               destruct x eqn:?; cbn [option_map] in H; [|discriminate H]
           end;
    inversion H1; inversion H2; subst; cbn [option_map];
    eexists; split; reflexivity.
Qed.

Lemma setter_effect_overwrites c1 c2 a a1 a2 :
  same_setter c1 c2 = true ->
  setter_effect c1 a = Some a1 ->
  setter_effect c2 a = Some a2 ->
  setter_effect c2 a1 = Some a2.
Proof.
  intros Hs H1 H2.
  destruct c1 as [v1|v1|d1|k1]; destruct c2 as [v2|v2|d2|k2]; try discriminate Hs;
    cbn [setter_effect] in *;
    repeat match goal with
           | H : option_map _ ?x = Some _ |- _ =>
               destruct x eqn:?; cbn [option_map] in H; [|discriminate H]
           end;
    inversion H1; inversion H2; subst; reflexivity.
Qed.

(** X6. For arguments the setters accept: two different setters can be
    chained in either order with the same outcome (the reference returned
    and the whole world), and of two calls of the same setter the later
    one alone counts. *)
Theorem X6_setters_commute_and_overwrite this a w c1 c2 :
  heap w !! this = Some a ->
  accepted c1 ->
  accepted c2 ->
  (same_setter c1 c2 = false ->
   chain [c1; c2] this w = chain [c2; c1] this w) /\
  (same_setter c1 c2 = true ->
   chain [c1; c2] this w = chain [c2] this w).
Proof.
  intros Hthis A1 A2.
  apply (setter_effect_accepted c1 a) in A1 as [a1 E1].
  apply (setter_effect_accepted c2 a) in A2 as [a2 E2].
  pose proof (call_setter_eq c1 this a w Hthis) as H1. rewrite E1 in H1.
  pose proof (call_setter_eq c2 this a w Hthis) as H2. rewrite E2 in H2.
  cbn [chain]. split; intros Hs.
  - destruct (setter_effects_commute _ _ _ _ _ Hs E1 E2) as (a12 & E12 & E21).
    pose proof (call_setter_eq c2 this a1 _ (updated_this this a1 w)) as H12.
    rewrite E12 in H12.
    pose proof (call_setter_eq c1 this a2 _ (updated_this this a2 w)) as H21.
    rewrite E21 in H21.
    rewrite (bind_ok _ _ _ _ _ H1), (bind_ok _ _ _ _ _ H12).
    rewrite (bind_ok _ _ _ _ _ H2), (bind_ok _ _ _ _ _ H21).
    rewrite !updated_twice. reflexivity.
  - pose proof (setter_effect_overwrites _ _ _ _ _ Hs E1 E2) as E12.
    pose proof (call_setter_eq c2 this a1 _ (updated_this this a1 w)) as H12.
    rewrite E12 in H12.
    rewrite (bind_ok _ _ _ _ _ H1), (bind_ok _ _ _ _ _ H12), (bind_ok _ _ _ _ _ H2).
    rewrite updated_twice. reflexivity.
Qed.

Lemma X6_setters_commute_and_overwrite_witness :
  chain [DocumentData Sample.alice; Durability (JStr "strict")] 0
        (Sample.world WRITE JUndefined) =
  chain [Durability (JStr "strict"); DocumentData Sample.alice] 0
        (Sample.world WRITE JUndefined).
Proof.
  apply (X6_setters_commute_and_overwrite 0 (Sample.instance WRITE JUndefined)
           (Sample.world WRITE JUndefined)
           (DocumentData Sample.alice) (Durability (JStr "strict"))).
  - reflexivity.
  - exact I.
  - left. reflexivity.
  - reflexivity.
Defined.

(** ** The native calls of one [execute] *)

Lemma chosen_source_transaction a mode allowIndex st :
  source_transaction (chosen_source a mode allowIndex st) = opened a mode.
Proof. unfold chosen_source. destruct (usable_hint a allowIndex st); reflexivity. Qed.

Lemma attempt_calls a mode allowIndex op w :
  snd (attempt a mode allowIndex op w) = [CallTransaction (opened a mode)] \/
  exists src,
    source_transaction src = opened a mode /\ source_store src = storeName a /\
    snd (attempt a mode allowIndex op w) =
      [CallTransaction (opened a mode); CallRequest (mkRequest src op)].
Proof.
  unfold attempt. destruct (resolved a mode allowIndex w) as [src|e] eqn:Hres.
  - right. destruct (resolved_inv _ _ _ _ _ Hres) as (db & st & _ & _ & _ & ->).
    eexists. split; [apply chosen_source_transaction|].
    split; [apply chosen_source_database | reflexivity].
  - left. reflexivity.
Qed.

Section OneRequest.

Variables (a : DbAction) (w : World).

Lemma one_request_none : at_most_one_request a w w.
Proof. left. reflexivity. Qed.

Lemma one_request_open mode :
  transaction_of a = opened a mode ->
  at_most_one_request a w (after_open a mode w).
Proof. intros E. right. left. rewrite E. reflexivity. Qed.

Lemma one_request_finish h mode allowIndex op :
  transaction_of a = opened a mode ->
  operation_of a = Some op ->
  at_most_one_request a w (snd (finish h (attempt a mode allowIndex op w) w)).
Proof.
  intros E Hop. unfold at_most_one_request, finish.
  cbn [snd after_calls journal]. rewrite E.
  destruct (attempt_calls a mode allowIndex op w) as [-> | (src & Ht & Hs & ->)].
  - right. left. reflexivity.
  - right. right. exists src, op. repeat split; assumption.
Qed.

Lemma one_request_update h :
  transaction_of a = opened a readwrite ->
  operation_of a = Some (OpPut (updateDoc a)) ->
  at_most_one_request a w (snd (update_outcome h a w)).
Proof.
  intros E Hop. unfold update_outcome.
  destruct (is_undefined (updateDoc a)); [apply one_request_none|].
  destruct (resolved a readwrite false w) as [src|e];
    [|apply one_request_open; exact E].
  destruct (target_store a w) as [st|]; [|apply one_request_open; exact E].
  destruct (keyPath st) as [|p|ps]; try (apply one_request_open; exact E).
  destruct (js_in p (updateDoc a)) as [present|e];
    [|apply one_request_open; exact E].
  destruct (negb present || _);
    [apply one_request_open; exact E | apply one_request_finish; assumption].
Qed.

End OneRequest.

Lemma src_one_request this a w :
  heap w !! this = Some a ->
  at_most_one_request a w (snd (Src.execute_body this w)).
Proof.
  intros Hthis. rewrite (src_execute_body_eq _ _ _ Hthis).
  destruct (String.eqb (action a) READ) eqn:Hr.
  { rewrite (src_executeRead_eq _ _ _ Hthis).
    apply one_request_finish; unfold transaction_of, operation_of; rewrite Hr;
      reflexivity. }
  destruct (String.eqb (action a) WRITE) eqn:Hw.
  { rewrite (src_executeWrite_eq _ _ _ Hthis).
    assert (E : transaction_of a = opened a readwrite)
      by (unfold transaction_of; rewrite Hr; reflexivity).
    destruct (resolved a readwrite false w); [|apply one_request_open; exact E].
    destruct (is_undefined (updateDoc a)); [apply one_request_open; exact E|].
    apply one_request_finish; [exact E|].
    unfold operation_of. rewrite Hr, Hw. reflexivity. }
  destruct (String.eqb (action a) UPDATE) eqn:Hu.
  { rewrite (src_executeUpdate_eq _ _ _ Hthis).
    apply one_request_update; unfold transaction_of, operation_of;
      rewrite Hr, ?Hw, ?Hu; reflexivity. }
  destruct (String.eqb (action a) DELETE) eqn:Hd.
  { rewrite (src_executeDelete_eq _ _ _ Hthis).
    destruct (deleteDoc a) as [key|] eqn:Hk; [|apply one_request_none].
    apply one_request_finish; unfold transaction_of, operation_of;
      rewrite Hr, ?Hw, ?Hu, ?Hd, ?Hk; reflexivity. }
  destruct (String.eqb (action a) CLEAR) eqn:Hc.
  { rewrite (src_executeClear_eq _ _ _ Hthis).
    apply one_request_finish; unfold transaction_of, operation_of;
      rewrite Hr, ?Hw, ?Hu, ?Hd, ?Hc; reflexivity. }
  apply one_request_none.
Qed.

Lemma dist_one_request this a w :
  heap w !! this = Some a ->
  at_most_one_request a w (snd (Dist.execute_body this w)).
Proof.
  intros Hthis. rewrite (dist_execute_body_eq _ _ _ Hthis).
  destruct (String.eqb (action a) READ) eqn:Hr.
  { rewrite (dist_executeRead_eq _ _ _ Hthis).
    apply one_request_finish; unfold transaction_of, operation_of; rewrite Hr;
      reflexivity. }
  destruct (String.eqb (action a) WRITE) eqn:Hw.
  { rewrite (dist_executeWrite_eq _ _ _ Hthis).
    destruct (is_undefined (updateDoc a)); [apply one_request_none|].
    apply one_request_finish; unfold transaction_of, operation_of;
      rewrite Hr, ?Hw; reflexivity. }
  destruct (String.eqb (action a) UPDATE) eqn:Hu.
  { rewrite (dist_executeUpdate_eq _ _ _ Hthis).
    apply one_request_update; unfold transaction_of, operation_of;
      rewrite Hr, ?Hw, ?Hu; reflexivity. }
  destruct (String.eqb (action a) DELETE) eqn:Hd.
  { rewrite (dist_executeDelete_eq _ _ _ Hthis).
    destruct (deleteDoc a) as [key|] eqn:Hk; [|apply one_request_none].
    apply one_request_finish; unfold transaction_of, operation_of;
      rewrite Hr, ?Hw, ?Hu, ?Hd, ?Hk; reflexivity. }
  destruct (String.eqb (action a) CLEAR) eqn:Hc.
  { rewrite (dist_executeClear_eq _ _ _ Hthis).
    apply one_request_finish; unfold transaction_of, operation_of;
      rewrite Hr, ?Hw, ?Hu, ?Hd, ?Hc; reflexivity. }
  apply one_request_none.
Qed.

Lemma async_call_journal body f w :
  journal (snd (async_call body f w)) = journal (snd (body w)).
Proof.
  unfold async_call. destruct (body w) as [[s|e] w1]; [|reflexivity].
  destruct (databases w1 !! _); [|reflexivity].
  destruct (Engine.run _ _ _). reflexivity.
Qed.

(** X7. In any world, one [execute] makes no native call, or opens one
    transaction, or opens one transaction and makes one request in it:
    never two of either.  The transaction is on the instance's database,
    scoped to its one store, readonly for READ and readwrite otherwise,
    with the configured durability; the request is the one of the action
    ([getAll], [add] of the payload, [put] of the payload, [delete] of the
    key, [clear]) on that store or an index of it.  The source and the
    build agree. *)
Theorem X7_at_most_one_transaction_and_request this a w f :
  heap w !! this = Some a ->
  at_most_one_request a w (snd (Src.execute this f w)) /\
  at_most_one_request a w (snd (Dist.execute this f w)).
Proof.
  intros Hthis. unfold at_most_one_request, Src.execute, Dist.execute.
  rewrite !async_call_journal. split.
  - apply src_one_request. exact Hthis.
  - apply dist_one_request. exact Hthis.
Qed.

Lemma X7_at_most_one_transaction_and_request_witness :
  at_most_one_request (Sample.instance DELETE JUndefined)
    (Sample.world DELETE JUndefined)
    (snd (Src.execute 0 CommitOk (Sample.world DELETE JUndefined))).
Proof.
  apply (X7_at_most_one_transaction_and_request 0 (Sample.instance DELETE JUndefined)
           (Sample.world DELETE JUndefined) CommitOk).
  reflexivity.
Defined.

(** ** The guards of the build *)

Lemma guard_error_name e : e ∈ index_guard_errors -> ename e = "Error".
Proof.
  unfold index_guard_errors. intros H.
  repeat (apply elem_of_cons in H as [-> | H]; [reflexivity|]).
  apply elem_of_nil in H. contradiction.
Qed.

Lemma vet_transaction_error_name db tx e :
  vet_transaction db tx = Throw e -> ename e <> "Error".
Proof.
  unfold vet_transaction. destruct (closed db); [intros E; inversion E; discriminate|].
  destruct (forallb _ _); [|intros E; inversion E; discriminate].
  destruct (txStoreNames tx); intros E; inversion E; discriminate.
Qed.

Lemma vet_request_error_name db r e :
  vet_request db r = Throw e -> ename e <> "Error".
Proof.
  unfold vet_request. destruct (_ && _); [intros E; inversion E; discriminate|].
  destruct (objectStores db !! _) as [st|]; [|intros E; inversion E; discriminate].
  destruct (reqOp r); try discriminate;
    destruct (extract_key _ _); try discriminate; intros E; inversion E; discriminate.
Qed.

Lemma resolved_error_name a mode allowIndex w e :
  resolved a mode allowIndex w = Throw e -> ename e <> "Error".
Proof.
  unfold resolved.
  destruct (databases w !! databaseInstance a) as [db|];
    [|intros E; inversion E; discriminate].
  destruct (vet_transaction db (opened a mode)) as [[]|e'] eqn:Hv.
  - destruct (objectStores db !! storeName a); [discriminate|].
    intros E. inversion E. discriminate.
  - intros E. inversion E. subst. eapply vet_transaction_error_name. exact Hv.
Qed.

Lemma attempt_error_name a mode allowIndex op w e :
  fst (attempt a mode allowIndex op w) = Throw e -> ename e <> "Error".
Proof.
  unfold attempt. destruct (resolved a mode allowIndex w) as [src|e'] eqn:Hres.
  - cbv zeta. cbn [fst].
    destruct (databases w !! databaseInstance a) as [db|];
      [|intros E; inversion E; discriminate].
    destruct (vet_request db _) as [[]|e''] eqn:Hv; [discriminate|].
    intros E. inversion E. subst. eapply vet_request_error_name. exact Hv.
  - cbn [fst]. intros E. inversion E. subst.
    eapply resolved_error_name. exact Hres.
Qed.

Lemma finish_error h x w e :
  fst (finish h x w) = Throw e -> fst x = Throw e.
Proof.
  unfold finish. cbn [fst]. destruct (fst x); [discriminate|].
  intros E. inversion E. reflexivity.
Qed.

Ltac not_a_guard :=
  let H := fresh "Hin" in
  intros H; unfold index_guard_errors in H;
  repeat (apply elem_of_cons in H as [H | H];
          [first [discriminate H | cbv in H; discriminate H]|]);
  apply elem_of_nil in H; exact H.

Lemma named_not_a_guard e : ename e <> "Error" -> e ∉ index_guard_errors.
Proof. intros Hn Hin. apply Hn. apply guard_error_name. exact Hin. Qed.

Lemma update_outcome_no_guard h a w e :
  fst (update_outcome h a w) = Throw e -> e ∉ index_guard_errors.
Proof.
  unfold update_outcome.
  destruct (is_undefined (updateDoc a)); [intros E; inversion E; not_a_guard|].
  destruct (resolved a readwrite false w) as [src|e'] eqn:Hres.
  2:{ intros E. inversion E. subst. apply named_not_a_guard.
      eapply resolved_error_name. exact Hres. }
  destruct (target_store a w) as [st|]; [|intros E; inversion E; not_a_guard].
  destruct (keyPath st) as [|p|ps]; try (intros E; inversion E; not_a_guard).
  destruct (js_in p (updateDoc a)) as [present|e'] eqn:Hin.
  - destruct (negb present || _).
    + intros E. inversion E. unfold missing_primary_key. not_a_guard.
    + intros E. apply finish_error in E. apply named_not_a_guard.
      eapply attempt_error_name. exact E.
  - intros E. inversion E. subst. destruct (updateDoc a); inversion Hin; not_a_guard.
Qed.

(** X8. [resolveStoreOrIndex] called with [allowIndex] false never
    returns an index, in the source and in the build.  So the source's
    casts to [IDBObjectStore] are right, and the build's four guards
    "... operations require an IDBObjectStore, not an IDBIndex" never
    fire: no [execute] of the build throws one of these errors. *)
Theorem X8_no_index_outside_read this mode w :
  (forall src w1,
     Src.resolveStoreOrIndex this mode false w = (Ok src, w1) ->
     instanceof_IDBObjectStore src = true) /\
  (forall src tx w1,
     Dist.resolveStoreOrIndex this mode false w = (Ok (src, tx), w1) ->
     instanceof_IDBObjectStore src = true /\ tx = source_transaction src) /\
  (forall e w1,
     Dist.execute_body this w = (Throw e, w1) -> e ∉ index_guard_errors).
Proof.
  destruct (heap w !! this) as [a|] eqn:Hthis.
  - split; [|split].
    + intros src w1 H. rewrite (src_resolve_eq _ _ _ _ _ Hthis) in H.
      inversion H as [[Hres Hw]].
      destruct (resolved_inv _ _ _ _ _ Hres) as (db & st & _ & _ & _ & ->).
      reflexivity.
    + intros src tx w1 H. rewrite (dist_resolve_eq _ _ _ _ _ Hthis) in H.
      destruct (resolved a mode false w) as [src'|e] eqn:Hres; [|discriminate].
      inversion H. subst.
      destruct (resolved_inv _ _ _ _ _ Hres) as (db & st & _ & _ & _ & ->).
      split; reflexivity.
    + intros e w1 H. apply (f_equal fst) in H. cbn [fst] in H.
      rewrite (dist_execute_body_eq _ _ _ Hthis) in H.
      destruct (String.eqb (action a) READ).
      { rewrite (dist_executeRead_eq _ _ _ Hthis) in H. apply finish_error in H.
        apply named_not_a_guard. eapply attempt_error_name. exact H. }
      destruct (String.eqb (action a) WRITE).
      { rewrite (dist_executeWrite_eq _ _ _ Hthis) in H.
        destruct (is_undefined (updateDoc a)); [inversion H; not_a_guard|].
        apply finish_error in H.
        apply named_not_a_guard. eapply attempt_error_name. exact H. }
      destruct (String.eqb (action a) UPDATE).
      { rewrite (dist_executeUpdate_eq _ _ _ Hthis) in H.
        eapply update_outcome_no_guard. exact H. }
      destruct (String.eqb (action a) DELETE).
      { rewrite (dist_executeDelete_eq _ _ _ Hthis) in H.
        destruct (deleteDoc a); [|inversion H; not_a_guard].
        apply finish_error in H.
        apply named_not_a_guard. eapply attempt_error_name. exact H. }
      destruct (String.eqb (action a) CLEAR).
      { rewrite (dist_executeClear_eq _ _ _ Hthis) in H. apply finish_error in H.
        apply named_not_a_guard. eapply attempt_error_name. exact H. }
      inversion H. unfold unrecognized_action. not_a_guard.
  - assert (Hr : forall A (k : DbAction -> M A),
              bind (read_this this) k w =
              (Throw (TypeError "Cannot read properties of undefined"), w)).
    { intros A k. unfold bind, read_this. rewrite Hthis. reflexivity. }
    split; [|split].
    + intros src w1 H. unfold Src.resolveStoreOrIndex in H. rewrite Hr in H.
      discriminate.
    + intros src tx w1 H. unfold Dist.resolveStoreOrIndex in H. rewrite Hr in H.
      discriminate.
    + intros e w1 H. unfold Dist.execute_body in H. rewrite Hr in H.
      inversion H. not_a_guard.
Qed.

Lemma X8_no_index_outside_read_witness :
  exists e,
    fst (Dist.execute_body 0 (Sample.hinting WRITE JUndefined)) = Throw e /\
    e ∉ index_guard_errors.
Proof.
  eexists. split; [vm_compute; reflexivity|].
  eapply (X8_no_index_outside_read 0 readwrite (Sample.hinting WRITE JUndefined)).
  vm_compute. reflexivity.
Defined.

(** ** When the transaction cannot be opened *)

Lemma resolved_refused a mode allowIndex w db e :
  databases w !! databaseInstance a = Some db ->
  vet_transaction db (opened a mode) = Throw e ->
  resolved a mode allowIndex w = Throw e.
Proof. intros Hdb Hv. unfold resolved. rewrite Hdb, Hv. reflexivity. Qed.

Lemma is_undefined_false v : v <> JUndefined -> is_undefined v = false.
Proof. destruct v; [contradiction | reflexivity..]. Qed.

Ltac by_action Ha :=
  rewrite Ha; cbn [String.eqb READ WRITE UPDATE DELETE CLEAR Ascii.eqb Bool.eqb].

(** X9. When [db.transaction] throws (a closed connection, a store the
    database does not have), [execute] rejects with that very error,
    having made this one native call and no request.  In the source this
    holds for a WRITE even without payload, as the transaction is opened
    first; in the build a WRITE without payload rejects with "Document
    data is required for write operations" and makes no call at all.
    UPDATE and DELETE check their payload and key before the transaction
    in both. *)
Theorem X9_transaction_error_is_the_rejection this a w db e f :
  heap w !! this = Some a ->
  action a ∈ Object_values DB_ACTIONS ->
  databases w !! databaseInstance a = Some db ->
  vet_transaction db (transaction_of a) = Throw e ->
  ((action a = UPDATE -> updateDoc a <> JUndefined) ->
   (action a = DELETE -> deleteDoc a <> None) ->
   Src.execute this f w =
   (Rejected (Some e), after_calls [CallTransaction (transaction_of a)] w)) /\
  ((action a = WRITE \/ action a = UPDATE -> updateDoc a <> JUndefined) ->
   (action a = DELETE -> deleteDoc a <> None) ->
   Dist.execute this f w =
   (Rejected (Some e), after_calls [CallTransaction (transaction_of a)] w)) /\
  (action a = WRITE -> updateDoc a = JUndefined ->
   Dist.execute this f w =
   (Rejected (Some (Error "Document data is required for write operations")), w)).
Proof.
  intros Hthis Hact Hdb Hv.
  assert (Hres : forall allowIndex,
            resolved a (if String.eqb (action a) READ then readonly else readwrite)
                     allowIndex w = Throw e).
  { intros allowIndex. eapply resolved_refused; eassumption. }
  unfold transaction_of in *. unfold Object_values, DB_ACTIONS in Hact.
  cbn [map snd] in Hact.
  split; [|split].
  - intros Hu Hd. unfold Src.execute. apply async_call_throw.
    rewrite (src_execute_body_eq _ _ _ Hthis).
    repeat (apply elem_of_cons in Hact as [Ha | Hact]);
      [| | | | | apply elem_of_nil in Hact; contradiction];
      revert Hres; by_action Ha; intros Hres.
    + rewrite (src_executeRead_eq _ _ _ Hthis). apply finish_resolve_throw, Hres.
    + rewrite (src_executeWrite_eq _ _ _ Hthis), Hres. reflexivity.
    + rewrite (src_executeUpdate_eq _ _ _ Hthis). unfold update_outcome.
      rewrite (is_undefined_false _ (Hu Ha)), Hres. reflexivity.
    + rewrite (src_executeDelete_eq _ _ _ Hthis).
      destruct (deleteDoc a) as [key|] eqn:Hk; [|exfalso; apply (Hd Ha); reflexivity].
      apply finish_resolve_throw, Hres.
    + rewrite (src_executeClear_eq _ _ _ Hthis). apply finish_resolve_throw, Hres.
  - intros Hu Hd. unfold Dist.execute. apply async_call_throw.
    rewrite (dist_execute_body_eq _ _ _ Hthis).
    repeat (apply elem_of_cons in Hact as [Ha | Hact]);
      [| | | | | apply elem_of_nil in Hact; contradiction];
      revert Hres; by_action Ha; intros Hres.
    + rewrite (dist_executeRead_eq _ _ _ Hthis). apply finish_resolve_throw, Hres.
    + rewrite (dist_executeWrite_eq _ _ _ Hthis).
      rewrite (is_undefined_false _ (Hu (or_introl Ha))).
      apply finish_resolve_throw, Hres.
    + rewrite (dist_executeUpdate_eq _ _ _ Hthis). unfold update_outcome.
      rewrite (is_undefined_false _ (Hu (or_intror Ha))), Hres. reflexivity.
    + rewrite (dist_executeDelete_eq _ _ _ Hthis).
      destruct (deleteDoc a) as [key|] eqn:Hk; [|exfalso; apply (Hd Ha); reflexivity].
      apply finish_resolve_throw, Hres.
    + rewrite (dist_executeClear_eq _ _ _ Hthis). apply finish_resolve_throw, Hres.
  - intros Ha Hu. unfold Dist.execute. apply async_call_throw.
    rewrite (dist_execute_body_eq _ _ _ Hthis). by_action Ha.
    rewrite (dist_executeWrite_eq _ _ _ Hthis), Hu. reflexivity.
Qed.

Lemma X9_transaction_error_is_the_rejection_witness :
  fst (Src.execute 0 CommitOk closed_world) =
    Rejected (Some (DOMException "InvalidStateError"
                      "The database connection is closing.")) /\
  fst (Dist.execute 0 CommitOk closed_world) =
    Rejected (Some (Error "Document data is required for write operations")).
Proof.
  destruct (X9_transaction_error_is_the_rejection 0
              (Sample.instance WRITE JUndefined) closed_world
              (mkDatabase true {[ "users" := Sample.users ]})
              (DOMException "InvalidStateError" "The database connection is closing.")
              CommitOk) as (Hs & _ & Hd).
  - reflexivity.
  - unfold Object_values, DB_ACTIONS. cbn [map snd].
    apply list_elem_of_further, list_elem_of_here.
  - reflexivity.
  - reflexivity.
  - split.
    + rewrite Hs; [reflexivity | discriminate | discriminate].
    + rewrite Hd; reflexivity.
Defined.

(** ** The order of keys *)

Lemma key_compare_antisym : forall a b, key_compare b a = CompOpp (key_compare a b).
Proof.
  fix IH 1. intros [x|s|xs] [y|t|ys]; try reflexivity.
  - cbn [key_compare]. apply Z.compare_antisym.
  - cbn [key_compare]. apply String.compare_antisym.
  - cbn [key_compare]. revert ys.
    induction xs as [|x xs IHxs]; intros [|y ys]; try reflexivity.
    rewrite (IH x y). destruct (key_compare x y); cbn [CompOpp]; try reflexivity.
    apply IHxs.
Qed.

Lemma key_compare_eq : forall a b, key_compare a b = Eq -> a = b.
Proof.
  fix IH 1. intros [x|s|xs] [y|t|ys]; cbn [key_compare]; try discriminate.
  - intros H. apply Z.compare_eq in H. congruence.
  - intros H. apply String.compare_eq_iff in H. congruence.
  - intros H. f_equal. revert ys H.
    induction xs as [|x xs IHxs]; intros [|y ys]; try discriminate; [reflexivity|].
    destruct (key_compare x y) eqn:Hc; try discriminate.
    intros H. apply IH in Hc. subst y. f_equal. apply IHxs. exact H.
Qed.

Lemma key_compare_refl k : key_compare k k = Eq.
Proof.
  pose proof (key_compare_antisym k k) as H.
  destruct (key_compare k k); [reflexivity | discriminate H | discriminate H].
Qed.

Lemma ascii_compare_trans x y z :
  Ascii.compare x y = Lt -> Ascii.compare y z = Lt -> Ascii.compare x z = Lt.
Proof.
  unfold Ascii.compare. rewrite !N.compare_lt_iff. lia.
Qed.

Lemma string_compare_trans : forall a b c,
  String.compare a b = Lt -> String.compare b c = Lt -> String.compare a c = Lt.
Proof.
  induction a as [|x a IH]; intros [|y b] [|z c]; cbn [String.compare];
    try discriminate; try reflexivity.
  destruct (Ascii.compare x y) eqn:Hxy; try discriminate;
    destruct (Ascii.compare y z) eqn:Hyz; try discriminate.
  - apply Ascii.compare_eq_iff in Hxy, Hyz. subst.
    unfold Ascii.compare. rewrite N.compare_refl. apply IH.
  - apply Ascii.compare_eq_iff in Hxy. subst. rewrite Hyz. reflexivity.
  - apply Ascii.compare_eq_iff in Hyz. subst. rewrite Hxy. reflexivity.
  - rewrite (ascii_compare_trans _ _ _ Hxy Hyz). reflexivity.
Qed.

Lemma key_compare_trans : forall a b c,
  key_compare a b = Lt -> key_compare b c = Lt -> key_compare a c = Lt.
Proof.
  fix IH 1. intros [x|s|xs] [y|t|ys] [z|u|zs]; cbn [key_compare];
    try discriminate; try reflexivity.
  - rewrite !Z.compare_lt_iff. lia.
  - apply string_compare_trans.
  - revert ys zs.
    induction xs as [|x xs IHxs]; intros [|y ys] [|z zs];
      try discriminate; try reflexivity.
    destruct (key_compare x y) eqn:Hxy; try discriminate;
      destruct (key_compare y z) eqn:Hyz; try discriminate.
    + apply key_compare_eq in Hxy, Hyz. subst. rewrite key_compare_refl. apply IHxs.
    + apply key_compare_eq in Hxy. subst. rewrite Hyz. reflexivity.
    + apply key_compare_eq in Hyz. subst. rewrite Hxy. reflexivity.
    + rewrite (IH x y z Hxy Hyz). reflexivity.
Qed.

Lemma before_distinct k k' : key_compare k k' = Lt -> k' <> k.
Proof. intros H ->. rewrite key_compare_refl in H. discriminate. Qed.

Lemma upsert_only k v rs kv :
  In kv (upsert k v rs) -> kv = (k, v) \/ In kv rs.
Proof.
  induction rs as [|[k0 v0] rs IH]; cbn [upsert].
  - intros [E | []]. left. symmetry. exact E.
  - destruct (key_compare k k0).
    + intros [E | Hin]; [left; symmetry; exact E | right; right; exact Hin].
    + intros [E | Hin]; [left; symmetry; exact E | right; exact Hin].
    + intros [E | Hin]; [right; left; exact E|].
      destruct (IH Hin) as [E | Hin']; [left; exact E | right; right; exact Hin'].
Qed.

Lemma upsert_in_key_order k v rs :
  in_key_order rs -> in_key_order (upsert k v rs).
Proof.
  unfold in_key_order. induction rs as [|[k0 v0] rs IH]; intros Hs; cbn [upsert].
  - repeat constructor.
  - apply StronglySorted_inv in Hs as [Hs Hall].
    destruct (key_compare k k0) eqn:Hc.
    + apply key_compare_eq in Hc. subst k0. constructor; [exact Hs|exact Hall].
    + constructor; [constructor; assumption|].
      constructor; [exact Hc|].
      eapply List.Forall_impl; [|exact Hall].
      intros [k' v']. unfold key_before. cbn [fst]. apply key_compare_trans. exact Hc.
    + constructor; [apply IH; exact Hs|].
      apply List.Forall_forall. intros x Hx. apply upsert_only in Hx as [-> | Hx].
      * unfold key_before. cbn [fst]. rewrite key_compare_antisym, Hc. reflexivity.
      * rewrite List.Forall_forall in Hall. apply Hall. exact Hx.
Qed.

Lemma upsert_spec k v rs :
  in_key_order rs ->
  forall k' v',
    In (k', v') (upsert k v rs) <->
    (k' = k /\ v' = v) \/ (In (k', v') rs /\ k' <> k).
Proof.
  unfold in_key_order. induction rs as [|[k0 v0] rs IH]; intros Hs k' v'; cbn [upsert].
  - cbn [In]. split.
    + intros [E | []]. inversion E. left. split; reflexivity.
    + intros [[-> ->] | [[] _]]. left. reflexivity.
  - apply StronglySorted_inv in Hs as [Hs Hall]. rewrite List.Forall_forall in Hall.
    destruct (key_compare k k0) eqn:Hc.
    + apply key_compare_eq in Hc. subst k0. cbn [In]. split.
      * intros [E | Hin]; [inversion E; left; split; reflexivity|].
        right. split; [right; exact Hin|].
        apply (before_distinct k k'). apply (Hall _ Hin).
      * intros [[-> ->] | [[E | Hin] Hne]]; [left; reflexivity | | right; exact Hin].
        inversion E. subst. contradiction.
    + cbn [In]. split.
      * intros [E | Hin]; [inversion E; left; split; reflexivity|].
        right. split; [exact Hin|].
        destruct Hin as [E | Hin].
        -- inversion E. subst. apply (before_distinct k k'). exact Hc.
        -- apply (before_distinct k k').
           apply (key_compare_trans k k0 k' Hc). apply (Hall _ Hin).
      * intros [[-> ->] | [Hin _]]; [left; reflexivity | right; exact Hin].
    + cbn [In]. rewrite (IH Hs). split.
      * intros [E | [Heq | [Hin Hne]]].
        -- inversion E. subst. right. split; [left; reflexivity|].
           intros ->. rewrite key_compare_refl in Hc. discriminate.
        -- left. exact Heq.
        -- right. split; [right; exact Hin | exact Hne].
      * intros [Heq | [[E | Hin] Hne]].
        -- right. left. exact Heq.
        -- left. exact E.
        -- right. right. split; assumption.
Qed.



(** Records with the same index key come in the order of their primary
    keys. *)
Example index_ties_in_primary_key_order :
  map snd (index_view "name"
             [(KStr "1", JObj [("id", JStr "1"); ("name", JStr "Ann")]);
              (KStr "2", JObj [("id", JStr "2"); ("name", JStr "Ann")]);
              (KStr "3", JObj [("id", JStr "3"); ("name", JStr "Abe")])]) =
  [JObj [("id", JStr "3"); ("name", JStr "Abe")];
   JObj [("id", JStr "1"); ("name", JStr "Ann")];
   JObj [("id", JStr "2"); ("name", JStr "Ann")]].
Proof. reflexivity. Qed.

(** ** READ on an open database *)



(** ** What a settled promise says about the database *)

Lemma finish_started h a mode op w s :
  fst (finish h (attempt a mode false op w) w) = Ok s ->
  exists db st,
    databases w !! databaseInstance a = Some db /\ closed db = false /\
    objectStores db !! storeName a = Some st /\
    s = mkStarted (mkRequest (IDBObjectStore (opened a mode) (storeName a)) op) h /\
    snd (finish h (attempt a mode false op w) w) =
      after_calls [CallTransaction (opened a mode);
                   CallRequest (mkRequest (IDBObjectStore (opened a mode) (storeName a)) op)]
                  w.
Proof.
  unfold finish. cbn [fst snd].
  destruct (resolved a mode false w) as [src|e] eqn:Hres.
  - destruct (resolved_inv _ _ _ _ _ Hres) as (db & st & Hdb & Hopen & Hst & ->).
    rewrite (attempt_primary _ _ _ _ _ _ Hdb Hopen Hst). cbv zeta. cbn [fst snd].
    destruct (vet_request db _) as [[]|e]; [|discriminate].
    intros E. inversion E. exists db, st. repeat split; assumption.
  - rewrite (attempt_resolve_throw _ _ _ _ _ _ Hres). discriminate.
Qed.

Lemma update_outcome_started h a w s :
  fst (update_outcome h a w) = Ok s ->
  fst (update_outcome h a w) =
    fst (finish h (attempt a readwrite false (OpPut (updateDoc a)) w) w) /\
  snd (update_outcome h a w) =
    snd (finish h (attempt a readwrite false (OpPut (updateDoc a)) w) w).
Proof.
  unfold update_outcome.
  destruct (is_undefined (updateDoc a)); [discriminate|].
  destruct (resolved a readwrite false w) as [src|e]; [|discriminate].
  destruct (target_store a w) as [st|]; [|discriminate].
  destruct (keyPath st) as [|p|ps]; try discriminate.
  destruct (js_in p (updateDoc a)) as [present|e]; [|discriminate].
  destruct (negb present || _); [discriminate|]. split; reflexivity.
Qed.

(** A writing executor of the build that starts. *)
Lemma dist_write_family_started this a w s w0 :
  heap w !! this = Some a ->
  String.eqb (action a) READ = false ->
  Dist.execute_body this w = (Ok s, w0) ->
  exists db st op,
    operation_of a = Some op /\
    databases w !! databaseInstance a = Some db /\ closed db = false /\
    objectStores db !! storeName a = Some st /\
    s = mkStarted (mkRequest (IDBObjectStore (opened a readwrite) (storeName a)) op)
                  (Dist.on_transaction (dist_fallback (action a))) /\
    w0 = after_calls
           [CallTransaction (opened a readwrite);
            CallRequest (mkRequest (IDBObjectStore (opened a readwrite) (storeName a)) op)]
           w.
Proof.
  intros Hthis Hr Hb.
  pose proof (f_equal fst Hb) as H1. pose proof (f_equal snd Hb) as H2.
  cbn [fst snd] in H1, H2.
  rewrite (dist_execute_body_eq _ _ _ Hthis) in H1, H2.
  unfold operation_of, dist_fallback. rewrite Hr in *.
  destruct (String.eqb (action a) WRITE).
  { rewrite (dist_executeWrite_eq _ _ _ Hthis) in H1, H2.
    destruct (is_undefined (updateDoc a)); [discriminate|].
    destruct (finish_started _ _ _ _ _ _ H1) as (db & st & ? & ? & ? & ? & Hw).
    rewrite Hw in H2. exists db, st. eexists. repeat split; eauto. }
  destruct (String.eqb (action a) UPDATE).
  { rewrite (dist_executeUpdate_eq _ _ _ Hthis) in H1, H2.
    destruct (update_outcome_started _ _ _ _ H1) as [E1 E2].
    rewrite E1 in H1. rewrite E2 in H2.
    destruct (finish_started _ _ _ _ _ _ H1) as (db & st & ? & ? & ? & ? & Hw).
    rewrite Hw in H2. exists db, st. eexists. repeat split; eauto. }
  destruct (String.eqb (action a) DELETE).
  { rewrite (dist_executeDelete_eq _ _ _ Hthis) in H1, H2.
    destruct (deleteDoc a) as [key|]; [|discriminate].
    destruct (finish_started _ _ _ _ _ _ H1) as (db & st & ? & ? & ? & ? & Hw).
    rewrite Hw in H2. exists db, st. eexists. repeat split; eauto. }
  destruct (String.eqb (action a) CLEAR).
  { rewrite (dist_executeClear_eq _ _ _ Hthis) in H1, H2.
    destruct (finish_started _ _ _ _ _ _ H1) as (db & st & ? & ? & ? & ? & Hw).
    rewrite Hw in H2. exists db, st. eexists. repeat split; eauto. }
  discriminate.
Qed.

Lemma src_write_family_started this a w s w0 :
  heap w !! this = Some a ->
  String.eqb (action a) READ = false ->
  Src.execute_body this w = (Ok s, w0) ->
  exists db st op,
    operation_of a = Some op /\
    databases w !! databaseInstance a = Some db /\ closed db = false /\
    objectStores db !! storeName a = Some st /\
    s = mkStarted (mkRequest (IDBObjectStore (opened a readwrite) (storeName a)) op)
                  (Src.on_request (fun _ => RUndefined) (src_fallback (action a))) /\
    w0 = after_calls
           [CallTransaction (opened a readwrite);
            CallRequest (mkRequest (IDBObjectStore (opened a readwrite) (storeName a)) op)]
           w.
Proof.
  intros Hthis Hr Hb.
  pose proof (f_equal fst Hb) as H1. pose proof (f_equal snd Hb) as H2.
  cbn [fst snd] in H1, H2.
  rewrite (src_execute_body_eq _ _ _ Hthis) in H1, H2.
  unfold operation_of, src_fallback. rewrite Hr in *.
  destruct (String.eqb (action a) WRITE).
  { rewrite (src_executeWrite_eq _ _ _ Hthis) in H1, H2.
    destruct (resolved a readwrite false w); [|discriminate].
    destruct (is_undefined (updateDoc a)); [discriminate|].
    destruct (finish_started _ _ _ _ _ _ H1) as (db & st & ? & ? & ? & ? & Hw).
    rewrite Hw in H2. exists db, st. eexists. repeat split; eauto. }
  destruct (String.eqb (action a) UPDATE).
  { rewrite (src_executeUpdate_eq _ _ _ Hthis) in H1, H2.
    destruct (update_outcome_started _ _ _ _ H1) as [E1 E2].
    rewrite E1 in H1. rewrite E2 in H2.
    destruct (finish_started _ _ _ _ _ _ H1) as (db & st & ? & ? & ? & ? & Hw).
    rewrite Hw in H2. exists db, st. eexists. repeat split; eauto. }
  destruct (String.eqb (action a) DELETE).
  { rewrite (src_executeDelete_eq _ _ _ Hthis) in H1, H2.
    destruct (deleteDoc a) as [key|]; [|discriminate].
    destruct (finish_started _ _ _ _ _ _ H1) as (db & st & ? & ? & ? & ? & Hw).
    rewrite Hw in H2. exists db, st. eexists. repeat split; eauto. }
  destruct (String.eqb (action a) CLEAR).
  { rewrite (src_executeClear_eq _ _ _ Hthis) in H1, H2.
    destruct (finish_started _ _ _ _ _ _ H1) as (db & st & ? & ? & ? & ? & Hw).
    rewrite Hw in H2. exists db, st. eexists. repeat split; eauto. }
  discriminate.
Qed.

Lemma finish_started_read h a w s :
  fst (finish h (attempt a readonly true OpGetAll w) w) = Ok s ->
  exists st,
    s = mkStarted (mkRequest (chosen_source a readonly true st) OpGetAll) h.
Proof.
  unfold finish, attempt. cbn [fst].
  destruct (resolved a readonly true w) as [src|e] eqn:Hres; [|discriminate].
  destruct (resolved_inv _ _ _ _ _ Hres) as (db & st & Hdb & _ & _ & ->).
  cbv zeta. cbn [fst]. rewrite Hdb.
  destruct (vet_request db _) as [[]|e]; [|discriminate].
  intros E. inversion E. exists st. reflexivity.
Qed.

Lemma getAll_result db src res db' :
  perform db (mkRequest src OpGetAll) = Ok (res, db') ->
  (exists vs, res = RArray vs) /\ db' = db.
Proof.
  unfold perform, perform_on. cbn [reqSource reqOp].
  destruct (objectStores db !! source_store src) as [st|] eqn:Hst; [|discriminate].
  destruct src as [tx n | tx n i]; cbn [source_store] in *.
  - intros E. inversion E. split; [eauto|].
    rewrite insert_id by exact Hst. apply database_eta.
  - destruct (indexes st !! i); [|discriminate].
    intros E. inversion E. split; [eauto|].
    rewrite insert_id by exact Hst. apply database_eta.
Qed.

(** What the build leaves when it has started a request. *)
Lemma dist_started this a w s w0 :
  heap w !! this = Some a ->
  Dist.execute_body this w = (Ok s, w0) ->
  databases w0 = databases w /\
  txDatabase (source_transaction (reqSource (request s))) = databaseInstance a /\
  ((action a = READ /\ handlers s = Dist.read_handlers /\
    reqOp (request s) = OpGetAll) \/
   (action a <> READ /\
    handlers s = Dist.on_transaction (dist_fallback (action a)))).
Proof.
  intros Hthis Hb.
  pose proof (stable_dist_execute_body this w) as [_ Hdbs]. rewrite Hb in Hdbs.
  split; [exact Hdbs|].
  pose proof (dist_body_handlers _ _ _ _ _ Hthis Hb) as Hh.
  destruct (String.eqb_spec (action a) READ) as [Ha | Ha].
  - pose proof (f_equal fst Hb) as H1. cbn [fst] in H1.
    rewrite (dist_execute_body_eq _ _ _ Hthis) in H1.
    apply String.eqb_eq in Ha as Ha'. rewrite Ha' in H1.
    rewrite (dist_executeRead_eq _ _ _ Hthis) in H1.
    apply finish_started_read in H1 as (st & ->). cbn [request reqSource reqOp].
    split; [apply chosen_source_database|]. left. repeat split; assumption.
  - apply String.eqb_neq in Ha as Ha'.
    destruct (dist_write_family_started _ _ _ _ _ Hthis Ha' Hb)
      as (db & st & op & _ & _ & _ & _ & -> & _).
    split; [reflexivity|]. right. split; assumption.
Qed.

Lemma src_started this a w s w0 :
  heap w !! this = Some a ->
  Src.execute_body this w = (Ok s, w0) ->
  databases w0 = databases w /\
  txDatabase (source_transaction (reqSource (request s))) = databaseInstance a.
Proof.
  intros Hthis Hb.
  pose proof (stable_src_execute_body this w) as [_ Hdbs]. rewrite Hb in Hdbs.
  split; [exact Hdbs|].
  destruct (String.eqb_spec (action a) READ) as [Ha | Ha].
  - pose proof (f_equal fst Hb) as H1. cbn [fst] in H1.
    rewrite (src_execute_body_eq _ _ _ Hthis) in H1.
    apply String.eqb_eq in Ha as Ha'. rewrite Ha' in H1.
    rewrite (src_executeRead_eq _ _ _ Hthis) in H1.
    apply finish_started_read in H1 as (st & ->). cbn [request reqSource].
    apply chosen_source_database.
  - apply String.eqb_neq in Ha as Ha'.
    destruct (src_write_family_started _ _ _ _ _ Hthis Ha' Hb)
      as (db & st & op & _ & _ & _ & _ & -> & _).
    reflexivity.
Qed.

(** X11. In the build a fulfilled promise means that the request was
    carried out and its transaction committed: the databases are the ones
    before with the instance's database replaced by what the request made
    of it, and the promise carries the request's result for a READ and
    nothing otherwise.  A commit that fails never leaves a fulfilled
    promise. *)
Theorem X11_dist_fulfilled_means_committed this a w f v w1 :
  heap w !! this = Some a ->
  Dist.execute this f w = (Fulfilled v, w1) ->
  f = CommitOk /\
  exists s w0 db res db',
    Dist.execute_body this w = (Ok s, w0) /\
    databases w !! databaseInstance a = Some db /\
    perform db (request s) = Ok (res, db') /\
    databases w1 = <[databaseInstance a := db']> (databases w) /\
    (action a = READ -> v = res) /\
    (action a <> READ -> v = RUndefined).
Proof.
  intros Hthis H. unfold Dist.execute in H.
  destruct (Dist.execute_body this w) as [[s|e] w0] eqn:Hb;
    [|rewrite (async_call_throw _ _ _ _ _ Hb) in H; discriminate].
  destruct (dist_started _ _ _ _ _ Hthis Hb) as (Hdbs & Hh & Hkind).
  unfold async_call in H. rewrite Hb, Hh, Hdbs in H.
  destruct (databases w !! databaseInstance a) as [db|] eqn:Hdb; [|discriminate].
  unfold Engine.run in H.
  destruct (perform db (request s)) as [[res db']|e] eqn:Hp.
  - destruct Hkind as [(Ha & Hs & Hop) | (Ha & Hs)]; rewrite Hs in H.
    + destruct f as [|e]; [|discriminate].
      destruct s as [[src op] h]. cbn [request reqOp] in *. subst op.
      destruct (getAll_result _ _ _ _ Hp) as [[vs ->] ->].
      inversion H. subst. split; [reflexivity|].
      eexists. eexists. exists db, (RArray vs), db.
      repeat split; try eassumption; try reflexivity. contradiction.
    + destruct f as [|e]; [|discriminate].
      inversion H. subst. split; [reflexivity|].
      eexists. eexists. exists db, res, db'.
      repeat split; try eassumption; try reflexivity. contradiction.
  - destruct Hkind as [(Ha & Hs & Hop) | (Ha & Hs)]; rewrite Hs in H; discriminate.
Qed.

(** X12. A rejected promise means an untouched database, in the source
    and in the build: whether [execute] threw, the request failed or the
    commit failed, every database is as it was. *)
Theorem X12_rejected_means_unchanged this a w f :
  heap w !! this = Some a ->
  (forall r w1, Src.execute this f w = (Rejected r, w1) -> databases w1 = databases w) /\
  (forall r w1, Dist.execute this f w = (Rejected r, w1) -> databases w1 = databases w).
Proof.
  intros Hthis. split; intros r w1 H.
  - unfold Src.execute in H.
    destruct (Src.execute_body this w) as [[s|e] w0] eqn:Hb.
    + destruct (src_started _ _ _ _ _ Hthis Hb) as (Hdbs & Hh).
      pose proof (src_body_handlers _ _ _ _ _ Hthis Hb) as Hs.
      unfold async_call in H. rewrite Hb, Hh, Hdbs in H.
      destruct (databases w !! databaseInstance a) as [db|] eqn:Hdb; [|discriminate].
      unfold Engine.run in H.
      destruct (perform db (request s)) as [[res db']|e] eqn:Hp.
      * rewrite Hs in H. destruct f; discriminate.
      * inversion H. cbn [databases]. apply insert_id. exact Hdb.
    + rewrite (async_call_throw _ _ _ _ _ Hb) in H. inversion H. subst.
      pose proof (stable_src_execute_body this w) as [_ Hdbs]. rewrite Hb in Hdbs.
      exact Hdbs.
  - unfold Dist.execute in H.
    destruct (Dist.execute_body this w) as [[s|e] w0] eqn:Hb.
    + destruct (dist_started _ _ _ _ _ Hthis Hb) as (Hdbs & Hh & Hkind).
      unfold async_call in H. rewrite Hb, Hh, Hdbs in H.
      destruct (databases w !! databaseInstance a) as [db|] eqn:Hdb; [|discriminate].
      unfold Engine.run in H.
      destruct (perform db (request s)) as [[res db']|e] eqn:Hp.
      * destruct f as [|e].
        -- destruct Hkind as [(Ha & Hs & Hop) | (Ha & Hs)]; rewrite Hs in H.
           ++ destruct s as [[src op] h]. cbn [request reqOp] in *. subst op.
              destruct (getAll_result _ _ _ _ Hp) as [[vs ->] ->]. discriminate.
           ++ discriminate.
        -- inversion H. cbn [databases]. apply insert_id. exact Hdb.
      * inversion H. cbn [databases]. apply insert_id. exact Hdb.
    + rewrite (async_call_throw _ _ _ _ _ Hb) in H. inversion H. subst.
      pose proof (stable_dist_execute_body this w) as [_ Hdbs]. rewrite Hb in Hdbs.
      exact Hdbs.
Qed.

Lemma X11_dist_fulfilled_means_committed_witness :
  exists s w0 db res db',
    Dist.execute_body 0 (Sample.world WRITE Sample.alice) = (Ok s, w0) /\
    databases (Sample.world WRITE Sample.alice) !! 0 = Some db /\
    perform db (request s) = Ok (res, db') /\
    databases (snd (Dist.execute 0 CommitOk (Sample.world WRITE Sample.alice))) =
      <[0 := db']> (databases (Sample.world WRITE Sample.alice)).
Proof.
  destruct (X11_dist_fulfilled_means_committed 0
              (Sample.instance WRITE Sample.alice)
              (Sample.world WRITE Sample.alice) CommitOk RUndefined
              (snd (Dist.execute 0 CommitOk (Sample.world WRITE Sample.alice))))
    as (_ & s & w0 & db & res & db' & Hb & Hdb & Hp & Hdbs & _).
  - reflexivity.
  - vm_compute. reflexivity.
  - exists s, w0, db, res, db'. repeat split; assumption.
Defined.

Lemma X12_rejected_means_unchanged_witness :
  fst (Src.execute 0 CommitOk duplicate_writer) =
    Rejected (Some (DOMException "ConstraintError"
                      "Key already exists in the object store.")) /\
  databases (snd (Src.execute 0 CommitOk duplicate_writer)) =
    databases duplicate_writer /\
  databases (snd (Dist.execute 0 (CommitFails Sample.quota) duplicate_writer)) =
    databases duplicate_writer.
Proof.
  destruct (X12_rejected_means_unchanged 0 (Sample.instance WRITE Sample.bob)
              duplicate_writer CommitOk)
    as [Hs _]; [reflexivity|].
  destruct (X12_rejected_means_unchanged 0 (Sample.instance WRITE Sample.bob)
              duplicate_writer (CommitFails Sample.quota))
    as [_ Hd]; [reflexivity|].
  split; [vm_compute; reflexivity|]. split.
  - apply (Hs (Some (DOMException "ConstraintError"
                       "Key already exists in the object store."))).
    vm_compute. reflexivity.
  - apply (Hd (Some (DOMException "ConstraintError"
                       "Key already exists in the object store."))).
    vm_compute. reflexivity.
Defined.

(** ** What [execute] depends on *)

Lemma alike_unchanged {A : Type} (x : A) w w' :
  databases w = databases w' -> alike w w' (x, w) (x, w').
Proof.
  intros H. split; [reflexivity|]. split; [exact H|].
  exists []. cbn [snd]. rewrite !app_nil_r. split; reflexivity.
Qed.

Lemma alike_after_calls {A : Type} (x : A) cs w w' :
  databases w = databases w' ->
  alike w w' (x, after_calls cs w) (x, after_calls cs w').
Proof.
  intros H. split; [reflexivity|]. split; [exact H|].
  exists cs. split; reflexivity.
Qed.

Lemma resolved_frame a mode allowIndex w w' :
  databases w = databases w' ->
  resolved a mode allowIndex w = resolved a mode allowIndex w'.
Proof. intros H. unfold resolved. rewrite H. reflexivity. Qed.

Lemma attempt_frame a mode allowIndex op w w' :
  databases w = databases w' ->
  attempt a mode allowIndex op w = attempt a mode allowIndex op w'.
Proof.
  intros H. unfold attempt.
  rewrite (resolved_frame _ _ _ _ _ H), H. reflexivity.
Qed.

Lemma finish_frame h a mode allowIndex op w w' :
  databases w = databases w' ->
  alike w w' (finish h (attempt a mode allowIndex op w) w)
             (finish h (attempt a mode allowIndex op w') w').
Proof.
  intros H. rewrite (attempt_frame _ _ _ _ _ _ H). unfold finish.
  apply alike_after_calls. exact H.
Qed.

Lemma update_outcome_frame h a w w' :
  databases w = databases w' ->
  alike w w' (update_outcome h a w) (update_outcome h a w').
Proof.
  intros H. unfold update_outcome, target_store.
  rewrite (resolved_frame _ _ _ _ _ H), H.
  destruct (is_undefined (updateDoc a)); [apply alike_unchanged; exact H|].
  destruct (resolved a readwrite false w') as [src|e];
    [|apply (alike_after_calls _ [_]); exact H].
  destruct (databases w' !! databaseInstance a) as [db|];
    [|apply (alike_after_calls _ [_]); exact H].
  destruct (objectStores db !! storeName a) as [st|];
    [|apply (alike_after_calls _ [_]); exact H].
  destruct (keyPath st) as [|p|ps]; try (apply (alike_after_calls _ [_]); exact H).
  destruct (js_in p (updateDoc a)) as [present|e];
    [|apply (alike_after_calls _ [_]); exact H].
  destruct (negb present || _); [apply (alike_after_calls _ [_]); exact H|].
  apply finish_frame. exact H.
Qed.

Lemma src_body_frame this a w w' :
  heap w !! this = Some a ->
  heap w' !! this = Some a ->
  databases w = databases w' ->
  alike w w' (Src.execute_body this w) (Src.execute_body this w').
Proof.
  intros Hthis Hthis' H.
  rewrite (src_execute_body_eq _ _ _ Hthis), (src_execute_body_eq _ _ _ Hthis').
  destruct (String.eqb (action a) READ).
  { rewrite (src_executeRead_eq _ _ _ Hthis), (src_executeRead_eq _ _ _ Hthis').
    apply finish_frame. exact H. }
  destruct (String.eqb (action a) WRITE).
  { rewrite (src_executeWrite_eq _ _ _ Hthis), (src_executeWrite_eq _ _ _ Hthis').
    rewrite (resolved_frame _ _ _ _ _ H).
    destruct (resolved a readwrite false w');
      [|apply (alike_after_calls _ [_]); exact H].
    destruct (is_undefined (updateDoc a));
      [apply (alike_after_calls _ [_]); exact H|].
    apply finish_frame. exact H. }
  destruct (String.eqb (action a) UPDATE).
  { rewrite (src_executeUpdate_eq _ _ _ Hthis), (src_executeUpdate_eq _ _ _ Hthis').
    apply update_outcome_frame. exact H. }
  destruct (String.eqb (action a) DELETE).
  { rewrite (src_executeDelete_eq _ _ _ Hthis), (src_executeDelete_eq _ _ _ Hthis').
    destruct (deleteDoc a); [apply finish_frame | apply alike_unchanged]; exact H. }
  destruct (String.eqb (action a) CLEAR).
  { rewrite (src_executeClear_eq _ _ _ Hthis), (src_executeClear_eq _ _ _ Hthis').
    apply finish_frame. exact H. }
  apply alike_unchanged. exact H.
Qed.

Lemma dist_body_frame this a w w' :
  heap w !! this = Some a ->
  heap w' !! this = Some a ->
  databases w = databases w' ->
  alike w w' (Dist.execute_body this w) (Dist.execute_body this w').
Proof.
  intros Hthis Hthis' H.
  rewrite (dist_execute_body_eq _ _ _ Hthis), (dist_execute_body_eq _ _ _ Hthis').
  destruct (String.eqb (action a) READ).
  { rewrite (dist_executeRead_eq _ _ _ Hthis), (dist_executeRead_eq _ _ _ Hthis').
    apply finish_frame. exact H. }
  destruct (String.eqb (action a) WRITE).
  { rewrite (dist_executeWrite_eq _ _ _ Hthis), (dist_executeWrite_eq _ _ _ Hthis').
    destruct (is_undefined (updateDoc a)); [apply alike_unchanged; exact H|].
    apply finish_frame. exact H. }
  destruct (String.eqb (action a) UPDATE).
  { rewrite (dist_executeUpdate_eq _ _ _ Hthis), (dist_executeUpdate_eq _ _ _ Hthis').
    apply update_outcome_frame. exact H. }
  destruct (String.eqb (action a) DELETE).
  { rewrite (dist_executeDelete_eq _ _ _ Hthis), (dist_executeDelete_eq _ _ _ Hthis').
    destruct (deleteDoc a); [apply finish_frame | apply alike_unchanged]; exact H. }
  destruct (String.eqb (action a) CLEAR).
  { rewrite (dist_executeClear_eq _ _ _ Hthis), (dist_executeClear_eq _ _ _ Hthis').
    apply finish_frame. exact H. }
  apply alike_unchanged. exact H.
Qed.

Lemma async_call_frame body f w w' :
  alike w w' (body w) (body w') ->
  alike w w' (async_call body f w) (async_call body f w').
Proof.
  intros (Hr & Hdbs & added & Hj & Hj'). unfold async_call.
  destruct (body w) as [r w1], (body w') as [r' w1'].
  cbn [fst snd] in Hr, Hdbs, Hj, Hj'. subst r'.
  destruct r as [s|e].
  - rewrite Hdbs.
    destruct (databases w1' !! _) as [db|].
    + destruct (Engine.run db (request s) f) as [evs db'].
      split; [reflexivity|]. split; [reflexivity|]. exists added. split; assumption.
    + split; [reflexivity|]. split; [exact Hdbs|]. exists added. split; assumption.
  - split; [reflexivity|]. split; [exact Hdbs|]. exists added. split; assumption.
Qed.

(** X13. What one [execute] does is decided by the fields of its instance
    and by the databases: from two worlds that agree on these, whatever
    other instances they hold and whatever calls were made in them before,
    it leaves the same promise and the same databases, and makes the same
    native calls.  The source and the build alike. *)
Theorem X13_execute_depends_on_instance_and_databases this a w w' f :
  heap w !! this = Some a ->
  heap w' !! this = Some a ->
  databases w = databases w' ->
  alike w w' (Src.execute this f w) (Src.execute this f w') /\
  alike w w' (Dist.execute this f w) (Dist.execute this f w').
Proof.
  intros Hthis Hthis' H. split.
  - apply async_call_frame. apply (src_body_frame this a); assumption.
  - apply async_call_frame. apply (dist_body_frame this a); assumption.
Qed.

Lemma X13_execute_depends_on_instance_and_databases_witness :
  fst (Dist.execute 0 CommitOk (writer_and_reader Sample.alice)) =
  fst (Dist.execute 0 CommitOk
         (snd (Dist.execute 1 CommitOk (writer_and_reader Sample.alice)))).
Proof.
  destruct (X13_execute_depends_on_instance_and_databases 0
              (Sample.instance WRITE Sample.alice)
              (writer_and_reader Sample.alice)
              (snd (Dist.execute 1 CommitOk (writer_and_reader Sample.alice)))
              CommitOk) as [_ (Hd & _)].
  - reflexivity.
  - vm_compute. reflexivity.
  - vm_compute. reflexivity.
  - exact Hd.
Defined.

(** ** One action after another *)

Lemma run_on_store db st tx name op f :
  objectStores db !! name = Some st ->
  Engine.run db (mkRequest (IDBObjectStore tx name) op) f =
  match perform_on st (mkRequest (IDBObjectStore tx name) op) with
  | Ok (res, st') =>
      match f with
      | CommitOk => ([EvSuccess res; EvComplete],
                     mkDatabase (closed db) (<[name := st']> (objectStores db)))
      | CommitFails e => ([EvSuccess res; EvAbort (Some e)], db)
      end
  | Throw e => ([EvError (Some e); EvTxError None; EvAbort (Some e)], db)
  end.
Proof.
  intros Hst. unfold Engine.run, perform. cbn [reqSource source_store]. rewrite Hst.
  destruct (perform_on st _) as [[res st']|e]; reflexivity.
Qed.

Section Modify.

Variables (m : nat) (am : DbAction) (w : World) (db : Database) (st : ObjectStore).

Hypothesis Hm : heap w !! m = Some am.
Hypothesis Hdb : databases w !! databaseInstance am = Some db.
Hypothesis Hopen : closed db = false.
Hypothesis Hst : objectStores db !! storeName am = Some st.

Let req (op : Operation) : Request :=
  mkRequest (IDBObjectStore (opened am readwrite) (storeName am)) op.

(** The world once the engine has put [st'] in the place of the store. *)
Let committed (op : Operation) (st' : ObjectStore) : World :=
  mkWorld (heap w)
          (<[databaseInstance am :=
               mkDatabase false (<[storeName am := st']> (objectStores db))]>
             (databases w))
          (journal w ++ [CallTransaction (opened am readwrite); CallRequest (req op)]).

(** The world when the request or the commit failed. *)
Let rolled_back (op : Operation) : World :=
  after_calls [CallTransaction (opened am readwrite); CallRequest (req op)] w.

Lemma started_outcome body h op f :
  body w = (Ok (mkStarted (req op) h), rolled_back op) ->
  async_call body f w =
  match perform_on st (req op) with
  | Ok (res, st') =>
      match f with
      | CommitOk => (settle h [EvSuccess res; EvComplete], committed op st')
      | CommitFails e => (settle h [EvSuccess res; EvAbort (Some e)], rolled_back op)
      end
  | Throw e =>
      (settle h [EvError (Some e); EvTxError None; EvAbort (Some e)], rolled_back op)
  end.
Proof.
  intros Hb.
  rewrite (async_call_started _ f _ _ _ db Hb) by exact Hdb.
  unfold committed, rolled_back, req, after_calls.
  cbn [request handlers reqSource source_transaction opened txDatabase
       heap databases journal].
  rewrite (run_on_store _ _ _ _ _ _ Hst).
  destruct (perform_on st _) as [[res st']|e].
  - destruct f as [|e]; cbn [fst snd].
    + rewrite Hopen. reflexivity.
    + rewrite insert_id by exact Hdb. reflexivity.
  - cbn [fst snd]. rewrite insert_id by exact Hdb. reflexivity.
Qed.

Lemma issued h op :
  vet_request db (req op) = Ok tt ->
  finish h (attempt am readwrite false op w) w =
  (Ok (mkStarted (req op) h), rolled_back op).
Proof.
  intros Hv. unfold finish.
  rewrite (attempt_primary _ _ _ _ _ _ Hdb Hopen Hst). cbv zeta. cbn [fst snd].
  fold (req op). rewrite Hv. reflexivity.
Qed.

(** A fulfilled promise of the build, for an action that writes. *)
Lemma dist_modified f v w1 :
  action am <> READ ->
  Dist.execute m f w = (Fulfilled v, w1) ->
  exists op res st',
    operation_of am = Some op /\
    perform_on st (req op) = Ok (res, st') /\
    w1 = committed op st'.
Proof.
  intros Hnr H. unfold Dist.execute in H.
  destruct (Dist.execute_body m w) as [[s|e] w0] eqn:Hb;
    [|rewrite (async_call_throw _ _ _ _ _ Hb) in H; discriminate].
  apply String.eqb_neq in Hnr.
  destruct (dist_write_family_started _ _ _ _ _ Hm Hnr Hb)
    as (db0 & st0 & op & Hop & _ & _ & _ & -> & ->).
  rewrite (started_outcome _ _ op f Hb) in H.
  exists op. destruct (perform_on st (req op)) as [[res st']|e]; [|discriminate].
  destruct f as [|e]; [|discriminate].
  inversion H. exists res, st'. repeat split; assumption.
Qed.

(** The same for the source, when the commit went through. *)
Lemma src_modified v w1 :
  action am <> READ ->
  Src.execute m CommitOk w = (Fulfilled v, w1) ->
  exists op res st',
    operation_of am = Some op /\
    perform_on st (req op) = Ok (res, st') /\
    w1 = committed op st'.
Proof.
  intros Hnr H. unfold Src.execute in H.
  destruct (Src.execute_body m w) as [[s|e] w0] eqn:Hb;
    [|rewrite (async_call_throw _ _ _ _ _ Hb) in H; discriminate].
  apply String.eqb_neq in Hnr.
  destruct (src_write_family_started _ _ _ _ _ Hm Hnr Hb)
    as (db0 & st0 & op & Hop & _ & _ & _ & -> & ->).
  rewrite (started_outcome _ _ op CommitOk Hb) in H.
  exists op. destruct (perform_on st (req op)) as [[res st']|e]; [|discriminate].
  inversion H. exists res, st'. repeat split; assumption.
Qed.

Variables (rd : nat) (ar : DbAction).

Hypothesis Hrd : heap w !! rd = Some ar.
Hypothesis Hread : action ar = READ.
Hypothesis Hsame_db : databaseInstance ar = databaseInstance am.
Hypothesis Hsame_store : storeName ar = storeName am.

(** A READ of the same store in the world a commit left. *)
Lemma read_committed op st' :
  let seen :=
    match usable_hint ar true st' with
    | Some i =>
        match indexes st' !! i with
        | Some p => map snd (index_view p (records st'))
        | None => []
        end
    | None => map snd (records st')
    end in
  fst (Src.execute rd CommitOk (committed op st')) = Fulfilled (RArray seen) /\
  fst (Dist.execute rd CommitOk (committed op st')) = Fulfilled (RArray seen).
Proof.
  cbv zeta.
  assert (Hdb' : databases (committed op st') !! databaseInstance ar =
                 Some (mkDatabase false (<[storeName am := st']> (objectStores db)))).
  { rewrite Hsame_db. apply lookup_insert_eq. }
  assert (Hst' : objectStores (mkDatabase false (<[storeName am := st']> (objectStores db)))
                   !! storeName ar = Some st').
  { rewrite Hsame_store. apply lookup_insert_eq. }
  rewrite (src_read_all rd ar (committed op st') _ st' Hrd Hread Hdb' eq_refl Hst' CommitOk).
  rewrite (dist_read_all rd ar (committed op st') _ st' Hrd Hread Hdb' eq_refl Hst').
  split; reflexivity.
Qed.

End Modify.

Lemma vet_clear_or_delete db st a op :
  objectStores db !! storeName a = Some st ->
  op = OpClear \/ (exists q, op = OpDelete q) ->
  vet_request db (mkRequest (IDBObjectStore (opened a readwrite) (storeName a)) op) = Ok tt.
Proof.
  intros Hst Hop. unfold vet_request.
  cbn [reqSource reqOp source_transaction source_store opened txMode].
  rewrite Bool.andb_false_r, Hst.
  destruct Hop as [-> | [q ->]]; reflexivity.
Qed.

(** X14. On an open database that has the store, a CLEAR whose commit goes
    through is fulfilled, in the source and in the build, and leaves the
    store with its key path and its indexes and no record, and every other
    store and database as they were.  A READ of that store that follows is
    fulfilled with the empty array, whether it goes through an index or
    not. *)
Theorem X14_clear_then_read m rd am ar w db st :
  heap w !! m = Some am ->
  heap w !! rd = Some ar ->
  action am = CLEAR ->
  action ar = READ ->
  databaseInstance ar = databaseInstance am ->
  storeName ar = storeName am ->
  databases w !! databaseInstance am = Some db ->
  closed db = false ->
  objectStores db !! storeName am = Some st ->
  exists w1,
    Src.execute m CommitOk w = (Fulfilled RUndefined, w1) /\
    Dist.execute m CommitOk w = (Fulfilled RUndefined, w1) /\
    databases w1 = store_replaced am db (with_records st []) w /\
    fst (Src.execute rd CommitOk w1) = Fulfilled (RArray []) /\
    fst (Dist.execute rd CommitOk w1) = Fulfilled (RArray []).
Proof.
  intros Hm Hrd Hact Hread Hsd Hss Hdb Hopen Hst.
  pose proof (vet_clear_or_delete db st am OpClear Hst (or_introl eq_refl)) as Hv.
  assert (Hs : Src.execute_body m w = _)
    by (rewrite (src_execute_body_eq _ _ _ Hm), Hact;
        cbn [String.eqb READ WRITE UPDATE DELETE CLEAR Ascii.eqb Bool.eqb];
        rewrite (src_executeClear_eq _ _ _ Hm);
        apply (issued am w db st Hdb Hopen Hst _ _ Hv)).
  assert (Hd : Dist.execute_body m w = _)
    by (rewrite (dist_execute_body_eq _ _ _ Hm), Hact;
        cbn [String.eqb READ WRITE UPDATE DELETE CLEAR Ascii.eqb Bool.eqb];
        rewrite (dist_executeClear_eq _ _ _ Hm);
        apply (issued am w db st Hdb Hopen Hst _ _ Hv)).
  destruct (read_committed am w db rd ar Hrd Hread Hsd Hss OpClear (with_records st []))
    as [Hr1 Hr2].
  eexists. split; [|split; [|split; [|split]]].
  - unfold Src.execute.
    rewrite (started_outcome am w db st Hdb Hopen Hst _ _ _ CommitOk Hs).
    reflexivity.
  - unfold Dist.execute.
    rewrite (started_outcome am w db st Hdb Hopen Hst _ _ _ CommitOk Hd).
    reflexivity.
  - reflexivity.
  - refine (eq_trans Hr1 _). cbn [with_records records].
    destruct (usable_hint ar true _) as [i|]; [|reflexivity].
    destruct (indexes _ !! i); reflexivity.
  - refine (eq_trans Hr2 _). cbn [with_records records].
    destruct (usable_hint ar true _) as [i|]; [|reflexivity].
    destruct (indexes _ !! i); reflexivity.
Qed.

Lemma X14_clear_then_read_witness :
  fst (Dist.execute 1 CommitOk
         (snd (Dist.execute 0 CommitOk
                 (modifier_and_reader (Sample.instance CLEAR JUndefined))))) =
  Fulfilled (RArray []).
Proof.
  destruct (X14_clear_then_read 0 1
              (Sample.instance CLEAR JUndefined) (Sample.instance READ JUndefined)
              (modifier_and_reader (Sample.instance CLEAR JUndefined))
              (mkDatabase false {[ "users" := populated ]}) populated
              eq_refl eq_refl eq_refl eq_refl eq_refl eq_refl eq_refl eq_refl eq_refl)
    as (w1 & _ & Hd & _ & _ & Hr).
  rewrite Hd. exact Hr.
Defined.

(** X15. On an open database that has the store, a DELETE whose key or
    range is set and whose commit goes through is fulfilled, in the source
    and in the build, and leaves in the store exactly the records whose key
    the argument does not match, in their order.  A READ of the object
    store that follows is fulfilled with the values of these records. *)
Theorem X15_delete_then_read m rd am ar w db st q :
  heap w !! m = Some am ->
  heap w !! rd = Some ar ->
  action am = DELETE ->
  deleteDoc am = Some q ->
  action ar = READ ->
  databaseInstance ar = databaseInstance am ->
  storeName ar = storeName am ->
  databases w !! databaseInstance am = Some db ->
  closed db = false ->
  objectStores db !! storeName am = Some st ->
  hintIndex ar <> Some EmptyString ->
  (forall i, ~ reads_index ar st i) ->
  exists w1 left,
    Src.execute m CommitOk w = (Fulfilled RUndefined, w1) /\
    Dist.execute m CommitOk w = (Fulfilled RUndefined, w1) /\
    databases w1 = store_replaced am db (with_records st left) w /\
    fst (Src.execute rd CommitOk w1) = Fulfilled (RArray (map snd left)) /\
    fst (Dist.execute rd CommitOk w1) = Fulfilled (RArray (map snd left)) /\
    left = List.filter (fun kv => negb (matches q (fst kv))) (records st) /\
    (forall kv, In kv left <-> In kv (records st) /\ matches q (fst kv) = false).
Proof.
  intros Hm Hrd Hact Hkey Hread Hsd Hss Hdb Hopen Hst Hhint Hprimary.
  pose proof (vet_clear_or_delete db st am (OpDelete q) Hst
                (or_intror (ex_intro _ q eq_refl))) as Hv.
  assert (Hs : Src.execute_body m w = _)
    by (rewrite (src_execute_body_eq _ _ _ Hm), Hact;
        cbn [String.eqb READ WRITE UPDATE DELETE CLEAR Ascii.eqb Bool.eqb];
        rewrite (src_executeDelete_eq _ _ _ Hm), Hkey;
        apply (issued am w db st Hdb Hopen Hst _ _ Hv)).
  assert (Hd : Dist.execute_body m w = _)
    by (rewrite (dist_execute_body_eq _ _ _ Hm), Hact;
        cbn [String.eqb READ WRITE UPDATE DELETE CLEAR Ascii.eqb Bool.eqb];
        rewrite (dist_executeDelete_eq _ _ _ Hm), Hkey;
        apply (issued am w db st Hdb Hopen Hst _ _ Hv)).
  destruct (read_committed am w db rd ar Hrd Hread Hsd Hss (OpDelete q)
              (with_records st (remove q (records st)))) as [Hr1 Hr2].
  assert (Hseen : forall i, ~ reads_index ar (with_records st (remove q (records st))) i)
    by exact Hprimary.
  rewrite (seen_primary ar _ Hread Hhint Hseen) in Hr1, Hr2.
  eexists. exists (remove q (records st)).
  split; [|split; [|split; [|split; [|split; [|split]]]]].
  - unfold Src.execute.
    rewrite (started_outcome am w db st Hdb Hopen Hst _ _ _ CommitOk Hs).
    reflexivity.
  - unfold Dist.execute.
    rewrite (started_outcome am w db st Hdb Hopen Hst _ _ _ CommitOk Hd).
    reflexivity.
  - reflexivity.
  - exact Hr1.
  - exact Hr2.
  - reflexivity.
  - intros kv. unfold remove. rewrite filter_In, Bool.negb_true_iff. reflexivity.
Qed.

Lemma X15_delete_then_read_witness :
  fst (Dist.execute 1 CommitOk
         (snd (Dist.execute 0 CommitOk
                 (modifier_and_reader
                    (set_deleteDoc (Some (AKey (KStr "1")))
                       (Sample.instance DELETE JUndefined)))))) =
  Fulfilled (RArray [Sample.bob]).
Proof.
  destruct (X15_delete_then_read 0 1
              (set_deleteDoc (Some (AKey (KStr "1"))) (Sample.instance DELETE JUndefined))
              (Sample.instance READ JUndefined)
              (modifier_and_reader
                 (set_deleteDoc (Some (AKey (KStr "1")))
                    (Sample.instance DELETE JUndefined)))
              (mkDatabase false {[ "users" := populated ]}) populated
              (AKey (KStr "1"))
              eq_refl eq_refl eq_refl eq_refl eq_refl eq_refl eq_refl eq_refl
              eq_refl eq_refl)
    as (w1 & left & _ & Hd & _ & _ & Hr & Hleft & _).
  - discriminate.
  - intros i (_ & Hi & _). discriminate Hi.
  - rewrite Hd. cbn [snd]. rewrite Hr, Hleft. reflexivity.
Defined.

Lemma vet_add_or_put db st a op doc k :
  objectStores db !! storeName a = Some st ->
  op = OpAdd doc \/ op = OpPut doc ->
  extract_key (keyPath st) doc = Some k ->
  vet_request db (mkRequest (IDBObjectStore (opened a readwrite) (storeName a)) op) = Ok tt.
Proof.
  intros Hst Hop Hk. unfold vet_request.
  cbn [reqSource reqOp source_transaction source_store opened txMode].
  rewrite Bool.andb_false_r, Hst.
  destruct Hop as [-> | ->]; rewrite Hk; reflexivity.
Qed.

Lemma defined_payload doc : doc <> JUndefined -> is_undefined doc = false.
Proof. destruct doc; try reflexivity. contradiction. Qed.

(** X16. A WRITE inserts only where nothing is: on an open database that
    has the store, when the store already holds a record under the key of
    the payload, the promise is rejected with the engine's ConstraintError,
    in the source and in the build and whatever the commit would have
    done; the transaction was opened and the insert asked for, and no
    database has changed. *)
Theorem X16_write_refuses_a_taken_key m am w db st k old f :
  heap w !! m = Some am ->
  action am = WRITE ->
  updateDoc am <> JUndefined ->
  databases w !! databaseInstance am = Some db ->
  closed db = false ->
  objectStores db !! storeName am = Some st ->
  extract_key (keyPath st) (updateDoc am) = Some k ->
  lookup_key k (records st) = Some old ->
  let add := mkRequest (IDBObjectStore (opened am readwrite) (storeName am))
                       (OpAdd (updateDoc am)) in
  let refused := DOMException "ConstraintError" "Key already exists in the object store." in
  Src.execute m f w =
    (Rejected (Some refused),
     after_calls [CallTransaction (opened am readwrite); CallRequest add] w) /\
  Dist.execute m f w =
    (Rejected (Some refused),
     after_calls [CallTransaction (opened am readwrite); CallRequest add] w).
Proof.
  intros Hm Hact Hdoc Hdb Hopen Hst Hk Hold. cbv zeta.
  pose proof (vet_add_or_put db st am _ _ k Hst (or_introl eq_refl) Hk) as Hv.
  apply defined_payload in Hdoc.
  assert (Hs : Src.execute_body m w = _)
    by (rewrite (src_execute_body_eq _ _ _ Hm), Hact;
        cbn [String.eqb READ WRITE UPDATE DELETE CLEAR Ascii.eqb Bool.eqb];
        rewrite (src_executeWrite_eq _ _ _ Hm),
          (resolved_ok _ _ false _ _ _ Hdb Hopen Hst), Hdoc;
        apply (issued am w db st Hdb Hopen Hst _ _ Hv)).
  assert (Hd : Dist.execute_body m w = _)
    by (rewrite (dist_execute_body_eq _ _ _ Hm), Hact;
        cbn [String.eqb READ WRITE UPDATE DELETE CLEAR Ascii.eqb Bool.eqb];
        rewrite (dist_executeWrite_eq _ _ _ Hm), Hdoc;
        apply (issued am w db st Hdb Hopen Hst _ _ Hv)).
  split.
  - unfold Src.execute.
    rewrite (started_outcome am w db st Hdb Hopen Hst _ _ _ f Hs).
    unfold perform_on. cbn [reqOp]. rewrite Hk, Hold. reflexivity.
  - unfold Dist.execute.
    rewrite (started_outcome am w db st Hdb Hopen Hst _ _ _ f Hd).
    unfold perform_on. cbn [reqOp]. rewrite Hk, Hold. reflexivity.
Qed.

Lemma X16_write_refuses_a_taken_key_witness :
  fst (Dist.execute 0 CommitOk duplicate_writer) =
  Rejected (Some (DOMException "ConstraintError"
                    "Key already exists in the object store.")).
Proof.
  destruct (X16_write_refuses_a_taken_key 0 (Sample.instance WRITE Sample.bob)
              duplicate_writer (mkDatabase false {[ "users" := populated ]})
              populated (KStr "2") Sample.bob CommitOk eq_refl eq_refl)
    as [_ Hd].
  - discriminate.
  - reflexivity.
  - reflexivity.
  - reflexivity.
  - reflexivity.
  - reflexivity.
  - rewrite Hd. reflexivity.
Defined.

(** X17. On an open database whose store keeps its records in key order,
    a WRITE of a payload whose key is free, and an UPDATE that is not
    refused of a payload with a key, taken or not, are fulfilled when the
    commit goes through, in the source and in the build.  The store then
    holds, again in key order, the payload under its key and exactly the
    records it held under other keys: a record it held under the payload's
    key is replaced.  A READ of the object store that follows is fulfilled
    with the values of these records. *)
Theorem X17_stored_payload_is_read_back m rd am ar w db st k :
  heap w !! m = Some am ->
  heap w !! rd = Some ar ->
  (action am = WRITE /\ updateDoc am <> JUndefined /\
   lookup_key k (records st) = None) \/
  (action am = UPDATE /\ ~ update_refused am st) ->
  extract_key (keyPath st) (updateDoc am) = Some k ->
  action ar = READ ->
  databaseInstance ar = databaseInstance am ->
  storeName ar = storeName am ->
  databases w !! databaseInstance am = Some db ->
  closed db = false ->
  objectStores db !! storeName am = Some st ->
  hintIndex ar <> Some EmptyString ->
  (forall i, ~ reads_index ar st i) ->
  in_key_order (records st) ->
  exists w1 now,
    Src.execute m CommitOk w = (Fulfilled RUndefined, w1) /\
    Dist.execute m CommitOk w = (Fulfilled RUndefined, w1) /\
    databases w1 = store_replaced am db (with_records st now) w /\
    fst (Src.execute rd CommitOk w1) = Fulfilled (RArray (map snd now)) /\
    fst (Dist.execute rd CommitOk w1) = Fulfilled (RArray (map snd now)) /\
    now = upsert k (updateDoc am) (records st) /\
    in_key_order now /\
    (forall k' v',
       In (k', v') now <->
       (k' = k /\ v' = updateDoc am) \/ (In (k', v') (records st) /\ k' <> k)).
Proof.
  intros Hm Hrd Hkind Hk Hread Hsd Hss Hdb Hopen Hst Hhint Hprimary Hsorted.
  assert (Hbodies : exists op hs hd,
    (op = OpAdd (updateDoc am) \/ op = OpPut (updateDoc am)) /\
    perform_on st (mkRequest (IDBObjectStore (opened am readwrite) (storeName am)) op) =
      Ok (RKey k, with_records st (upsert k (updateDoc am) (records st))) /\
    settle hs [EvSuccess (RKey k); EvComplete] = Fulfilled RUndefined /\
    settle hd [EvSuccess (RKey k); EvComplete] = Fulfilled RUndefined /\
    Src.execute_body m w =
      (Ok (mkStarted (mkRequest (IDBObjectStore (opened am readwrite) (storeName am)) op) hs),
       after_calls [CallTransaction (opened am readwrite);
                    CallRequest (mkRequest (IDBObjectStore (opened am readwrite)
                                              (storeName am)) op)] w) /\
    Dist.execute_body m w =
      (Ok (mkStarted (mkRequest (IDBObjectStore (opened am readwrite) (storeName am)) op) hd),
       after_calls [CallTransaction (opened am readwrite);
                    CallRequest (mkRequest (IDBObjectStore (opened am readwrite)
                                              (storeName am)) op)] w)).
  { destruct Hkind as [(Hact & Hdoc & Hfree) | (Hact & Hacc)].
    - pose proof (vet_add_or_put db st am _ _ k Hst (or_introl eq_refl) Hk) as Hv.
      apply defined_payload in Hdoc.
      exists (OpAdd (updateDoc am)). eexists. eexists.
      split; [left; reflexivity|]. split; [|split; [|split; [|split]]].
      + unfold perform_on. cbn [reqOp]. rewrite Hk, Hfree. reflexivity.
      + shelve.
      + shelve.
      + rewrite (src_execute_body_eq _ _ _ Hm), Hact.
        cbn [String.eqb READ WRITE UPDATE DELETE CLEAR Ascii.eqb Bool.eqb].
        rewrite (src_executeWrite_eq _ _ _ Hm),
          (resolved_ok _ _ false _ _ _ Hdb Hopen Hst), Hdoc.
        apply (issued am w db st Hdb Hopen Hst _ _ Hv).
      + rewrite (dist_execute_body_eq _ _ _ Hm), Hact.
        cbn [String.eqb READ WRITE UPDATE DELETE CLEAR Ascii.eqb Bool.eqb].
        rewrite (dist_executeWrite_eq _ _ _ Hm), Hdoc.
        apply (issued am w db st Hdb Hopen Hst _ _ Hv).
        Unshelve. all: reflexivity.
    - pose proof (vet_add_or_put db st am _ _ k Hst (or_intror eq_refl) Hk) as Hv.
      exists (OpPut (updateDoc am)). eexists. eexists.
      split; [right; reflexivity|]. split; [|split; [|split; [|split]]].
      + unfold perform_on. cbn [reqOp]. rewrite Hk. reflexivity.
      + shelve.
      + shelve.
      + rewrite (src_execute_body_eq _ _ _ Hm), Hact.
        cbn [String.eqb READ WRITE UPDATE DELETE CLEAR Ascii.eqb Bool.eqb].
        rewrite (src_executeUpdate_eq _ _ _ Hm),
          (update_accepted_outcome _ _ _ _ _ Hdb Hopen Hst Hacc).
        apply (issued am w db st Hdb Hopen Hst _ _ Hv).
      + rewrite (dist_execute_body_eq _ _ _ Hm), Hact.
        cbn [String.eqb READ WRITE UPDATE DELETE CLEAR Ascii.eqb Bool.eqb].
        rewrite (dist_executeUpdate_eq _ _ _ Hm),
          (update_accepted_outcome _ _ _ _ _ Hdb Hopen Hst Hacc).
        apply (issued am w db st Hdb Hopen Hst _ _ Hv).
        Unshelve. all: reflexivity. }
  destruct Hbodies as (op & hs & hd & _ & Hp & Hfs & Hfd & Hs & Hd).
  destruct (read_committed am w db rd ar Hrd Hread Hsd Hss op
              (with_records st (upsert k (updateDoc am) (records st)))) as [Hr1 Hr2].
  assert (Hseen : forall i,
            ~ reads_index ar (with_records st (upsert k (updateDoc am) (records st))) i)
    by exact Hprimary.
  rewrite (seen_primary ar _ Hread Hhint Hseen) in Hr1, Hr2.
  eexists. exists (upsert k (updateDoc am) (records st)).
  split; [|split; [|split; [|split; [|split; [|split; [|split]]]]]].
  - unfold Src.execute.
    rewrite (started_outcome am w db st Hdb Hopen Hst _ _ _ CommitOk Hs), Hp, Hfs.
    reflexivity.
  - unfold Dist.execute.
    rewrite (started_outcome am w db st Hdb Hopen Hst _ _ _ CommitOk Hd), Hp, Hfd.
    reflexivity.
  - reflexivity.
  - exact Hr1.
  - exact Hr2.
  - reflexivity.
  - apply upsert_in_key_order. exact Hsorted.
  - apply upsert_spec. exact Hsorted.
Qed.

Lemma X17_stored_payload_is_read_back_witness :
  fst (Dist.execute 1 CommitOk
         (snd (Dist.execute 0 CommitOk
                 (modifier_and_reader (Sample.instance UPDATE Sample.alice_updated))))) =
  Fulfilled (RArray [Sample.alice_updated; Sample.bob]).
Proof.
  destruct (X17_stored_payload_is_read_back 0 1
              (Sample.instance UPDATE Sample.alice_updated)
              (Sample.instance READ JUndefined)
              (modifier_and_reader (Sample.instance UPDATE Sample.alice_updated))
              (mkDatabase false {[ "users" := populated ]}) populated (KStr "1")
              eq_refl eq_refl)
    as (w1 & now & _ & Hd & _ & _ & Hr & Hnow & _).
  - right. split; [reflexivity|].
    intros [H | [H | [[ps H] | (p & Hp & Hf)]]]; try discriminate.
    inversion Hp. subst p. discriminate Hf.
  - reflexivity.
  - reflexivity.
  - reflexivity.
  - reflexivity.
  - reflexivity.
  - reflexivity.
  - reflexivity.
  - discriminate.
  - intros i (_ & Hi & _). discriminate Hi.
  - repeat constructor.
  - rewrite Hd. cbn [snd]. rewrite Hr, Hnow. reflexivity.
Defined.

(** ** The source and the commit *)

(** X18. The promise of the source does not depend on the commit: in any
    world [execute] of src/DbAction.ts leaves the promise it leaves when
    the commit goes through, also when the commit fails and no database
    has changed. *)
Theorem X18_src_promise_ignores_the_commit this a w f :
  heap w !! this = Some a ->
  fst (Src.execute this f w) = fst (Src.execute this CommitOk w) /\
  (forall e, databases (snd (Src.execute this (CommitFails e) w)) = databases w).
Proof.
  intros Hthis. unfold Src.execute.
  destruct (Src.execute_body this w) as [[s|e] w0] eqn:Hb.
  - destruct (src_started _ _ _ _ _ Hthis Hb) as (Hdbs & Hh).
    pose proof (src_body_handlers _ _ _ _ _ Hthis Hb) as Hs.
    unfold async_call. rewrite Hb, Hh, Hdbs.
    destruct (databases w !! databaseInstance a) as [db|] eqn:Hdb.
    + unfold Engine.run.
      destruct (perform db (request s)) as [[res db']|e]; rewrite Hs.
      * split; [destruct f; reflexivity|].
        intros e. cbn [snd databases]. apply insert_id. exact Hdb.
      * split; [reflexivity|].
        intros e'. cbn [snd databases]. apply insert_id. exact Hdb.
    + split; [reflexivity|]. intros e. exact Hdbs.
  - rewrite !(async_call_throw _ _ _ _ _ Hb). split; [reflexivity|].
    intros e'. rewrite (async_call_throw _ _ _ _ _ Hb). cbn [snd].
    pose proof (stable_src_execute_body this w) as [_ Hdbs]. rewrite Hb in Hdbs.
    exact Hdbs.
Qed.

Lemma X18_src_promise_ignores_the_commit_witness :
  fst (Src.execute 0 (CommitFails Sample.quota) (Sample.world UPDATE Sample.alice)) =
  Fulfilled RUndefined.
Proof.
  destruct (X18_src_promise_ignores_the_commit 0 (Sample.instance UPDATE Sample.alice)
              (Sample.world UPDATE Sample.alice) (CommitFails Sample.quota) eq_refl)
    as [H _].
  rewrite H. reflexivity.
Defined.
